(* ===== verification/_CoqProject ===== *)
-Q . S2P
Prelude.v
Driver.v
SimDriver.v
Config.v
Startup.v
Message.v
ScanTick.v
Main.v
SimTick.v
SimRun.v
Lifecycle.v
