(* ===== verification/Prelude.v ===== *)
(** * RFID_TMReader: a verification development of [rfid_tmreader_node.cpp]

    The program is one ROS 2 node,
    [src/ros2_ws/src/rfid_tmreader_node/src/rfid_tmreader_node.cpp]
    (138 lines).  Its parts and how they interact:
    - the class [RfidTmreaderNode]: the constructor declares and reads five
      parameters, creates the publisher on [rfid/tags], acquires and
      configures a reader through the MercuryAPI C driver (create, connect,
      region KR2, read plan on antennas 1 and 2), unwinding on each failure,
      and starts a wall timer; the destructor disconnects and destroys the
      reader;
    - the timer callback [OnTimer]: for every antenna of [ants_] it
      restricts the read plan to that antenna, allocates fresh tag buffers,
      reads EPCs and publishes one message
      ["ant=<a> count=<k> <epc_1> ... <epc_k>"] when the read succeeded
      with [k > 0];
    - [main]: builds the node, spins it, catches any [std::exception]
      printing ["Fatal: <what>"], and returns 0;
    - the MercuryAPI driver ([mercuryapi.h]), which is not in the
      repository: it is modelled from the spec as an interface with a
      contract.

    ** Files
    - [Prelude] (this file): C++ outcomes ([Ret], [Throw] of a
      [cpp_exception], [Undefined] for undefined behaviour); the state and
      exception monad [ST] with [st_catch] (a [try]/[catch]), [st_finally]
      (a destructor run on both exits) and [for_each] (a range-for);
      [int32_wrap] (an [int64_t] stored in an [int]); [std_to_string] and
      its inverse [parse_decimal]; C strings ([cstr_read] reads up to the
      first NUL of a buffer, [Undefined] past its end); the notation scope
      [rfid_scope], the hint databases [rfid] and [rfid_rw], and the
      shared lemmas.
    - [Driver]: the typeclass [MercuryApi W] (the seven driver functions
      over an abstract world [W], with the observations [reader_live],
      [reader_connected], [reader_region], [reader_plan], [tags_in_range])
      and the Prop class [MercuryApiLaws W], the contract the node relies
      on; the system state [sys W] (driver world, the list of published
      messages, the publisher [pub_] as a trace, the log written with
      [RCLCPP_INFO], and the rclcpp context [rcl_context]), [call],
      [publish] and [rclcpp_info]; [ctx_free] and [ctx_oblivious] (the
      node's code does not read the context), with the equivalence of
      systems up to their context ([sys_eqv]) as a setoid.
      Every theorem about the node is proved against these classes, for
      every driver that meets the contract.
    - [SimDriver]: an executable driver with fault injection ([sim_api])
      and the proof [sim_laws] that it meets the contract; the witnesses
      and the spec's scenarios run on it.  [sim_overreport_api] is a
      driver outside the contract.
    - [Config]: the parameters ([declare_string_parameter],
      [declare_int_parameter], [load_parameters]: lines 23-33), the record
      [RfidTmreaderNode] of the class's members (lines 116-126) with their
      initialisers, and [store_parameters] (the narrowing assignments of
      lines 30-33).
    - [Startup]: [RfidTmreaderNode_ctor] (lines 20-71), [create_wall_timer]
      (lines 66-68), [startup_log_line] (line 70), [reader_teardown]
      (lines 51-52) and
      [RfidTmreaderNode_dtor] (lines 73-80); the abstract specification
      [ctor_spec] of the constructor, one rule per way it ends, and the
      refinement lemma [ctor_refines_spec].
    - [Message]: the message of lines 104-109 ([message_header],
      [append_epcs], [build_message]), the spec's format [format_message]
      and its parser [parse_message].
    - [ScanTick]: [vector_new] (a [std::vector] of [int] size),
      [point_ptrs], [scan_antenna] (the loop body, lines 86-112) and
      [OnTimer] (lines 83-114); the per-antenna specification
      [antenna_spec] and the refinement lemma [scan_antenna_refines].
    - [Main]: [rclcpp_init] (line 131), [spin] with the shutdown from
      outside that ends it ([spin_exit]), [run_node], [fatal_line],
      [rclcpp_shutdown] (line 137) and [main] (lines 129-138).
    - [SimTick]: a tick on the simulated driver computed exactly
      ([sim_expected]), and the calls it makes to the driver, in order
      ([antenna_calls]), read off the simulated driver's call trace
      [sim_trace].
    - [SimRun]: the driver calls of the constructor ([ctor_calls], the
      startup protocol as a function of the injected faults) and of whole
      runs of [main], on the simulated driver.
    - [Lifecycle]: the control flow of [main] as a step relation
      [proc_step] on the phases [proc_state] (before [rclcpp::init],
      before construction, running, after the [catch] with the stderr
      lines, exited after [rclcpp::shutdown]) and its resource invariant
      [proc_inv].

    ** Theorems
    - Scan loop ([ScanTick]): a tick returns normally and publishes at most
      one message per antenna, each in the spec's format with 1 to
      [max_tags_] EPCs seen by that antenna; the behaviour of one antenna
      on each branch (plan failure, silent read, published read); failure
      isolation (every antenna is scanned whatever the others did); a tick
      keeps the reader configured; [epc_buf_size_ = 0] makes a successful
      read undefined behaviour, a negative [max_tags_] throws
      [std::length_error]; a driver that reports more tags than
      [max_tags_] (outside the contract; [SimDriver.sim_overreport_api])
      makes the message loop read past [ptrs].
    - Startup and teardown ([Startup]): a constructed node owns a fresh,
      connected reader in region KR2 with plan [1; 2]; a failure of any
      reader step releases what was acquired; a failure of the timer leaks
      the reader; the destructor releases the reader and is idempotent;
      construction then destruction restores the driver's resources; the
      [int] members are the parameters narrowed to 32 bits; an override of
      the wrong type throws for the first such parameter in declaration
      order, before any other effect, and well-typed overrides always
      load; the start line is logged exactly on success.
    - Message ([Message]): the message loop equals the spec's format on
      every branch, and the format round-trips through the parser when no
      EPC contains a space.
    - Simulated reader ([SimTick]): every tag in range is reported by the
      next tick (liveness); saturation reports the first [max_tags_] tags
      with no signal; a tick calls the driver exactly with, per antenna in
      order, a plan on that antenna and, when it succeeded, one read with
      [max_tags_] and [timeout_ms_].
    - Driver calls ([SimRun]), for any injected faults: the constructor
      follows the spec's startup protocol and unwinds exactly what it
      acquired; a run of [k] ticks makes the startup calls, the calls of
      each tick in order, then disconnect and destroy; a negative
      [max_tags] stops the node at its first tick, after one read-plan
      call and before any read, with the reader still released.
    - Lifecycle ([Lifecycle]): every reachable configuration satisfies the
      resource invariant (rule induction): the only leak of the process is
      the wall-timer failure; and [main] refines [proc_step].
    - Process ([Main]): with sane sizes every run of [k] ticks ends
      without a ["Fatal"] line, releases the reader, and publishes at most
      [2 k] well-formed messages; a construction failure exits with status
      0 after one ["Fatal"] line; a run releases every resource.  The
      spec's three end-to-end scenarios are also evaluated on the
      simulated driver, as tests.

    ** Bounds and fuel
    [rclcpp::spin] does not return on its own; [spin ticks] runs the first
    [ticks] timer firings, then the shutdown from outside that makes it
    return.  Every property of a run is a property of a
    finite prefix, and the theorems on [main] hold for every [ticks], so no
    bound is needed.  The loops of the node are structural over [ants_],
    over [seq 0 count] and over [seq 0 max_tags_], so every definition is
    total and executable: the two index loops (lines 95-97 and 106-109)
    run [i] from 0 to [n - 1] with an [int] bound [n], so [++i] never
    overflows and they are folds over [seq 0 n].  The pointer loop only
    writes below the size of [ptrs], which is its bound, so an
    out-of-range write (a no-op of stdpp's list insert) cannot happen.
    Integers are [Z]; the width of [int] appears
    where the code narrows ([int32_wrap]) and where a negative [int] is
    turned into a vector size ([vector_new]).

    ** Not modelled
    What [rclcpp::init] does besides validating the context (parsing
    [argv]: its parameter overrides are given to [main] directly; an
    exception it would throw on malformed arguments, outside the [try]),
    the executor beyond the order of the timer firings and its exit on
    shutdown, the transport and QoS of the
    publisher (a publish appends to a trace), the prefix the logger puts
    before a logged line (level, time, node name), memory exhaustion ([std::bad_alloc]), and the implementation of the
    MercuryAPI driver, of which only the contract is stated. *)

From Stdlib Require Export ZArith Ascii String DecimalString DecimalZ.
From stdpp Require Export base list gmap strings.

(** ** C++ exceptions and outcomes

    A C++ statement either returns, throws an exception, or has undefined
    behaviour (an out-of-bounds read).  The model keeps the three apart. *)

Inductive cpp_exception :=
  | runtime_error (what : string)      (** [std::runtime_error] *)
  | length_error (what : string)       (** [std::length_error] of [std::vector(n)] *)
  | invalid_argument (what : string).  (** [std::invalid_argument] *)

#[export] Instance cpp_exception_eq_dec : EqDecision cpp_exception.
Proof. solve_decision. Defined.

Inductive outcome (A : Type) :=
  | Ret (a : A)
  | Throw (e : cpp_exception)
  | Undefined (why : string).
Arguments Ret {A} a.
Arguments Throw {A} e.
Arguments Undefined {A} why.

(** ** A state and exception monad

    [ST S A] threads the state [S] through a computation.  The state is
    kept when an exception is thrown: resources acquired before a [throw]
    stay acquired, which is what the leak theorems are about. *)

Definition ST (S A : Type) : Type := S -> outcome A * S.

#[export] Instance st_ret {S} : MRet (ST S) := fun A a s => (Ret a, s).
#[export] Instance st_bind {S} : MBind (ST S) := fun A B k c s =>
  match c s with
  | (Ret a, s') => k a s'
  | (Throw e, s') => (Throw e, s')
  | (Undefined w, s') => (Undefined w, s')
  end.

Definition st_throw {S A} (e : cpp_exception) : ST S A := fun s => (Throw e, s).
Definition st_undefined {S A} (why : string) : ST S A := fun s => (Undefined why, s).
Definition st_lift {S A} (o : outcome A) : ST S A := fun s => (o, s).

(** [try { c } catch (const std::exception&) { h e }]; undefined behaviour
    is not caught. *)
Definition st_catch {S A} (c : ST S A) (h : cpp_exception -> ST S A) : ST S A :=
  fun s => match c s with
           | (Throw e, s') => h e s'
           | r => r
           end.

(** [c] followed by [f] whether [c] returned or threw, the exception of
    [c] then propagating: a destructor run at the end of a full
    expression or during unwinding.  Undefined behaviour stops there. *)
Definition st_finally {S A} (c : ST S A) (f : ST S unit) : ST S A :=
  fun s => match c s with
           | (Undefined w, s1) => (Undefined w, s1)
           | (o, s1) => match f s1 with
                        | (Ret _, s2) => (o, s2)
                        | (Throw e, s2) => (Throw e, s2)
                        | (Undefined w, s2) => (Undefined w, s2)
                        end
           end.

(** A range-for loop over a list. *)
Fixpoint for_each {S A} (l : list A) (body : A -> ST S unit) : ST S unit :=
  match l with
  | [] => mret tt
  | x :: l' => body x ;; for_each l' body
  end.

(** [P] holds of the state after [c] whenever it holds before, on every
    outcome, thrown exceptions included. *)
Definition st_preserves {S A} (P : S -> Prop) (c : ST S A) : Prop :=
  forall s o s', P s -> c s = (o, s') -> P s'.

(** ** Machine integers

    [int] is 32 bits wide; rclcpp's [as_int()] returns an [int64_t], and the
    node narrows it into an [int] member. *)

Definition INT32_MIN : Z := - 2 ^ 31.
Definition INT32_MAX : Z := 2 ^ 31 - 1.

(** Conversion of an integer to [int] (two's complement, modulo [2^32]). *)
Definition int32_wrap (z : Z) : Z := (z + 2 ^ 31) mod 2 ^ 32 - 2 ^ 31.

(** ** Decimal formatting: [std::to_string(int)] *)

Definition std_to_string (z : Z) : string :=
  NilEmpty.string_of_int (Z.to_int z).

(** Decimal parsing, the inverse used to state round trips. *)
Definition parse_decimal (s : string) : option Z :=
  Z.of_int <$> NilEmpty.int_of_string s.

(** ** C strings in [char] buffers *)

Definition NUL : ascii := Ascii.zero.

(** Reading a NUL-terminated string from a buffer (what appending a
    [char*] to a [std::string] does); running off the end of the buffer
    without meeting a terminator is an out-of-bounds read. *)
Fixpoint cstr_read (buf : list ascii) : option string :=
  match buf with
  | [] => None
  | c :: b => if decide (c = NUL) then Some ""%string else String c <$> cstr_read b
  end.

(** The first [n] characters of a string. *)
Definition str_take (n : nat) (t : string) : string :=
  string_of_list_ascii (take n (list_ascii_of_string t)).

(** Copying a string into a buffer with truncation to the buffer's size
    minus one and a terminator (the contract of the reader driver); the
    rest of the buffer is left as it was. *)
Definition write_cstr (buf : list ascii) (t : string) : list ascii :=
  match length buf with
  | O => buf
  | S n => let p := take n (list_ascii_of_string t) in
           p ++ NUL :: drop (S (length p)) buf
  end.

Definition no_nul (t : string) : Prop := NUL ∉ list_ascii_of_string t.

#[export] Instance no_nul_dec t : Decision (no_nul t).
Proof. unfold no_nul. apply _. Defined.

(** [throw e;] in the models of the node's code. *)
Declare Scope rfid_scope.
Delimit Scope rfid_scope with rfid.
Notation "'throw' e" := (st_throw e) (at level 10, e at level 9) : rfid_scope.

(** ** Automation *)

Create HintDb rfid discriminated.
Create Rewrite HintDb rfid_rw.

Ltac st_unfold :=
  unfold mbind, mret, st_bind, st_ret, st_throw, st_undefined in *.

(** Case analysis on the first pair [c s] of a bind in the goal. *)
(** A closed decidable proposition, by evaluation. *)
Ltac by_bool_decide := apply (bool_decide_eq_true_1 _); vm_compute; reflexivity.

Ltac st_step :=
  match goal with
  | |- context [match ?c ?s with _ => _ end] =>
      let o := fresh "o" in let s' := fresh "s" in let E := fresh "E" in
      destruct (c s) as [o s'] eqn:E; destruct o
  end.

(** ** Generic lemmas *)

Section Monad.
Context {S : Type}.

Lemma st_bind_ret {A B} (a : A) (k : A -> ST S B) s :
  (mret a ≫= k) s = k a s.
Proof. reflexivity. Qed.

Lemma st_bind_Ret {A B} (c : ST S A) (k : A -> ST S B) s a s' :
  c s = (Ret a, s') -> (c ≫= k) s = k a s'.
Proof. intros E. st_unfold. by rewrite E. Qed.

Lemma st_bind_Throw {A B} (c : ST S A) (k : A -> ST S B) s e s' :
  c s = (Throw e, s') -> (c ≫= k) s = (Throw e, s').
Proof. intros E. st_unfold. by rewrite E. Qed.

Lemma st_bind_Undefined {A B} (c : ST S A) (k : A -> ST S B) s w s' :
  c s = (Undefined w, s') -> (c ≫= k) s = (Undefined w, s').
Proof. intros E. st_unfold. by rewrite E. Qed.

Lemma st_bind_Ret_inv {A B} (c : ST S A) (k : A -> ST S B) s b s'' :
  (c ≫= k) s = (Ret b, s'') ->
  exists a s', c s = (Ret a, s') /\ k a s' = (Ret b, s'').
Proof. st_unfold. destruct (c s) as [[] ?]; naive_solver. Qed.

(** An invariant of every step holds along every path. *)
Lemma rtc_invariant {A} (R : relation A) (P : A -> Prop) x y :
  (forall a b, P a -> R a b -> P b) -> rtc R x y -> P x -> P y.
Proof. intros Hstep Hr. induction Hr; eauto. Qed.

Lemma for_each_app {A} (l1 l2 : list A) (body : A -> ST S unit) s :
  for_each (l1 ++ l2) body s = (for_each l1 body ;; for_each l2 body) s.
Proof.
  revert s. induction l1 as [|x l1 IH]; intros s; [done|].
  simpl. st_unfold. destruct (body x s) as [[] s']; [|done|done].
  apply IH.
Qed.

Lemma st_preserves_bind {A B} (P : S -> Prop) (c : ST S A) (k : A -> ST S B) :
  st_preserves P c -> (forall a, st_preserves P (k a)) -> st_preserves P (c ≫= k).
Proof.
  intros Hc Hk s o s' HP. st_unfold.
  destruct (c s) as [o1 s1] eqn:E. pose proof (Hc _ _ _ HP E).
  destruct o1; intros Heq; simplify_eq; [by eapply Hk|done|done].
Qed.

Lemma st_preserves_ret {A} (P : S -> Prop) (a : A) : st_preserves P (mret a).
Proof. intros s o s' HP [= _ <-]. done. Qed.

Lemma st_preserves_throw {A} (P : S -> Prop) e : st_preserves P (st_throw (A:=A) e).
Proof. intros s o s' HP [= _ <-]. done. Qed.

Lemma for_each_preserves {A} (P : S -> Prop) (l : list A) body :
  (forall x, x ∈ l -> st_preserves P (body x)) -> st_preserves P (for_each l body).
Proof.
  induction l as [|x l IH]; intros Hb; simpl.
  - apply st_preserves_ret.
  - apply st_preserves_bind; [apply Hb; set_solver|].
    intros _. apply IH. intros y Hy. apply Hb. set_solver.
Qed.
End Monad.

#[export] Hint Resolve st_preserves_ret st_preserves_throw : rfid.
#[export] Hint Resolve st_preserves_bind for_each_preserves : rfid.

Section Int32.
Local Open Scope Z_scope.

Lemma int32_wrap_range z : INT32_MIN <= int32_wrap z <= INT32_MAX.
Proof.
  unfold int32_wrap, INT32_MIN, INT32_MAX.
  pose proof (Z.mod_pos_bound (z + 2 ^ 31) (2 ^ 32)). lia.
Qed.

Lemma int32_wrap_small z : INT32_MIN <= z <= INT32_MAX -> int32_wrap z = z.
Proof.
  unfold int32_wrap, INT32_MIN, INT32_MAX. intros H.
  rewrite Z.mod_small; lia.
Qed.

Lemma int32_wrap_mod z k : int32_wrap (z + k * 2 ^ 32) = int32_wrap z.
Proof.
  unfold int32_wrap.
  replace (z + k * 2 ^ 32 + 2 ^ 31) with (z + 2 ^ 31 + k * 2 ^ 32) by lia.
  by rewrite Z.mod_add by lia.
Qed.

End Int32.

#[export] Hint Resolve int32_wrap_range : rfid.
#[export] Hint Rewrite int32_wrap_small using (unfold INT32_MIN, INT32_MAX; lia) : rfid_rw.

Section Decimal.
Lemma parse_decimal_to_string z : parse_decimal (std_to_string z) = Some z.
Proof.
  unfold parse_decimal, std_to_string. rewrite NilEmpty.isi. simpl.
  by rewrite DecimalZ.of_to.
Qed.

Lemma std_to_string_inj z1 z2 : std_to_string z1 = std_to_string z2 -> z1 = z2.
Proof.
  intros E. apply (f_equal parse_decimal) in E.
  rewrite !parse_decimal_to_string in E. congruence.
Qed.
End Decimal.

Section CStrings.
Lemma length_write_cstr buf t : length (write_cstr buf t) = length buf.
Proof.
  unfold write_cstr. destruct (length buf) as [|n] eqn:Hl; [done|].
  rewrite length_app. simpl. rewrite length_drop, length_take. lia.
Qed.

Lemma cstr_read_app_no_nul (p rest : list ascii) :
  NUL ∉ p -> cstr_read (p ++ NUL :: rest) = Some (string_of_list_ascii p).
Proof.
  induction p as [|c p IH]; intros Hp; simpl; [done|].
  case_decide; [set_solver|]. rewrite IH by set_solver. done.
Qed.

Lemma cstr_read_write_cstr buf t :
  length buf <> O -> no_nul t ->
  cstr_read (write_cstr buf t) = Some (str_take (length buf - 1) t).
Proof.
  intros Hl Hn. unfold write_cstr, str_take.
  destruct (length buf) as [|n]; [done|].
  replace (S n - 1) with n by lia. apply cstr_read_app_no_nul.
  intros (i & Hi & _)%elem_of_take. apply Hn. by eapply list_elem_of_lookup_2.
Qed.

Lemma cstr_read_replicate n :
  cstr_read (replicate n NUL) = if n is S _ then Some ""%string else None.
Proof. by destruct n. Qed.
End CStrings.

#[export] Hint Rewrite length_write_cstr : rfid_rw.
#[export] Hint Rewrite parse_decimal_to_string : rfid_rw.

Section Strings.
(** stdpp makes [String.append] opaque to [simpl]; these are its equations. *)
Lemma string_app_nil_l (s : string) : "" +:+ s = s.
Proof. reflexivity. Qed.

Lemma string_app_cons c (s1 s2 : string) : String c s1 +:+ s2 = String c (s1 +:+ s2).
Proof. reflexivity. Qed.

Lemma list_ascii_of_string_app (s1 s2 : string) :
  list_ascii_of_string (s1 +:+ s2) = list_ascii_of_string s1 ++ list_ascii_of_string s2.
Proof. induction s1 as [|c s1 IH]; [done|]. rewrite string_app_cons. simpl. by rewrite IH. Qed.

Lemma string_app_assoc (s1 s2 s3 : string) : (s1 +:+ s2) +:+ s3 = s1 +:+ (s2 +:+ s3).
Proof. induction s1 as [|c s1 IH]; [done|]. rewrite !string_app_cons. by f_equal. Qed.

Lemma string_app_nil_r (s : string) : s +:+ "" = s.
Proof. induction s as [|c s IH]; [done|]. rewrite string_app_cons. by f_equal. Qed.

(** Decimal numerals contain no space. *)
Lemma string_of_uint_no_space u :
  " "%char ∉ list_ascii_of_string (NilEmpty.string_of_uint u).
Proof.
  induction u; simpl; [apply not_elem_of_nil|..];
    rewrite not_elem_of_cons; (split; [discriminate|done]).
Qed.

Lemma std_to_string_no_space z : " "%char ∉ list_ascii_of_string (std_to_string z).
Proof.
  unfold std_to_string, NilEmpty.string_of_int. destruct (Z.to_int z) as [u|u].
  - apply string_of_uint_no_space.
  - simpl. rewrite not_elem_of_cons. split; [discriminate|apply string_of_uint_no_space].
Qed.
End Strings.

#[export] Hint Rewrite list_ascii_of_string_app string_app_assoc : rfid_rw.

Section MapM.
Context {A : Type}.

(** A lookup over the indices [start .. start + k - 1] that succeeds at
    every index with a value satisfying [P] succeeds as a whole. *)
Lemma mapM_seq_ok (f : nat -> option A) (P : A -> Prop) start k :
  (forall i, start <= i < start + k -> exists e, f i = Some e /\ P e) ->
  exists es, mapM f (seq start k) = Some es /\ length es = k /\ Forall P es.
Proof.
  revert start. induction k as [|k IH]; intros start Hf; simpl.
  - by exists [].
  - destruct (Hf start) as (e & He & HP); [lia|].
    destruct (IH (S start)) as (es & Hes & Hl & HPs); [intros; apply Hf; lia|].
    rewrite He, Hes. exists (e :: es). simpl. split_and!; [done|lia|by constructor].
Qed.

(** A lookup that returns the [i]-th element of [l] at every index [i]
    gives back [l]. *)
Lemma mapM_seq_lookup (f : nat -> option A) (l : list A) :
  (forall i x, l !! i = Some x -> f i = Some x) -> mapM f (seq 0 (length l)) = Some l.
Proof.
  intros Hf. apply mapM_Some_2, Forall2_lookup. intros i.
  destruct (l !! i) as [x|] eqn:Hi.
  - rewrite lookup_seq_lt by (eapply lookup_lt_Some; done). constructor. by apply Hf.
  - apply lookup_ge_None in Hi. rewrite lookup_seq_ge by lia. constructor.
Qed.
End MapM.

Lemma str_take_small n t : length (list_ascii_of_string t) <= n -> str_take n t = t.
Proof.
  intros Hn. unfold str_take. rewrite take_ge by done.
  apply string_of_list_ascii_of_string.
Qed.
