(* ===== verification/Driver.v ===== *)
(** * Driver: the MercuryAPI reader driver as seen by the node

    The node calls seven C functions of [mercuryapi.h] (not part of the
    repository): [mercuryapi_reader_create], [_connect],
    [_set_region_enum], [mercuryapi_set_read_plan_gen2],
    [mercuryapi_read_epcs], [mercuryapi_reader_disconnect] and
    [mercuryapi_reader_destroy].  [MercuryApi] is that capability over an
    abstract driver world [W]; [MercuryApiLaws] is the contract the node
    relies on (spec section 4.1).  Every theorem about the node is proved
    against these two classes; [SimDriver] gives an instance.

    [sys W] is the state of the whole system as the node sees it: the
    driver world, the messages published so far on [rfid/tags] and the
    lines logged so far. *)

From S2P Require Import Prelude.

Inductive mercuryapi_result_t :=
  | MERCURYAPI_OK
  | MERCURYAPI_NO_TAG
  | MERCURYAPI_ERROR (code : Z).

#[export] Instance mercuryapi_result_t_eq_dec : EqDecision mercuryapi_result_t.
Proof. solve_decision. Defined.

Inductive mercuryapi_region_t :=
  | MERCURYAPI_REGION_KR2
  | MERCURYAPI_REGION_OTHER (code : Z).

#[export] Instance mercuryapi_region_t_eq_dec : EqDecision mercuryapi_region_t.
Proof. solve_decision. Defined.

(** A [mercuryapi_reader_t*]; [None] is [nullptr]. *)
Abbreviation reader_handle := nat (only parsing).

Class MercuryApi (W : Type) := {
  mercuryapi_reader_create : W -> mercuryapi_result_t * option reader_handle * W;
  mercuryapi_reader_connect : reader_handle -> string -> W -> mercuryapi_result_t * W;
  mercuryapi_reader_set_region_enum :
    reader_handle -> mercuryapi_region_t -> W -> mercuryapi_result_t * W;
  (** [(reader, ants, n_ants, session)]: the antenna array is passed as a list. *)
  mercuryapi_set_read_plan_gen2 :
    reader_handle -> list Z -> Z -> W -> mercuryapi_result_t * W;
  (** [(reader, epcs, lens, max, &count, timeout)]: returns the result, the
      buffers after the call and the value written to [count]. *)
  mercuryapi_read_epcs :
    reader_handle -> list (list ascii) -> list Z -> Z -> Z -> W ->
    mercuryapi_result_t * list (list ascii) * Z * W;
  mercuryapi_reader_disconnect : reader_handle -> W -> W;
  mercuryapi_reader_destroy : reader_handle -> W -> W;
  (** Observations of the world. *)
  reader_live : W -> gset reader_handle;       (** allocated handles *)
  reader_connected : W -> gset reader_handle;  (** open connections *)
  reader_region : W -> reader_handle -> option mercuryapi_region_t;
  reader_plan : W -> reader_handle -> option (list Z);
  tags_in_range : W -> Z -> list string;       (** EPCs an antenna can see *)
}.

(** The buffer [b'] is what the driver may leave in a buffer [b] during a
    read with plan [p]: [b] untouched, or an EPC seen by an antenna of the
    plan copied in with truncation and a terminator. *)
Definition read_buffer_ok `{MercuryApi W} (w : W) (p : list Z) (b b' : list ascii) : Prop :=
  b' = b \/ exists a t, a ∈ p /\ t ∈ tags_in_range w a /\ b' = write_cstr b t.

Class MercuryApiLaws (W : Type) `{MercuryApi W} : Prop := {
  create_ok w h w' :
    mercuryapi_reader_create w = (MERCURYAPI_OK, Some h, w') ->
    (h ∉ reader_live w) /\ reader_live w' = {[h]} ∪ reader_live w /\
    reader_connected w' = reader_connected w;
  create_fail w r oh w' :
    mercuryapi_reader_create w = (r, oh, w') -> r <> MERCURYAPI_OK \/ oh = None ->
    reader_live w' = reader_live w /\ reader_connected w' = reader_connected w;
  connect_spec h uri w r w' :
    mercuryapi_reader_connect h uri w = (r, w') ->
    reader_live w' = reader_live w /\
    reader_connected w' =
      (if decide (r = MERCURYAPI_OK) then {[h]} ∪ reader_connected w else reader_connected w);
  set_region_spec h rg w r w' :
    mercuryapi_reader_set_region_enum h rg w = (r, w') ->
    reader_live w' = reader_live w /\ reader_connected w' = reader_connected w /\
    (r = MERCURYAPI_OK -> reader_region w' h = Some rg);
  set_plan_spec h ants sess w r w' :
    mercuryapi_set_read_plan_gen2 h ants sess w = (r, w') ->
    reader_live w' = reader_live w /\ reader_connected w' = reader_connected w /\
    reader_region w' = reader_region w /\ tags_in_range w' = tags_in_range w /\
    reader_plan w' h = (if decide (r = MERCURYAPI_OK) then Some ants else reader_plan w h);
  read_frame h bufs lens mx tmo w r bufs' cnt w' :
    mercuryapi_read_epcs h bufs lens mx tmo w = (r, bufs', cnt, w') ->
    reader_live w' = reader_live w /\ reader_connected w' = reader_connected w /\
    reader_region w' = reader_region w /\ reader_plan w' = reader_plan w /\
    tags_in_range w' = tags_in_range w;
  read_count h bufs lens mx tmo w bufs' cnt w' :
    mercuryapi_read_epcs h bufs lens mx tmo w = (MERCURYAPI_OK, bufs', cnt, w') ->
    (0 <= cnt <= mx)%Z;
  read_buffers h bufs lens mx tmo w r bufs' cnt w' :
    mercuryapi_read_epcs h bufs lens mx tmo w = (r, bufs', cnt, w') ->
    length bufs' = length bufs /\
    forall p, reader_plan w h = Some p ->
    Forall2 (read_buffer_ok w p) bufs bufs';
  read_no_plan h bufs lens mx tmo w r bufs' cnt w' :
    mercuryapi_read_epcs h bufs lens mx tmo w = (r, bufs', cnt, w') ->
    reader_plan w h = None -> bufs' = bufs;
  tags_no_nul w a t : t ∈ tags_in_range w a -> no_nul t;
  disconnect_spec h w :
    reader_live (mercuryapi_reader_disconnect h w) = reader_live w /\
    reader_connected (mercuryapi_reader_disconnect h w) = reader_connected w ∖ {[h]};
  destroy_spec h w :
    reader_live (mercuryapi_reader_destroy h w) = reader_live w ∖ {[h]} /\
    reader_connected (mercuryapi_reader_destroy h w) = reader_connected w ∖ {[h]};
}.

(** ** The system state and the calls of the node *)

(** The process's rclcpp context: not yet initialised, made valid by
    [rclcpp::init], and invalidated by [rclcpp::shutdown]. *)
Inductive rcl_context :=
  | RclUninitialized
  | RclValid
  | RclShutdown.

#[export] Instance rcl_context_eq_dec : EqDecision rcl_context.
Proof. solve_decision. Defined.

Record sys (W : Type) := mk_sys {
  sys_world : W;
  sys_published : list string;   (** messages on [rfid/tags], oldest first *)
  sys_log : list string;         (** lines logged with [RCLCPP_INFO], oldest first *)
  sys_ctx : rcl_context;         (** the rclcpp context of the process *)
}.
Arguments mk_sys {W} _ _ _ _.
Arguments sys_world {W} _.
Arguments sys_published {W} _.
Arguments sys_log {W} _.
Arguments sys_ctx {W} _.

(** Two systems that differ at most in their rclcpp context. *)
Definition sys_eqv {W} (s1 s2 : sys W) : Prop :=
  sys_world s1 = sys_world s2 /\ sys_published s1 = sys_published s2 /\ sys_log s1 = sys_log s2.

#[export] Instance sys_equiv {W} : Equiv (sys W) := sys_eqv.

Section Calls.
Context `{MercuryApi W}.

Definition set_world (w : W) (s : sys W) : sys W := mk_sys w (sys_published s) (sys_log s) (sys_ctx s).

(** Lift a driver call returning a value and a new world. *)
Definition call {A} (f : W -> A * W) : ST (sys W) A :=
  fun s => let '(a, w') := f (sys_world s) in (Ret a, set_world w' s).

Definition call_ (f : W -> W) : ST (sys W) unit :=
  fun s => (Ret tt, set_world (f (sys_world s)) s).

(** [pub_->publish(msg)]. *)
Definition publish (msg : string) : ST (sys W) unit :=
  fun s => (Ret tt, mk_sys (sys_world s) (sys_published s ++ [msg]) (sys_log s) (sys_ctx s)).

(** [RCLCPP_INFO(get_logger(), ...)]: the formatted message is appended to
    the node's log; the logger's prefix (level, time, node name) is left
    out. *)
Definition rclcpp_info (line : string) : ST (sys W) unit :=
  fun s => (Ret tt, mk_sys (sys_world s) (sys_published s) (sys_log s ++ [line]) (sys_ctx s)).

(** The system with its rclcpp context replaced. *)
Definition set_ctx (c : rcl_context) (s : sys W) : sys W :=
  mk_sys (sys_world s) (sys_published s) (sys_log s) c.

(** A computation of the node that neither reads nor changes the rclcpp
    context: run in any context, it does what it does in [s] and leaves
    the context as it found it. *)
Definition ctx_free {A} (m : ST (sys W) A) : Prop :=
  forall c s, m (set_ctx c s) = (fst (m s), set_ctx c (snd (m s))).

(** A computation that may set the context but does not read it: from
    two systems equal up to their context it has the same outcome and
    ends in systems equal up to their context. *)
Definition ctx_oblivious {A} (m : ST (sys W) A) : Prop :=
  Proper ((≡) ==> prod_relation (=) (≡)) m.

(** The resources held in the driver: allocated and connected handles. *)
Definition resources (s : sys W) : gset reader_handle * gset reader_handle :=
  (reader_live (sys_world s), reader_connected (sys_world s)).
End Calls.

Section CallLemmas.
Context `{MercuryApi W}.

Lemma call_bind_eq {A B} (f : W -> A * W) (k : A -> ST (sys W) B) s a w' :
  f (sys_world s) = (a, w') -> (call f ≫= k) s = k a (set_world w' s).
Proof. intros E. unfold call. st_unfold. by rewrite E. Qed.

Lemma call__bind {B} (f : W -> W) (k : unit -> ST (sys W) B) s :
  (call_ f ≫= k) s = k tt (set_world (f (sys_world s)) s).
Proof. reflexivity. Qed.

Lemma publish_bind {B} msg (k : unit -> ST (sys W) B) s :
  (publish msg ≫= k) s = k tt (mk_sys (sys_world s) (sys_published s ++ [msg]) (sys_log s) (sys_ctx s)).
Proof. reflexivity. Qed.
End CallLemmas.

(** ** The calls of the node leave the rclcpp context alone *)

Create HintDb ctx_free discriminated.
Create HintDb oblivious discriminated.

#[export] Instance sys_equiv_equivalence {W} : Equivalence (≡@{sys W}).
Proof.
  unfold equiv, sys_equiv, sys_eqv.
  split; repeat intro; naive_solver congruence.
Qed.

Section CtxFree.
Context `{MercuryApi W}.

Lemma ctx_free_ret {A} (a : A) : ctx_free (W:=W) (mret a).
Proof. done. Qed.

Lemma ctx_free_lift {A} (o : outcome A) : ctx_free (W:=W) (st_lift o).
Proof. done. Qed.

Lemma ctx_free_throw {A} e : ctx_free (W:=W) (st_throw (A:=A) e).
Proof. done. Qed.

Lemma ctx_free_undefined {A} w : ctx_free (W:=W) (st_undefined (A:=A) w).
Proof. done. Qed.

Lemma ctx_free_call {A} (f : W -> A * W) : ctx_free (call f).
Proof. intros c s. unfold call. cbn. by destruct (f (sys_world s)). Qed.

Lemma ctx_free_call_ (f : W -> W) : ctx_free (call_ f).
Proof. done. Qed.

Lemma ctx_free_publish msg : ctx_free (W:=W) (publish msg).
Proof. done. Qed.

Lemma ctx_free_info line : ctx_free (W:=W) (rclcpp_info line).
Proof. done. Qed.

(** Case analysis on a result of [m] run in [s]. *)
Local Ltac run_ctx Hm c s :=
  intros c s; st_unfold; unfold st_catch, st_finally; rewrite Hm.

Lemma ctx_free_bind {A B} (m : ST (sys W) A) (k : A -> ST (sys W) B) :
  ctx_free m -> (forall a, ctx_free (k a)) -> ctx_free (m ≫= k).
Proof.
  intros Hm Hk. run_ctx Hm c s. destruct (m s) as [[a|e|w] s1]; [apply Hk|done|done].
Qed.

Lemma ctx_free_catch {A} (m : ST (sys W) A) h :
  ctx_free m -> (forall e, ctx_free (h e)) -> ctx_free (st_catch m h).
Proof.
  intros Hm Hh. run_ctx Hm c s. destruct (m s) as [[a|e|w] s1]; [done|apply Hh|done].
Qed.

Lemma ctx_free_finally {A} (m : ST (sys W) A) (f : ST (sys W) unit) :
  ctx_free m -> ctx_free f -> ctx_free (st_finally m f).
Proof.
  intros Hm Hf. run_ctx Hm c s.
  destruct (m s) as [[a|e|w] s1]; cbn; [rewrite Hf..|done];
    by destruct (f s1) as [[]?].
Qed.

Lemma ctx_free_for_each {A} (l : list A) (body : A -> ST (sys W) unit) :
  (forall x, ctx_free (body x)) -> ctx_free (for_each l body).
Proof.
  intros Hb. induction l; cbn; [apply ctx_free_ret|]. by apply ctx_free_bind.
Qed.

Lemma resources_set_ctx c (s : sys W) : resources (set_ctx c s) = resources s.
Proof. done. Qed.

Lemma set_ctx_equiv c (s : sys W) : set_ctx c s ≡ s.
Proof. done. Qed.

(** Setting the context forgets the context it replaces. *)
Lemma set_ctx_proper c (s1 s2 : sys W) : s1 ≡ s2 -> set_ctx c s1 = set_ctx c s2.
Proof. destruct s1, s2. intros (H1 & H2 & H3). cbn in *. by subst. Qed.

Lemma ctx_free_oblivious {A} (m : ST (sys W) A) : ctx_free m -> ctx_oblivious m.
Proof.
  intros Hm s1 s2 Hs.
  assert (E : s2 = set_ctx (sys_ctx s2) s1)
    by (rewrite (set_ctx_proper _ _ _ Hs); by destruct s2).
  rewrite E, Hm. split; [done|]. symmetry. apply set_ctx_equiv.
Qed.

Lemma oblivious_set_ctx c : ctx_oblivious (fun s : sys W => (Ret tt, set_ctx c s)).
Proof. intros s1 s2 Hs. split; [done|]. cbn. by rewrite (set_ctx_proper c _ _ Hs). Qed.

Lemma oblivious_bind {A B} (m : ST (sys W) A) (k : A -> ST (sys W) B) :
  ctx_oblivious m -> (forall a, ctx_oblivious (k a)) -> ctx_oblivious (m ≫= k).
Proof.
  intros Hm Hk s1 s2 Hs. destruct (Hm s1 s2 Hs) as [Ho Hs'].
  st_unfold. destruct (m s1) as [o1 t1], (m s2) as [o2 t2]; cbn in *. subst o2.
  destruct o1; [by apply Hk|done|done].
Qed.

Lemma oblivious_finally {A} (m : ST (sys W) A) (f : ST (sys W) unit) :
  ctx_oblivious m -> ctx_oblivious f -> ctx_oblivious (st_finally m f).
Proof.
  intros Hm Hf s1 s2 Hs. destruct (Hm s1 s2 Hs) as [Ho Hs']. unfold st_finally.
  destruct (m s1) as [o1 t1], (m s2) as [o2 t2]; cbn in *. subst o2.
  destruct (Hf t1 t2 Hs') as [Ho' Hs''].
  destruct (f t1) as [r1 u1], (f t2) as [r2 u2]; cbn in *. subst r2.
  destruct o1; [destruct r1..|done]; done.
Qed.

(** A computation that leaves the context alone keeps it. *)
Lemma ctx_free_keeps {A} (m : ST (sys W) A) s o s' :
  m s = (o, s') -> ctx_free m -> sys_ctx s' = sys_ctx s.
Proof.
  intros E Hm. pose proof (Hm (sys_ctx s) s) as Hs.
  replace (set_ctx (sys_ctx s) s) with s in Hs by (by destruct s).
  rewrite E in Hs. injection Hs as Hs. by rewrite Hs.
Qed.
End CtxFree.

#[export] Hint Resolve ctx_free_ret ctx_free_lift ctx_free_throw ctx_free_undefined
  ctx_free_call ctx_free_call_ ctx_free_publish ctx_free_info : ctx_free.
#[export] Hint Resolve oblivious_set_ctx : oblivious.

(** Prove [ctx_free] of a computation of the node by following its
    structure: binds, [try]/[catch], destructors, range-for loops, and the
    case analyses of its conditions. *)
Ltac ctx_free_solve :=
  repeat first
    [ solve [eauto with ctx_free]
    | apply ctx_free_bind; [|intros ?]
    | apply ctx_free_catch; [|intros ?]
    | apply ctx_free_finally
    | apply ctx_free_for_each; intros ?
    | progress cbv beta zeta
    | match goal with
      | |- ctx_free (if ?b then _ else _) => destruct b
      | |- ctx_free (match ?x with _ => _ end) => destruct x
      end ].

(** One step of a computation that starts with a driver call, naming the
    call's result [a], the new world [w] and the equation [E]. *)
Ltac step_call_as a w E :=
  match goal with
  | |- context [ (call ?f ≫= ?k) ?s ] =>
      destruct (f (sys_world s)) as [a w] eqn:E;
      rewrite (call_bind_eq f k s _ _ E); cbn [sys_world sys_published set_world]
  end.

(** Rewrite the first driver call of the goal with its known result [E]. *)
Ltac rewrite_call E :=
  match goal with
  | |- context [ (call ?f ≫= ?k) ?s ] => rewrite (call_bind_eq f k s _ _ E)
  end.

(** One step of a computation that starts with a driver call. *)
Ltac step_call :=
  match goal with
  | |- context [ (call ?f ≫= ?k) ?s ] =>
      let E := fresh "Ecall" in
      destruct (f (sys_world s)) as [? ?] eqn:E;
      rewrite (call_bind_eq f k s _ _ E); cbn [sys_world sys_published set_world]
  | |- context [ (call_ ?f ≫= ?k) ?s ] =>
      rewrite (call__bind f k s); cbn [sys_world sys_published set_world]
  | |- context [ (publish ?m ≫= ?k) ?s ] =>
      rewrite (publish_bind m k s); cbn [sys_world sys_published set_world]
  end.

(** Prove [ctx_oblivious] of a computation that may set the context:
    binds and destructors are followed, and the parts that leave the
    context alone are [ctx_free]. *)
Ltac oblivious_solve :=
  repeat first
    [ solve [eauto with oblivious]
    | apply ctx_free_oblivious; solve [eauto with ctx_free]
    | apply oblivious_finally
    | apply oblivious_bind; [|intros ?] ].
