(* ===== verification/SimDriver.v ===== *)
(** * SimDriver: a simulated MercuryAPI reader

    An executable instance of [MercuryApi] with injected faults: every call
    of the driver fails when [sim_fail] says so, reads return the EPCs in
    range of the antennas of the current read plan (at most [max] of
    them and at most one per buffer) and report [MERCURYAPI_NO_TAG] when
    there is none.  [sim_laws] proves that it meets [MercuryApiLaws], so the
    node's theorems apply to it; the witnesses and the end-to-end scenarios
    of the spec (section 8) run on it.  Every call is also appended, with
    its arguments, to the trace [sim_trace] ([sim_event]), so that the
    order of the node's driver calls is observable. *)

From S2P Require Import Prelude Driver.

Inductive sim_call :=
  | CallCreate
  | CallConnect
  | CallRegion
  | CallPlan (ants : list Z)
  | CallRead (plan : list Z).

#[export] Instance sim_call_eq_dec : EqDecision sim_call.
Proof. solve_decision. Defined.

(** The calls the simulated driver receives, with their arguments. *)
Inductive sim_event :=
  | EvCreate
  | EvConnect (h : nat) (uri : string)
  | EvRegion (h : nat) (rg : mercuryapi_region_t)
  | EvPlan (h : nat) (ants : list Z) (sess : Z)
  | EvRead (h : nat) (mx tmo : Z)
  | EvDisconnect (h : nat)
  | EvDestroy (h : nat).

#[export] Instance sim_event_eq_dec : EqDecision sim_event.
Proof. solve_decision. Defined.

Record sim_world := mk_sim {
  sim_live : gset nat;
  sim_conn : gset nat;
  sim_region : gmap nat mercuryapi_region_t;
  sim_plan : gmap nat (list Z);
  sim_field : Z -> list string;       (** tags physically in range of an antenna *)
  sim_fail : sim_call -> bool;        (** which calls fail *)
  sim_trace : list sim_event;         (** the calls received, oldest first *)
}.

Definition sim_init (field : Z -> list string) (fail : sim_call -> bool) : sim_world :=
  mk_sim ∅ ∅ ∅ ∅ field fail [].

Definition sim_tags (w : sim_world) (a : Z) : list string := filter no_nul (sim_field w a).

Definition sim_set_live (l : gset nat) (w : sim_world) : sim_world :=
  mk_sim l (sim_conn w) (sim_region w) (sim_plan w) (sim_field w) (sim_fail w) (sim_trace w).
Definition sim_set_conn (c : gset nat) (w : sim_world) : sim_world :=
  mk_sim (sim_live w) c (sim_region w) (sim_plan w) (sim_field w) (sim_fail w) (sim_trace w).
Definition sim_set_region (r : gmap nat mercuryapi_region_t) (w : sim_world) : sim_world :=
  mk_sim (sim_live w) (sim_conn w) r (sim_plan w) (sim_field w) (sim_fail w) (sim_trace w).
Definition sim_set_plan (p : gmap nat (list Z)) (w : sim_world) : sim_world :=
  mk_sim (sim_live w) (sim_conn w) (sim_region w) p (sim_field w) (sim_fail w) (sim_trace w).

Definition sim_record (e : sim_event) (w : sim_world) : sim_world :=
  mk_sim (sim_live w) (sim_conn w) (sim_region w) (sim_plan w) (sim_field w) (sim_fail w)
    (sim_trace w ++ [e]).

Definition sim_create (w0 : sim_world) : mercuryapi_result_t * option nat * sim_world :=
  let w := sim_record EvCreate w0 in
  if sim_fail w CallCreate then (MERCURYAPI_ERROR 1, None, w)
  else let h := fresh (sim_live w) in
       (MERCURYAPI_OK, Some h, sim_set_live ({[h]} ∪ sim_live w) w).

Definition sim_connect (h : nat) (uri : string) (w0 : sim_world) : mercuryapi_result_t * sim_world :=
  let w := sim_record (EvConnect h uri) w0 in
  if sim_fail w CallConnect then (MERCURYAPI_ERROR 2, w)
  else (MERCURYAPI_OK, sim_set_conn ({[h]} ∪ sim_conn w) w).

Definition sim_set_region_enum (h : nat) (rg : mercuryapi_region_t) (w0 : sim_world)
    : mercuryapi_result_t * sim_world :=
  let w := sim_record (EvRegion h rg) w0 in
  if sim_fail w CallRegion then (MERCURYAPI_ERROR 3, w)
  else (MERCURYAPI_OK, sim_set_region (<[h:=rg]> (sim_region w)) w).

Definition sim_set_read_plan (h : nat) (ants : list Z) (sess : Z) (w0 : sim_world)
    : mercuryapi_result_t * sim_world :=
  let w := sim_record (EvPlan h ants sess) w0 in
  if sim_fail w (CallPlan ants) then (MERCURYAPI_ERROR 4, w)
  else (MERCURYAPI_OK, sim_set_plan (<[h:=ants]> (sim_plan w)) w).

(** The driver copies the [i]-th EPC into the [i]-th buffer. *)
Fixpoint fill_buffers (ts : list string) (bufs : list (list ascii)) : list (list ascii) :=
  match ts, bufs with
  | t :: ts', b :: bs => write_cstr b t :: fill_buffers ts' bs
  | _, _ => bufs
  end.

Definition sim_read_epcs (h : nat) (bufs : list (list ascii)) (lens : list Z) (mx tmo : Z)
    (w0 : sim_world) : mercuryapi_result_t * list (list ascii) * Z * sim_world :=
  let w := sim_record (EvRead h mx tmo) w0 in
  match sim_plan w !! h with
  | None => (MERCURYAPI_ERROR 5, bufs, 0%Z, w)
  | Some p =>
      if sim_fail w (CallRead p) then (MERCURYAPI_ERROR 6, bufs, 0%Z, w)
      else
        let tags := p ≫= sim_tags w in
        let k := Nat.min (length tags) (Nat.min (Z.to_nat mx) (length bufs)) in
        if decide (k = O) then (MERCURYAPI_NO_TAG, bufs, 0%Z, w)
        else (MERCURYAPI_OK, fill_buffers (take k tags) bufs, Z.of_nat k, w)
  end.

Definition sim_disconnect (h : nat) (w0 : sim_world) : sim_world :=
  let w := sim_record (EvDisconnect h) w0 in
  sim_set_conn (sim_conn w ∖ {[h]}) w.

Definition sim_destroy (h : nat) (w0 : sim_world) : sim_world :=
  let w := sim_record (EvDestroy h) w0 in
  sim_set_plan (delete h (sim_plan w)) (sim_set_region (delete h (sim_region w))
    (sim_set_conn (sim_conn w ∖ {[h]}) (sim_set_live (sim_live w ∖ {[h]}) w))).

#[export] Instance sim_api : MercuryApi sim_world := {|
  mercuryapi_reader_create := sim_create;
  mercuryapi_reader_connect := sim_connect;
  mercuryapi_reader_set_region_enum := sim_set_region_enum;
  mercuryapi_set_read_plan_gen2 := sim_set_read_plan;
  mercuryapi_read_epcs := sim_read_epcs;
  mercuryapi_reader_disconnect := sim_disconnect;
  mercuryapi_reader_destroy := sim_destroy;
  reader_live := sim_live;
  reader_connected := sim_conn;
  reader_region w h := sim_region w !! h;
  reader_plan w h := sim_plan w !! h;
  tags_in_range := sim_tags;
|}.

(** A faulty driver, outside the contract: a successful read reports
    one tag more than it wrote.  The node has no defence against it. *)
Definition sim_overreport_read_epcs (h : nat) (bufs : list (list ascii)) (lens : list Z)
    (mx tmo : Z) (w : sim_world) : mercuryapi_result_t * list (list ascii) * Z * sim_world :=
  match sim_read_epcs h bufs lens mx tmo w with
  | (MERCURYAPI_OK, bufs', k, w') => (MERCURYAPI_OK, bufs', (k + 1)%Z, w')
  | r => r
  end.

Definition sim_overreport_api : MercuryApi sim_world := {|
  mercuryapi_reader_create := sim_create;
  mercuryapi_reader_connect := sim_connect;
  mercuryapi_reader_set_region_enum := sim_set_region_enum;
  mercuryapi_set_read_plan_gen2 := sim_set_read_plan;
  mercuryapi_read_epcs := sim_overreport_read_epcs;
  mercuryapi_reader_disconnect := sim_disconnect;
  mercuryapi_reader_destroy := sim_destroy;
  reader_live := sim_live;
  reader_connected := sim_conn;
  reader_region w h := sim_region w !! h;
  reader_plan w h := sim_plan w !! h;
  tags_in_range := sim_tags;
|}.

(** ** Concrete worlds for the scenarios *)

(** No call fails. *)
Definition no_faults : sim_call -> bool := fun _ => false.

(** Exactly the calls [c] fail. *)
Definition fail_on (cs : list sim_call) : sim_call -> bool := fun c => bool_decide (c ∈ cs).

(** Antenna 1 sees E1 and E2, antenna 2 sees E3. *)
Definition field_demo (a : Z) : list string :=
  if decide (a = 1%Z) then ["E1"; "E2"]%string
  else if decide (a = 2%Z) then ["E3"]%string else [].

(** Spec scenario 1: antenna 1 sees E1 and E2, antenna 2 sees nothing. *)
Definition field_scenario1 (a : Z) : list string :=
  if decide (a = 1%Z) then ["E1"; "E2"]%string else [].

(** Spec scenario 3: antenna 1 sees three tags. *)
Definition field_saturated (a : Z) : list string :=
  if decide (a = 1%Z) then ["E1"; "E2"; "E4"]%string else [].

Definition sys_of (w : sim_world) : sys sim_world := mk_sys w [] [] RclUninitialized.

(** A fresh system with the demo field, failing exactly the calls [cs]. *)
Definition sys_fail (cs : list sim_call) : sys sim_world :=
  sys_of (sim_init field_demo (fail_on cs)).

(** A system whose reader 0 is allocated, connected, in region KR2 and
    planned on antennas 1 and 2, as after a successful construction. *)
Definition sys_ready (field : Z -> list string) (fail : sim_call -> bool) : sys sim_world :=
  mk_sys (mk_sim {[0]} {[0]} {[0 := MERCURYAPI_REGION_KR2]} {[0 := [1; 2]%Z]} field fail []) [] [] RclValid.

(** ** The simulated reader meets the driver contract *)

Lemma fill_buffers_length ts bufs : length (fill_buffers ts bufs) = length bufs.
Proof.
  revert bufs. induction ts as [|t ts IH]; intros [|b bs]; simpl; auto.
Qed.

Lemma fill_buffers_ok (w : sim_world) p ts bufs :
  (forall t, t ∈ ts -> exists a, a ∈ p /\ t ∈ sim_tags w a) ->
  Forall2 (read_buffer_ok w p) bufs (fill_buffers ts bufs).
Proof.
  revert bufs. induction ts as [|t ts IH]; intros [|b bs] Hts; simpl.
  - constructor.
  - apply Forall2_same_length_lookup. split; [done|]. intros. left. congruence.
  - constructor.
  - constructor.
    + right. destruct (Hts t) as (a & ? & ?); [set_solver|]. by exists a, t.
    + apply IH. intros t' ?. apply Hts. set_solver.
Qed.

Lemma sim_laws : MercuryApiLaws sim_world.
Proof.
  split; cbn.
  - unfold sim_create. intros w h w'. case_match; intros; simplify_eq/=.
    split_and!; [apply is_fresh|done|done].
  - unfold sim_create. intros w r oh w'.
    case_match; intros E Hr; injection E as <- <- <-; [done|].
    by destruct Hr.
  - unfold sim_connect. intros. case_match; simplify_eq/=; by rewrite ?decide_True.
  - unfold sim_set_region_enum. intros. case_match; simplify_eq/=; [done|].
    split_and!; [done|done|]. intros _. apply lookup_insert_eq.
  - unfold sim_set_read_plan. intros. case_match; simplify_eq/=; [done|].
    split_and!; [done|done|done|done|]. apply lookup_insert_eq.
  - unfold sim_read_epcs. intros. repeat case_match; simplify_eq/=; done.
  - unfold sim_read_epcs. intros. repeat case_match; simplify_eq/=. lia.
  - unfold sim_read_epcs. intros h bufs lens mx tmo w r bufs' cnt w'.
    destruct (sim_plan w !! h) as [p|] eqn:Hp; intros; repeat case_match; simplify_eq/=;
      rewrite ?fill_buffers_length; split; try done; intros p' Hp'; simplify_eq;
      try (apply Forall2_same_length_lookup; split; [done|]; intros; left; congruence).
    apply fill_buffers_ok. intros t Ht%elem_of_take.
    destruct Ht as (i & Hi & _). apply list_elem_of_lookup_2, list_elem_of_bind in Hi.
    naive_solver.
  - unfold sim_read_epcs. intros h bufs lens mx tmo w r bufs' cnt w' E Hp.
    cbn in E. rewrite Hp in E. by simplify_eq.
  - intros w a t. unfold sim_tags. by intros [? _]%list_elem_of_filter.
  - done.
  - done.
Qed.

#[export] Existing Instance sim_laws.
