(* ===== verification/Config.v ===== *)
(** * Config: the node's parameters and members

    Lines 23-35 of [rfid_tmreader_node.cpp]: five parameters are declared
    with defaults, read back with [as_string()] / [as_int()] and stored in
    the [int] members of the node (lines 116-126).  Launch-time overrides
    are a map from parameter names to values; an override of the wrong
    type makes [declare_parameter] throw (rclcpp's
    [InvalidParameterTypeException], a [std::runtime_error]).  [as_int()]
    yields an [int64_t]; storing it in an [int] keeps its low 32 bits
    ([int32_wrap]), so no range is checked. *)

From S2P Require Import Prelude Driver.

(** The parameter values the node can be given. *)
Inductive parameter_value :=
  | PString (s : string)
  | PInt (z : Z).          (** an [int64_t] *)

Abbreviation overrides := (gmap string parameter_value) (only parsing).

(** What the constructor reads at lines 29-33, at parameter width. *)
Record node_params := mk_params {
  param_uri : string;
  param_timeout_ms : Z;
  param_loop_sleep_ms : Z;
  param_max_tags : Z;
  param_epc_buf_size : Z;
}.

(** The members of [RfidTmreaderNode] (lines 116-126).  [pub_] and
    [timer_] are represented by the topic and the timer period they were
    created with. *)
Record RfidTmreaderNode := mk_node {
  pub_ : option (string * Z);
  timer_ : option Z;
  reader_ : option reader_handle;
  timeout_ms_ : Z;
  loop_sleep_ms_ : Z;
  max_tags_ : Z;
  epc_buf_size_ : Z;
  ants_ : list Z;
}.

(** The in-class member initialisers of lines 116-126. *)
Definition node_members_init : RfidTmreaderNode :=
  mk_node None None None 200 100 64 256 [].

Section Parameters.
Context {S : Type}.

Definition invalid_parameter_type (name : string) : cpp_exception :=
  runtime_error ("parameter '" +:+ name +:+ "' has invalid type")%string.

(** [declare_parameter<std::string>(name, dflt)] then
    [get_parameter(name).as_string()]. *)
Definition declare_string_parameter (ovr : overrides) (name dflt : string) : ST S string :=
  match ovr !! name with
  | None => mret dflt
  | Some (PString v) => mret v
  | Some _ => st_throw (invalid_parameter_type name)
  end.

(** [declare_parameter<int>(name, dflt)] then [get_parameter(name).as_int()]. *)
Definition declare_int_parameter (ovr : overrides) (name : string) (dflt : Z) : ST S Z :=
  match ovr !! name with
  | None => mret dflt
  | Some (PInt v) => mret v
  | Some _ => st_throw (invalid_parameter_type name)
  end.

(** Lines 23-33: every parameter is declared before any is read, so a
    bad override of any of them throws before the first read. *)
Definition load_parameters (ovr : overrides) : ST S node_params :=
  uri ← declare_string_parameter ovr "uri" "tmr:///dev/ttyUSB0";
  tmo ← declare_int_parameter ovr "timeout_ms" 200;
  slp ← declare_int_parameter ovr "loop_sleep_ms" 100;
  mx ← declare_int_parameter ovr "max_tags" 64;
  ebs ← declare_int_parameter ovr "epc_buf_size" 256;
  mret (mk_params uri tmo slp mx ebs).
End Parameters.

(** The value an [int] parameter resolves to: its override when it has
    one, its default otherwise. *)
Definition resolved_int (ovr : overrides) (name : string) (dflt : Z) : Z :=
  match ovr !! name with
  | Some (PInt v) => v
  | _ => dflt
  end.

(** The parameters of lines 23-27, in declaration order. *)
Definition declared_parameters : list string :=
  ["uri"; "timeout_ms"; "loop_sleep_ms"; "max_tags"; "epc_buf_size"]%string.

(** An override [declare_parameter] rejects: ["uri"] is a string, the
    others are integers. *)
Definition parameter_ill_typed (ovr : overrides) (name : string) : bool :=
  match ovr !! name with
  | Some (PString _) => negb (bool_decide (name = "uri"%string))
  | Some (PInt _) => bool_decide (name = "uri"%string)
  | None => false
  end.

(** The value the string parameter resolves to. *)
Definition resolved_string (ovr : overrides) (name dflt : string) : string :=
  match ovr !! name with
  | Some (PString v) => v
  | _ => dflt
  end.

(** Lines 30-33: the [int64_t] values are assigned to [int] members. *)
Definition store_parameters (p : node_params) (n : RfidTmreaderNode) : RfidTmreaderNode :=
  mk_node (pub_ n) (timer_ n) (reader_ n)
    (int32_wrap (param_timeout_ms p)) (int32_wrap (param_loop_sleep_ms p))
    (int32_wrap (param_max_tags p)) (int32_wrap (param_epc_buf_size p)) (ants_ n).

(** Member updates used by the constructor and the destructor. *)
Definition set_pub (topic : string) (depth : Z) (n : RfidTmreaderNode) : RfidTmreaderNode :=
  mk_node (Some (topic, depth)) (timer_ n) (reader_ n) (timeout_ms_ n) (loop_sleep_ms_ n)
    (max_tags_ n) (epc_buf_size_ n) (ants_ n).
Definition set_timer (period : Z) (n : RfidTmreaderNode) : RfidTmreaderNode :=
  mk_node (pub_ n) (Some period) (reader_ n) (timeout_ms_ n) (loop_sleep_ms_ n)
    (max_tags_ n) (epc_buf_size_ n) (ants_ n).
Definition set_reader (r : option reader_handle) (n : RfidTmreaderNode) : RfidTmreaderNode :=
  mk_node (pub_ n) (timer_ n) r (timeout_ms_ n) (loop_sleep_ms_ n)
    (max_tags_ n) (epc_buf_size_ n) (ants_ n).
Definition set_ants (l : list Z) (n : RfidTmreaderNode) : RfidTmreaderNode :=
  mk_node (pub_ n) (timer_ n) (reader_ n) (timeout_ms_ n) (loop_sleep_ms_ n)
    (max_tags_ n) (epc_buf_size_ n) l.

(** ** Concrete nodes *)

(** The node the constructor builds with the default parameters when the
    driver hands out reader 0. *)
Definition demo_node : RfidTmreaderNode :=
  mk_node (Some ("rfid/tags", 10%Z)) (Some 100%Z) (Some 0) 200 100 64 256 [1; 2]%Z.

(** A node on reader 0 with room for two tags of up to seven characters. *)
Definition small_node (max_tags epc_buf_size : Z) : RfidTmreaderNode :=
  mk_node (Some ("rfid/tags", 10%Z)) (Some 100%Z) (Some 0) 200 100 max_tags epc_buf_size [1; 2]%Z.

(** ** Lemmas *)

(** [load_parameters] throws for the first declared parameter whose
    override has the wrong type, and succeeds without touching the state
    when there is none. *)
Lemma load_parameters_type_check {S} ovr (s : S) :
  match find (parameter_ill_typed ovr) declared_parameters with
  | Some name => load_parameters ovr s = (Throw (invalid_parameter_type name), s)
  | None => exists p, load_parameters ovr s = (Ret p, s)
  end.
Proof.
  unfold load_parameters, declare_string_parameter, declare_int_parameter,
    parameter_ill_typed. cbn [find declared_parameters].
  repeat (case_match; simplify_eq/=); eauto.
Qed.

