(* ===== verification/Startup.v ===== *)
(** * Startup: the constructor and the destructor of [RfidTmreaderNode]

    [RfidTmreaderNode_ctor] is the constructor (lines 20-71): parameters,
    publisher, then the four reader steps create, connect, set region
    ([MERCURYAPI_REGION_KR2]) and set the read plan to antennas [1; 2], each
    of which unwinds what the earlier ones acquired before throwing, then
    the wall timer.  A C++ object whose constructor throws is never
    destroyed, so only the explicit unwinding releases the reader.
    [RfidTmreaderNode_dtor] is the destructor (lines 73-80).

    The theorems: a constructed node holds a live, connected reader with
    region and plan set; a failure of any reader step leaves the driver's
    resources as they were; a failure of the timer (a negative
    [loop_sleep_ms]) leaks the connected reader; the destructor releases
    the reader and is idempotent; construction then destruction restores
    the resources; the [int] members are the parameters narrowed to 32
    bits; a mistyped parameter override throws before any other effect,
    and well-typed overrides always load; the start line is logged
    exactly when construction succeeds. *)

From S2P Require Import Prelude Driver SimDriver Config.
Local Open Scope rfid_scope.

(** [create_wall_timer(std::chrono::milliseconds(ms), cb)]: rclcpp converts
    the period to nanoseconds and rejects a negative one. *)
Definition create_wall_timer {S} (ms : Z) : ST S Z :=
  if decide (ms < 0)%Z
  then throw (invalid_argument "timer period cannot be negative")
  else mret ms.

(** Line 70: the message of [RCLCPP_INFO(..., "RFID node started. uri=%s", uri.c_str())]. *)
Definition startup_log_line (uri : string) : string := "RFID node started. uri=" +:+ uri.

Section Startup.
Context `{MercuryApi W}.

(** [mercuryapi_reader_disconnect(reader_); mercuryapi_reader_destroy(reader_);] *)
Definition reader_teardown (h : reader_handle) : ST (sys W) unit :=
  call_ (mercuryapi_reader_disconnect h) ;; call_ (mercuryapi_reader_destroy h).

Definition RfidTmreaderNode_ctor (ovr : overrides) : ST (sys W) RfidTmreaderNode :=
  p ← load_parameters ovr;
  let n := set_pub "rfid/tags" 10 (store_parameters p node_members_init) in
  '(rc, rd) ← call mercuryapi_reader_create;
  match rc, rd with
  | MERCURYAPI_OK, Some h =>
      rc ← call (mercuryapi_reader_connect h (param_uri p));
      if decide (rc <> MERCURYAPI_OK) then
        (call_ (mercuryapi_reader_destroy h) ;;
         throw (runtime_error "mercuryapi_reader_connect failed"))
      else
      rc ← call (mercuryapi_reader_set_region_enum h MERCURYAPI_REGION_KR2);
      if decide (rc <> MERCURYAPI_OK) then
        (reader_teardown h ;;
         throw (runtime_error "mercuryapi_reader_set_region_enum failed"))
      else
      let ants := [1; 2]%Z in
      rc ← call (mercuryapi_set_read_plan_gen2 h ants (-1));
      if decide (rc <> MERCURYAPI_OK) then
        (reader_teardown h ;;
         throw (runtime_error "mercuryapi_set_read_plan_gen2 failed"))
      else
      period ← create_wall_timer (loop_sleep_ms_ n);
      rclcpp_info (startup_log_line (param_uri p)) ;;
      mret (set_timer period (set_ants ants (set_reader (Some h) n)))
  | _, _ => throw (runtime_error "mercuryapi_reader_create failed")
  end.

Definition RfidTmreaderNode_dtor (n : RfidTmreaderNode) : ST (sys W) RfidTmreaderNode :=
  match reader_ n with
  | Some h => reader_teardown h ;; mret (set_reader None n)
  | None => mret n
  end.

(** The world is well formed when every connection belongs to an
    allocated handle. *)
Definition world_wf (s : sys W) : Prop :=
  reader_connected (sys_world s) ⊆ reader_live (sys_world s).

(** The node's invariant on its reader: null, or allocated, connected,
    in region KR2 and with a read plan. *)
Definition node_reader_ok (n : RfidTmreaderNode) (s : sys W) : Prop :=
  match reader_ n with
  | None => True
  | Some h => h ∈ reader_live (sys_world s) /\ h ∈ reader_connected (sys_world s) /\
              reader_region (sys_world s) h = Some MERCURYAPI_REGION_KR2 /\
              is_Some (reader_plan (sys_world s) h)
  end.

Definition ctor_reader_errors : list string :=
  ["mercuryapi_reader_create failed"; "mercuryapi_reader_connect failed";
   "mercuryapi_reader_set_region_enum failed"; "mercuryapi_set_read_plan_gen2 failed"]%string.

(** The abstract specification of the constructor, one rule per way it
    can end (spec sections 4.1 and 7). *)
Inductive ctor_spec (ovr : overrides) (s : sys W) : outcome RfidTmreaderNode -> sys W -> Prop :=
  | ctor_spec_param_error name :
      ctor_spec ovr s (Throw (invalid_parameter_type name)) s
  | ctor_spec_reader_error what s' :
      what ∈ ctor_reader_errors ->
      resources s' = resources s -> sys_published s' = sys_published s ->
      sys_log s' = sys_log s ->
      ctor_spec ovr s (Throw (runtime_error what)) s'
  | ctor_spec_timer_error h s' :
      (int32_wrap (resolved_int ovr "loop_sleep_ms" 100) < 0)%Z ->
      h ∉ reader_live (sys_world s) ->
      resources s' = ({[h]} ∪ reader_live (sys_world s), {[h]} ∪ reader_connected (sys_world s)) ->
      sys_published s' = sys_published s -> sys_log s' = sys_log s ->
      ctor_spec ovr s (Throw (invalid_argument "timer period cannot be negative")) s'
  | ctor_spec_ok n h s' :
      reader_ n = Some h -> h ∉ reader_live (sys_world s) -> node_reader_ok n s' ->
      reader_plan (sys_world s') h = Some [1; 2]%Z -> ants_ n = [1; 2]%Z ->
      timer_ n = Some (loop_sleep_ms_ n) -> (0 <= loop_sleep_ms_ n)%Z ->
      resources s' = ({[h]} ∪ reader_live (sys_world s), {[h]} ∪ reader_connected (sys_world s)) ->
      sys_published s' = sys_published s ->
      timeout_ms_ n = int32_wrap (resolved_int ovr "timeout_ms" 200) ->
      loop_sleep_ms_ n = int32_wrap (resolved_int ovr "loop_sleep_ms" 100) ->
      max_tags_ n = int32_wrap (resolved_int ovr "max_tags" 64) ->
      epc_buf_size_ n = int32_wrap (resolved_int ovr "epc_buf_size" 256) ->
      sys_log s' = sys_log s ++ [startup_log_line (resolved_string ovr "uri" "tmr:///dev/ttyUSB0")] ->
      ctor_spec ovr s (Ret n) s'.
End Startup.

Section StartupProofs.
Context `{MercuryApiLaws W}.

Lemma union_diff_fresh (h : reader_handle) (X : gset reader_handle) :
  h ∉ X -> ({[h]} ∪ X) ∖ {[h]} = X.
Proof. intros. set_solver. Qed.

Lemma diff_fresh (h : reader_handle) (X : gset reader_handle) :
  h ∉ X -> X ∖ {[h]} = X.
Proof. intros. set_solver. Qed.

Lemma reader_errors_elem what : what ∈ ctor_reader_errors <->
  what = "mercuryapi_reader_create failed"%string \/
  what = "mercuryapi_reader_connect failed"%string \/
  what = "mercuryapi_reader_set_region_enum failed"%string \/
  what = "mercuryapi_set_read_plan_gen2 failed"%string.
Proof. unfold ctor_reader_errors. rewrite !elem_of_cons, elem_of_nil. tauto. Qed.

Lemma reader_teardown_bind {B} h (k : unit -> ST (sys W) B) s :
  (reader_teardown h ≫= k) s =
  k tt (set_world (mercuryapi_reader_destroy h (mercuryapi_reader_disconnect h (sys_world s))) s).
Proof. reflexivity. Qed.

Lemma reader_teardown_spec h w :
  reader_live (mercuryapi_reader_destroy h (mercuryapi_reader_disconnect h w)) =
    reader_live w ∖ {[h]} /\
  reader_connected (mercuryapi_reader_destroy h (mercuryapi_reader_disconnect h w)) =
    reader_connected w ∖ {[h]}.
Proof.
  destruct (disconnect_spec h w) as [Hl Hc], (destroy_spec h (mercuryapi_reader_disconnect h w)) as [Hl' Hc'].
  rewrite Hl', Hc', Hl, Hc. split; [done|]. set_solver.
Qed.

Lemma load_parameters_run ovr (s : sys W) :
  (exists p, load_parameters ovr s = (Ret p, s) /\
     param_uri p = resolved_string ovr "uri" "tmr:///dev/ttyUSB0" /\
     param_timeout_ms p = resolved_int ovr "timeout_ms" 200 /\
     param_loop_sleep_ms p = resolved_int ovr "loop_sleep_ms" 100 /\
     param_max_tags p = resolved_int ovr "max_tags" 64 /\
     param_epc_buf_size p = resolved_int ovr "epc_buf_size" 256) \/
  (exists name, load_parameters ovr s = (Throw (invalid_parameter_type name), s)).
Proof.
  unfold load_parameters, declare_string_parameter, declare_int_parameter.
  st_unfold. unfold resolved_int, resolved_string.
  repeat (case_match; simplify_eq/=); eauto 10.
Qed.

(** A reader step failed and everything acquired was given back. *)
Lemma ctor_spec_unwound ovr (s s1 : sys W) w what :
  what ∈ ctor_reader_errors ->
  sys_published s1 = sys_published s -> sys_log s1 = sys_log s ->
  reader_live w = reader_live (sys_world s) -> reader_connected w = reader_connected (sys_world s) ->
  ctor_spec ovr s (Throw (runtime_error what)) (set_world w s1).
Proof. intros Hw Hp Hg Hl Hc. constructor; [done| |done|done]. unfold resources; cbn. by rewrite Hl, Hc. Qed.

(** Lines 51-52 after a failure of the region or of the read plan: the
    teardown gives back the fresh, connected reader. *)
Lemma ctor_spec_torn_down ovr (s s1 : sys W) h w what :
  what ∈ ctor_reader_errors -> world_wf s -> h ∉ reader_live (sys_world s) ->
  sys_published s1 = sys_published s -> sys_log s1 = sys_log s ->
  reader_live w = {[h]} ∪ reader_live (sys_world s) ->
  reader_connected w = {[h]} ∪ reader_connected (sys_world s) ->
  ctor_spec ovr s (Throw (runtime_error what))
    (set_world (mercuryapi_reader_destroy h (mercuryapi_reader_disconnect h w)) s1).
Proof.
  intros Hw Hwf Hh Hp Hg Hl Hc. destruct (reader_teardown_spec h w) as [Hl' Hc'].
  apply ctor_spec_unwound; [done|done|done|rewrite Hl', Hl|rewrite Hc', Hc];
    apply union_diff_fresh; [done|unfold world_wf in Hwf; set_solver].
Qed.

Lemma ctor_refines_spec ovr (s : sys W) o s' :
  world_wf s -> RfidTmreaderNode_ctor ovr s = (o, s') -> ctor_spec ovr s o s'.
Proof.
  intros Hwf. unfold RfidTmreaderNode_ctor.
  destruct (load_parameters_run ovr s) as [(p & Ep & Hq0 & Hq1 & Hq2 & Hq3 & Hq4)|[name Ep]];
    [rewrite (st_bind_Ret _ _ _ _ _ Ep) | rewrite (st_bind_Throw _ _ _ _ _ Ep);
     intros [= <- <-]; constructor].
  step_call_as p0 w1 E1. destruct p0 as [rc rd].
  destruct (decide (rc = MERCURYAPI_OK /\ is_Some rd)) as [[-> [h ->]]|Hfail].
  2:{ destruct (create_fail _ _ _ _ E1) as [Hl Hc].
      { destruct rc, rd; naive_solver. }
      destruct rc, rd; try (intros [= <- <-]; constructor;
        [set_solver|unfold resources; cbn; by rewrite Hl, Hc|done|done]).
      naive_solver. }
  destruct (create_ok _ _ _ E1) as (Hfresh & Hl1 & Hc1).
  assert (Hhc : h ∉ reader_connected (sys_world s)) by (unfold world_wf in Hwf; set_solver).
  step_call_as rc1 w2 E2.
  destruct (connect_spec _ _ _ _ _ E2) as [Hl2 Hc2]. cbn in Hl2, Hc2.
  destruct (decide (rc1 = MERCURYAPI_OK)) as [->|Hrc1]; cycle 1.
  { rewrite decide_True by done. step_call. intros [= <- <-].
    destruct (destroy_spec h w2) as [Hl3 Hc3].
    apply ctor_spec_unwound; [apply reader_errors_elem; tauto|done|done|..];
      rewrite ?Hl3, ?Hc3, ?Hl2, ?Hc2, ?Hl1, ?Hc1; [by apply union_diff_fresh|by apply diff_fresh]. }
  rewrite decide_False by tauto. rewrite Hl1 in Hl2. rewrite Hc1 in Hc2.
  (* From here on the world holds the fresh, connected reader [h]. *)
  step_call_as rc2 w3 E3. destruct (set_region_spec _ _ _ _ _ E3) as (Hl3 & Hc3 & Hr3).
  cbn in Hl3, Hc3, Hr3. rewrite Hl2 in Hl3. rewrite Hc2 in Hc3.
  destruct (decide (rc2 = MERCURYAPI_OK)) as [->|Hrc2]; cycle 1.
  { rewrite decide_True by done. rewrite reader_teardown_bind. intros [= <- <-].
    by apply ctor_spec_torn_down; [apply reader_errors_elem; tauto|..]. }
  rewrite decide_False by tauto. specialize (Hr3 eq_refl).
  step_call_as rc3 w4 E4. destruct (set_plan_spec _ _ _ _ _ _ E4) as (Hl4 & Hc4 & Hg4 & _ & Hp4).
  cbn in Hl4, Hc4, Hg4, Hp4. rewrite Hl3 in Hl4. rewrite Hc3 in Hc4.
  destruct (decide (rc3 = MERCURYAPI_OK)) as [->|Hrc3]; cycle 1.
  { rewrite decide_True by done. rewrite reader_teardown_bind. intros [= <- <-].
    by apply ctor_spec_torn_down; [apply reader_errors_elem; tauto|..]. }
  rewrite decide_False by tauto. unfold create_wall_timer. cbn. case_decide as Hneg;
    intros [= <- <-]; [econstructor; [cbn in Hneg; congruence|done| |done|done]
                      |eapply ctor_spec_ok with h; cbn; try done; try congruence; [|lia|]];
    unfold resources, node_reader_ok; cbn; rewrite ?Hl4, ?Hc4, ?Hg4, ?Hp4; [done| |done].
  split_and!; [set_solver|set_solver|done|by eexists].
Qed.

(** C11: a constructor that throws a [std::runtime_error] (a bad
    parameter, or a failure of create, connect, set-region or
    set-read-plan) leaves the driver's allocated and connected handles
    exactly as they were: every step unwinds what the earlier ones
    acquired, and nothing is published. *)
Theorem ctor_runtime_error_no_leak ovr (s : sys W) what s' :
  world_wf s ->
  RfidTmreaderNode_ctor ovr s = (Throw (runtime_error what), s') ->
  resources s' = resources s /\ sys_published s' = sys_published s.
Proof.
  intros Hwf E. apply ctor_refines_spec in E; [|done].
  inversion E; subst; auto.
Qed.

(** C30: parameters that are well typed always load: when no declared
    parameter has an override of the wrong type, [load_parameters]
    returns without effect the resolved values, the override when there
    is one and the default of lines 23-27 otherwise. *)
Theorem load_parameters_well_typed ovr (s : sys W) :
  find (parameter_ill_typed ovr) declared_parameters = None ->
  exists p, load_parameters ovr s = (Ret p, s) /\
    param_uri p = resolved_string ovr "uri" "tmr:///dev/ttyUSB0" /\
    param_timeout_ms p = resolved_int ovr "timeout_ms" 200 /\
    param_loop_sleep_ms p = resolved_int ovr "loop_sleep_ms" 100 /\
    param_max_tags p = resolved_int ovr "max_tags" 64 /\
    param_epc_buf_size p = resolved_int ovr "epc_buf_size" 256.
Proof.
  intros Hf. pose proof (load_parameters_type_check ovr s) as Hl. rewrite Hf in Hl.
  destruct (load_parameters_run ovr s) as [Hok|[name Hn]]; [done|].
  destruct Hl as [p Hp]. congruence.
Qed.

(** C29: an override of the wrong type for one of the five declared
    parameters makes the constructor throw, naming the first such
    parameter in declaration order, before any publisher or reader call:
    the system is left exactly as it was. *)
Theorem ctor_parameter_type_error ovr (s : sys W) name :
  find (parameter_ill_typed ovr) declared_parameters = Some name ->
  RfidTmreaderNode_ctor ovr s = (Throw (invalid_parameter_type name), s).
Proof.
  intros Hf. pose proof (load_parameters_type_check ovr s) as Hl. rewrite Hf in Hl.
  unfold RfidTmreaderNode_ctor. by rewrite (st_bind_Throw _ _ _ _ _ Hl).
Qed.

(** C32: the constructor logs exactly one line, ["RFID node started.
    uri=<uri>"] with the resolved [uri], and only when it succeeds: a
    constructor that throws logs nothing. *)
Theorem ctor_logs_start_only_on_success ovr (s : sys W) o s' :
  world_wf s -> RfidTmreaderNode_ctor ovr s = (o, s') ->
  sys_log s' = sys_log s ++
    match o with
    | Ret _ => [startup_log_line (resolved_string ovr "uri" "tmr:///dev/ttyUSB0")]
    | _ => []
    end.
Proof.
  intros Hwf E. apply ctor_refines_spec in E; [|done].
  destruct E; by rewrite ?app_nil_r.
Qed.

(** C22: when every reader step succeeds but the wall timer cannot be
    created (a negative [loop_sleep_ms] after narrowing), the constructor
    throws [std::invalid_argument] with a freshly allocated reader still
    allocated and connected: the destructor never runs for a throwing
    constructor, so the reader leaks. *)
Theorem ctor_timer_error_leaks ovr (s : sys W) e s' :
  world_wf s ->
  RfidTmreaderNode_ctor ovr s = (Throw (invalid_argument e), s') ->
  exists h, h ∉ reader_live (sys_world s) /\
    h ∈ reader_live (sys_world s') /\ h ∈ reader_connected (sys_world s').
Proof.
  intros Hwf E. apply ctor_refines_spec in E; [|done].
  inversion E as [| |h ? _ Hh Hres|]; subst. unfold resources in Hres.
  injection Hres as Hl Hc. exists h. rewrite Hl, Hc. set_solver.
Qed.

(** C12: a constructed node owns a freshly allocated reader that is
    connected, set to region KR2 and whose read plan is antennas [1; 2];
    the node's antenna list is [1; 2]; the timer runs with the narrowed
    [loop_sleep_ms], which is non-negative; the world stays well formed. *)
Theorem ctor_ok_reader_configured ovr (s : sys W) n s' :
  world_wf s ->
  RfidTmreaderNode_ctor ovr s = (Ret n, s') ->
  exists h, reader_ n = Some h /\ h ∉ reader_live (sys_world s) /\
    node_reader_ok n s' /\ reader_plan (sys_world s') h = Some [1; 2]%Z /\
    ants_ n = [1; 2]%Z /\ timer_ n = Some (loop_sleep_ms_ n) /\
    (0 <= loop_sleep_ms_ n)%Z /\ world_wf s'.
Proof.
  intros Hwf E. apply ctor_refines_spec in E; [|done].
  inversion E as [| | |? h ? Hr Hh Hok Hp Ha Ht Hz Hres]; subst.
  exists h. split_and!; try done. unfold resources in Hres. injection Hres as Hl Hc.
  unfold world_wf in *. rewrite Hl, Hc. set_solver.
Qed.

(** C31: the [int] members of a constructed node are the resolved
    [int64_t] parameters narrowed to 32 bits, so each lies in the range
    of [int] whatever the parameter was. *)
Theorem ctor_ok_members_narrowed ovr (s : sys W) n s' :
  world_wf s ->
  RfidTmreaderNode_ctor ovr s = (Ret n, s') ->
  timeout_ms_ n = int32_wrap (resolved_int ovr "timeout_ms" 200) /\
  loop_sleep_ms_ n = int32_wrap (resolved_int ovr "loop_sleep_ms" 100) /\
  max_tags_ n = int32_wrap (resolved_int ovr "max_tags" 64) /\
  epc_buf_size_ n = int32_wrap (resolved_int ovr "epc_buf_size" 256) /\
  Forall (fun v => INT32_MIN <= v <= INT32_MAX)%Z
    [timeout_ms_ n; loop_sleep_ms_ n; max_tags_ n; epc_buf_size_ n].
Proof.
  intros Hwf E. apply ctor_refines_spec in E; [|done].
  inversion E as [| | |? h ? _ _ _ _ _ _ _ _ _ H1 H2 H3 H4]; subst.
  rewrite H1, H2, H3, H4. split_and!; try done. repeat constructor; apply int32_wrap_range.
Qed.

Lemma dtor_run n (s : sys W) :
  RfidTmreaderNode_dtor n s =
  match reader_ n with
  | Some h => (Ret (set_reader None n),
               set_world (mercuryapi_reader_destroy h (mercuryapi_reader_disconnect h (sys_world s))) s)
  | None => (Ret n, s)
  end.
Proof. unfold RfidTmreaderNode_dtor. by destruct (reader_ n). Qed.

(** C18: the destructor of a node holding reader [h] disconnects and
    destroys it, removing [h] from the allocated and connected handles,
    and nulls [reader_]. *)
Theorem dtor_releases n (s : sys W) h :
  reader_ n = Some h ->
  exists s', RfidTmreaderNode_dtor n s = (Ret (set_reader None n), s') /\
    resources s' = (reader_live (sys_world s) ∖ {[h]}, reader_connected (sys_world s) ∖ {[h]}) /\
    sys_published s' = sys_published s.
Proof.
  intros Hr. rewrite dtor_run, Hr. eexists; split; [done|].
  destruct (reader_teardown_spec h (sys_world s)) as [Hl Hc].
  unfold resources; cbn. by rewrite Hl, Hc.
Qed.

(** C17: running the destructor's body twice has the effect of running
    it once: the second run finds [reader_] null and does nothing. *)
Theorem dtor_idempotent n (s : sys W) :
  (RfidTmreaderNode_dtor n ≫= RfidTmreaderNode_dtor) s = RfidTmreaderNode_dtor n s.
Proof.
  destruct (reader_ n) as [h|] eqn:Hr.
  - erewrite st_bind_Ret; [|by rewrite dtor_run, Hr].
    rewrite !dtor_run, Hr. done.
  - rewrite (st_bind_Ret _ _ _ n s); [|by rewrite dtor_run, Hr]. by rewrite dtor_run, Hr.
Qed.

(** C19: constructing a node and then destroying it gives back the
    driver's resources exactly as before construction. *)
Theorem ctor_dtor_restores_resources ovr (s : sys W) n s1 o s2 :
  world_wf s ->
  RfidTmreaderNode_ctor ovr s = (Ret n, s1) ->
  RfidTmreaderNode_dtor n s1 = (o, s2) ->
  resources s2 = resources s /\ world_wf s2.
Proof.
  intros Hwf E1 E2. apply ctor_refines_spec in E1; [|done].
  inversion E1 as [| | |? h ? Hr Hh _ _ _ _ _ Hres]; subst.
  rewrite dtor_run, Hr in E2. injection E2 as <- <-.
  destruct (reader_teardown_spec h (sys_world s1)) as [Hl Hc].
  unfold resources, world_wf in *; cbn. injection Hres as Hl1 Hc1.
  rewrite Hl, Hc, Hl1, Hc1. split; [f_equal|]; set_solver.
Qed.
(** The constructor and the destructor neither read nor change the
    rclcpp context. *)
Lemma ctor_ctx_free ovr : ctx_free (RfidTmreaderNode_ctor ovr).
Proof.
  unfold RfidTmreaderNode_ctor, load_parameters, declare_string_parameter,
    declare_int_parameter, create_wall_timer, reader_teardown.
  ctx_free_solve.
Qed.

Lemma dtor_ctx_free n : ctx_free (RfidTmreaderNode_dtor n).
Proof. unfold RfidTmreaderNode_dtor, reader_teardown. ctx_free_solve. Qed.
End StartupProofs.

#[export] Hint Resolve ctor_ctx_free dtor_ctx_free : ctx_free.

(** ** Witnesses on the simulated reader *)

Lemma ctor_runtime_error_no_leak_witness :
  world_wf (sys_fail [CallRegion]) /\
  RfidTmreaderNode_ctor ∅ (sys_fail [CallRegion]) =
    (Throw (runtime_error "mercuryapi_reader_set_region_enum failed"),
     snd (RfidTmreaderNode_ctor ∅ (sys_fail [CallRegion]))) /\
  resources (snd (RfidTmreaderNode_ctor ∅ (sys_fail [CallRegion]))) =
    resources (sys_fail [CallRegion]).
Proof.
  assert (H1 : world_wf (sys_fail [CallRegion])) by done.
  assert (H2 : RfidTmreaderNode_ctor ∅ (sys_fail [CallRegion]) =
    (Throw (runtime_error "mercuryapi_reader_set_region_enum failed"),
     snd (RfidTmreaderNode_ctor ∅ (sys_fail [CallRegion])))) by (vm_compute; reflexivity).
  split_and!; [exact H1|exact H2|].
  exact (proj1 (ctor_runtime_error_no_leak _ _ _ _ H1 H2)).
Defined.

Lemma ctor_timer_error_leaks_witness :
  world_wf (sys_fail []) /\
  RfidTmreaderNode_ctor (<["loop_sleep_ms" := PInt 4294967295]> ∅) (sys_fail []) =
    (Throw (invalid_argument "timer period cannot be negative"),
     snd (RfidTmreaderNode_ctor (<["loop_sleep_ms" := PInt 4294967295]> ∅) (sys_fail []))) /\
  exists h, h ∉ reader_live (sys_world (sys_fail [])) /\
    h ∈ reader_live (sys_world (snd (RfidTmreaderNode_ctor
          (<["loop_sleep_ms" := PInt 4294967295]> ∅) (sys_fail [])))) /\
    h ∈ reader_connected (sys_world (snd (RfidTmreaderNode_ctor
          (<["loop_sleep_ms" := PInt 4294967295]> ∅) (sys_fail [])))).
Proof.
  assert (H1 : world_wf (sys_fail [])) by done.
  assert (H2 : RfidTmreaderNode_ctor (<["loop_sleep_ms" := PInt 4294967295]> ∅) (sys_fail []) =
    (Throw (invalid_argument "timer period cannot be negative"),
     snd (RfidTmreaderNode_ctor (<["loop_sleep_ms" := PInt 4294967295]> ∅) (sys_fail []))))
    by (vm_compute; reflexivity).
  split_and!; [exact H1|exact H2|]. exact (ctor_timer_error_leaks _ _ _ _ H1 H2).
Defined.

Lemma ctor_ok_reader_configured_witness :
  world_wf (sys_fail []) /\
  RfidTmreaderNode_ctor ∅ (sys_fail []) =
    (Ret demo_node, snd (RfidTmreaderNode_ctor ∅ (sys_fail []))) /\
  exists h, reader_ demo_node = Some h /\ h ∉ reader_live (sys_world (sys_fail [])) /\
    node_reader_ok demo_node (snd (RfidTmreaderNode_ctor ∅ (sys_fail []))) /\
    reader_plan (sys_world (snd (RfidTmreaderNode_ctor ∅ (sys_fail [])))) h = Some [1; 2]%Z /\
    ants_ demo_node = [1; 2]%Z /\ timer_ demo_node = Some (loop_sleep_ms_ demo_node) /\
    (0 <= loop_sleep_ms_ demo_node)%Z /\ world_wf (snd (RfidTmreaderNode_ctor ∅ (sys_fail []))).
Proof.
  assert (H1 : world_wf (sys_fail [])) by done.
  assert (H2 : RfidTmreaderNode_ctor ∅ (sys_fail []) =
    (Ret demo_node, snd (RfidTmreaderNode_ctor ∅ (sys_fail [])))) by (vm_compute; reflexivity).
  split_and!; [exact H1|exact H2|]. exact (ctor_ok_reader_configured _ _ _ _ H1 H2).
Defined.

(** [max_tags] given as the [int64_t] 2^32 + 64 is stored as 64. *)
Lemma ctor_ok_members_narrowed_witness :
  world_wf (sys_fail []) /\
  RfidTmreaderNode_ctor (<["max_tags" := PInt 4294967360]> ∅) (sys_fail []) =
    (Ret demo_node, snd (RfidTmreaderNode_ctor (<["max_tags" := PInt 4294967360]> ∅) (sys_fail []))) /\
  max_tags_ demo_node = int32_wrap 4294967360.
Proof.
  assert (H1 : world_wf (sys_fail [])) by done.
  assert (H2 : RfidTmreaderNode_ctor (<["max_tags" := PInt 4294967360]> ∅) (sys_fail []) =
    (Ret demo_node, snd (RfidTmreaderNode_ctor (<["max_tags" := PInt 4294967360]> ∅) (sys_fail []))))
    by (vm_compute; reflexivity).
  split_and!; [exact H1|exact H2|].
  exact (proj1 (proj2 (proj2 (ctor_ok_members_narrowed _ _ _ _ H1 H2)))).
Defined.

Lemma dtor_releases_witness :
  reader_ demo_node = Some 0 /\
  exists s', RfidTmreaderNode_dtor demo_node (sys_fail []) = (Ret (set_reader None demo_node), s') /\
    resources s' = (reader_live (sys_world (sys_fail [])) ∖ {[0]},
                    reader_connected (sys_world (sys_fail [])) ∖ {[0]}) /\
    sys_published s' = sys_published (sys_fail []).
Proof.
  assert (H1 : reader_ demo_node = Some 0) by (vm_compute; reflexivity).
  split; [exact H1|]. exact (dtor_releases _ _ _ H1).
Defined.

Lemma ctor_dtor_restores_resources_witness :
  world_wf (sys_fail []) /\
  RfidTmreaderNode_ctor ∅ (sys_fail []) =
    (Ret demo_node, snd (RfidTmreaderNode_ctor ∅ (sys_fail []))) /\
  RfidTmreaderNode_dtor demo_node (snd (RfidTmreaderNode_ctor ∅ (sys_fail []))) =
    (Ret (set_reader None demo_node),
     snd (RfidTmreaderNode_dtor demo_node (snd (RfidTmreaderNode_ctor ∅ (sys_fail []))))) /\
  resources (snd (RfidTmreaderNode_dtor demo_node (snd (RfidTmreaderNode_ctor ∅ (sys_fail []))))) =
    resources (sys_fail []).
Proof.
  assert (H1 : world_wf (sys_fail [])) by done.
  assert (H2 : RfidTmreaderNode_ctor ∅ (sys_fail []) =
    (Ret demo_node, snd (RfidTmreaderNode_ctor ∅ (sys_fail [])))) by (vm_compute; reflexivity).
  assert (H3 : RfidTmreaderNode_dtor demo_node (snd (RfidTmreaderNode_ctor ∅ (sys_fail []))) =
    (Ret (set_reader None demo_node),
     snd (RfidTmreaderNode_dtor demo_node (snd (RfidTmreaderNode_ctor ∅ (sys_fail []))))))
    by (vm_compute; reflexivity).
  split_and!; [exact H1|exact H2|exact H3|].
  exact (proj1 (ctor_dtor_restores_resources _ _ _ _ _ _ H1 H2 H3)).
Defined.

(** ["max_tags"] given as a string and ["epc_buf_size"] as a string: the
    constructor reports ["max_tags"], the first in declaration order. *)
Lemma ctor_parameter_type_error_witness :
  find (parameter_ill_typed (<["epc_buf_size" := PString "x"]>
                             (<["max_tags" := PString "64"]> ∅))) declared_parameters
    = Some "max_tags"%string /\
  RfidTmreaderNode_ctor (<["epc_buf_size" := PString "x"]> (<["max_tags" := PString "64"]> ∅))
    (sys_fail []) = (Throw (invalid_parameter_type "max_tags"), sys_fail []).
Proof.
  assert (H1 : find (parameter_ill_typed (<["epc_buf_size" := PString "x"]>
                             (<["max_tags" := PString "64"]> ∅))) declared_parameters
    = Some "max_tags"%string) by (vm_compute; reflexivity).
  split; [exact H1|]. exact (ctor_parameter_type_error _ _ _ H1).
Defined.

Lemma ctor_logs_start_only_on_success_witness :
  world_wf (sys_fail []) /\
  RfidTmreaderNode_ctor (<["uri" := PString "tmr:///dev/ttyUSB1"]> ∅) (sys_fail []) =
    (Ret demo_node, snd (RfidTmreaderNode_ctor (<["uri" := PString "tmr:///dev/ttyUSB1"]> ∅)
                           (sys_fail []))) /\
  sys_log (snd (RfidTmreaderNode_ctor (<["uri" := PString "tmr:///dev/ttyUSB1"]> ∅) (sys_fail [])))
    = ["RFID node started. uri=tmr:///dev/ttyUSB1"]%string.
Proof.
  assert (H1 : world_wf (sys_fail [])) by done.
  assert (H2 : RfidTmreaderNode_ctor (<["uri" := PString "tmr:///dev/ttyUSB1"]> ∅) (sys_fail []) =
    (Ret demo_node, snd (RfidTmreaderNode_ctor (<["uri" := PString "tmr:///dev/ttyUSB1"]> ∅)
                           (sys_fail [])))) by (vm_compute; reflexivity).
  split_and!; [exact H1|exact H2|]. rewrite (ctor_logs_start_only_on_success _ _ _ _ H1 H2).
  reflexivity.
Defined.

Lemma load_parameters_well_typed_witness :
  find (parameter_ill_typed (<["uri" := PString "tmr:///dev/ttyUSB1"]> (<["max_tags" := PInt 8]> ∅)))
    declared_parameters = None /\
  exists p, load_parameters (<["uri" := PString "tmr:///dev/ttyUSB1"]> (<["max_tags" := PInt 8]> ∅))
      (sys_fail []) = (Ret p, sys_fail []) /\
    param_uri p = resolved_string (<["uri" := PString "tmr:///dev/ttyUSB1"]> (<["max_tags" := PInt 8]> ∅))
      "uri" "tmr:///dev/ttyUSB0" /\
    param_timeout_ms p = resolved_int (<["uri" := PString "tmr:///dev/ttyUSB1"]> (<["max_tags" := PInt 8]> ∅))
      "timeout_ms" 200 /\
    param_loop_sleep_ms p = resolved_int (<["uri" := PString "tmr:///dev/ttyUSB1"]> (<["max_tags" := PInt 8]> ∅))
      "loop_sleep_ms" 100 /\
    param_max_tags p = resolved_int (<["uri" := PString "tmr:///dev/ttyUSB1"]> (<["max_tags" := PInt 8]> ∅))
      "max_tags" 64 /\
    param_epc_buf_size p = resolved_int (<["uri" := PString "tmr:///dev/ttyUSB1"]> (<["max_tags" := PInt 8]> ∅))
      "epc_buf_size" 256.
Proof.
  assert (H1 : find (parameter_ill_typed (<["uri" := PString "tmr:///dev/ttyUSB1"]>
     (<["max_tags" := PInt 8]> ∅))) declared_parameters = None) by (vm_compute; reflexivity).
  split; [exact H1|]. exact (load_parameters_well_typed _ (sys_fail []) H1).
Defined.

