(* ===== verification/Message.v ===== *)
(** * Message: the text published for one antenna

    Lines 104-109 of [rfid_tmreader_node.cpp] build
    ["ant=" + to_string(ant) + " count=" + to_string(count)] and then append
    [" "] and the C string [ptrs[i]] for every [i < count].  [append_epcs]
    is that loop, reading each [ptrs[i]] through the tag storage with
    [cstr_read]: an index past the end of [ptrs] or a buffer with no
    terminator is an out-of-bounds read, an [Undefined] outcome.

    [format_message] is the format the spec (section 6) fixes and
    [parse_message] reads it back; the theorems show that the loop builds
    exactly [format_message] when every [ptrs[i]] is a valid C string, and
    that the format can be parsed back to the antenna, the count and the
    EPCs whenever no EPC contains a space. *)

From S2P Require Import Prelude.

(** Line 105. *)
Definition message_header (ant count : Z) : string :=
  "ant=" +:+ std_to_string ant +:+ " count=" +:+ std_to_string count.

(** [ptrs[i]] as a C string: [ptrs[i]] points into [storage]. *)
Definition epc_at (storage : list (list ascii)) (ptrs : list (option nat)) (i : nat)
    : option string :=
  p ← ptrs !! i; j ← p; buf ← storage !! j; cstr_read buf.

(** Lines 106-109: [msg.data += " "; msg.data += ptrs[i];] for each index. *)
Fixpoint append_epcs (storage : list (list ascii)) (ptrs : list (option nat))
    (idx : list nat) (msg : string) : outcome string :=
  match idx with
  | [] => Ret msg
  | i :: idx' =>
      match epc_at storage ptrs i with
      | Some e => append_epcs storage ptrs idx' ((msg +:+ " ") +:+ e)
      | None => Undefined "ptrs[i] read out of bounds"
      end
  end.

(** Lines 104-109: the message for [count] tags read by antenna [ant]. *)
Definition build_message (storage : list (list ascii)) (ptrs : list (option nat))
    (ant count : Z) : outcome string :=
  append_epcs storage ptrs (seq 0 (Z.to_nat count)) (message_header ant count).

(** ** The format of the spec and its parser *)

Fixpoint epc_suffix (epcs : list string) : string :=
  match epcs with
  | [] => ""
  | e :: es => " " +:+ e +:+ epc_suffix es
  end.

(** ["ant=<antennaId> count=<tagCount> <epc_1> ... <epc_tagCount>"]. *)
Definition format_message (ant count : Z) (epcs : list string) : string :=
  message_header ant count +:+ epc_suffix epcs.

Definition no_space (t : string) : Prop := " "%char ∉ list_ascii_of_string t.

#[export] Instance no_space_dec t : Decision (no_space t).
Proof. unfold no_space. apply _. Defined.

(** Splitting at every space (empty tokens are kept). *)
Fixpoint split_tokens (l : list ascii) : list (list ascii) :=
  match l with
  | [] => [[]]
  | c :: l' =>
      let ts := split_tokens l' in
      if decide (c = " "%char) then [] :: ts
      else match ts with
           | t :: ts' => (c :: t) :: ts'
           | [] => [[c]]
           end
  end.

Definition strip_prefix (p l : list ascii) : option (list ascii) :=
  if decide (take (length p) l = p) then Some (drop (length p) l) else None.

Definition parse_field (key : string) (tok : list ascii) : option Z :=
  rest ← strip_prefix (list_ascii_of_string key) tok;
  parse_decimal (string_of_list_ascii rest).

Definition parse_message (s : string) : option (Z * Z * list string) :=
  match split_tokens (list_ascii_of_string s) with
  | ta :: tc :: es =>
      a ← parse_field "ant=" ta;
      k ← parse_field "count=" tc;
      Some (a, k, map string_of_list_ascii es)
  | _ => None
  end.

(** ** Lemmas *)

Lemma append_epcs_ok storage ptrs idx msg es :
  mapM (epc_at storage ptrs) idx = Some es ->
  append_epcs storage ptrs idx msg = Ret (msg +:+ epc_suffix es).
Proof.
  revert msg es. induction idx as [|i idx IH]; intros msg es Hm; simpl in *.
  - simplify_option_eq. cbn [epc_suffix]. by rewrite string_app_nil_r.
  - destruct (epc_at storage ptrs i) as [e|]; simplify_option_eq.
    rewrite (IH _ _ Heqo). by rewrite !string_app_assoc.
Qed.

Lemma append_epcs_oob storage ptrs idx msg :
  mapM (epc_at storage ptrs) idx = None ->
  append_epcs storage ptrs idx msg = Undefined "ptrs[i] read out of bounds".
Proof.
  revert msg. induction idx as [|i idx IH]; intros msg Hm; simpl in *; [done|].
  destruct (epc_at storage ptrs i) as [e|]; simplify_option_eq; [|done].
  destruct (mapM _ idx) eqn:E; simplify_option_eq. by apply IH.
Qed.

Lemma append_epcs_undefined storage ptrs idx msg :
  mapM (epc_at storage ptrs) idx = None ->
  exists why, append_epcs storage ptrs idx msg = Undefined why.
Proof. intros Hm. eexists. by apply append_epcs_oob. Qed.

Lemma split_tokens_no_space (x : list ascii) : " "%char ∉ x -> split_tokens x = [x].
Proof.
  induction x as [|c x IH]; intros Hx; simpl; [done|].
  rewrite not_elem_of_cons in Hx. destruct Hx as [Hc Hx].
  rewrite decide_False by done. by rewrite IH.
Qed.

Lemma split_tokens_app (x rest : list ascii) :
  " "%char ∉ x -> split_tokens (x ++ " "%char :: rest) = x :: split_tokens rest.
Proof.
  induction x as [|c x IH]; intros Hx; simpl; [done|].
  rewrite not_elem_of_cons in Hx. destruct Hx as [Hc Hx].
  rewrite decide_False by done. by rewrite IH.
Qed.

Lemma split_tokens_suffix (x : list ascii) es :
  " "%char ∉ x -> Forall no_space es ->
  split_tokens (x ++ list_ascii_of_string (epc_suffix es)) = x :: map list_ascii_of_string es.
Proof.
  revert x. induction es as [|e es IH]; intros x Hx Hes; simpl.
  - rewrite app_nil_r. by apply split_tokens_no_space.
  - inversion Hes as [|? ? He Hes']; subst.
    rewrite !list_ascii_of_string_app. simpl. rewrite split_tokens_app by done.
    f_equal. by apply IH.
Qed.

Lemma strip_prefix_app p r : strip_prefix p (p ++ r) = Some r.
Proof.
  unfold strip_prefix. rewrite take_app_length, decide_True by done.
  by rewrite drop_app_length.
Qed.

Lemma parse_field_app key z :
  parse_field key (list_ascii_of_string key ++ list_ascii_of_string (std_to_string z)) = Some z.
Proof.
  unfold parse_field. rewrite strip_prefix_app. simpl.
  by rewrite string_of_list_ascii_of_string, parse_decimal_to_string.
Qed.

#[export] Hint Rewrite strip_prefix_app parse_field_app : rfid_rw.

(** A space-free string literal. *)
Ltac no_space_lit :=
  cbn; repeat (rewrite not_elem_of_cons; split; [discriminate|]); apply not_elem_of_nil.

Lemma no_space_app (x y : list ascii) :
  " "%char ∉ x -> " "%char ∉ y -> " "%char ∉ x ++ y.
Proof. rewrite elem_of_app. tauto. Qed.

Lemma build_message_format storage ptrs ant count es :
  mapM (epc_at storage ptrs) (seq 0 (Z.to_nat count)) = Some es ->
  build_message storage ptrs ant count = Ret (format_message ant count es).
Proof. intros Hm. unfold build_message. by rewrite (append_epcs_ok _ _ _ _ _ Hm). Qed.

(** C13: the message loop of lines 104-109 computes the spec's format:
    when every [ptrs[i]] for [i < count] is a C string the result is
    [format_message] of those strings, and otherwise the loop reads out
    of bounds; there is no third outcome. *)
Theorem build_message_equiv storage ptrs ant count :
  build_message storage ptrs ant count =
  match mapM (epc_at storage ptrs) (seq 0 (Z.to_nat count)) with
  | Some es => Ret (format_message ant count es)
  | None => Undefined "ptrs[i] read out of bounds"
  end.
Proof.
  destruct (mapM _ _) as [es|] eqn:Hm; [by apply build_message_format|].
  by apply append_epcs_oob.
Qed.

(** C14: the published format is unambiguous: parsing
    [format_message ant count epcs] gives back the antenna, the count and
    the EPCs, one token per EPC, as long as no EPC contains a space. *)
Theorem format_message_roundtrip ant count epcs :
  Forall no_space epcs ->
  parse_message (format_message ant count epcs) = Some (ant, count, epcs).
Proof.
  intros Hes. unfold parse_message, format_message, message_header.
  rewrite !list_ascii_of_string_app.
  change (list_ascii_of_string " count=") with (" "%char :: list_ascii_of_string "count=").
  rewrite <- !app_assoc, <- app_comm_cons.
  rewrite (app_assoc (list_ascii_of_string "ant=")), split_tokens_app
    by (apply no_space_app; [no_space_lit|apply std_to_string_no_space]).
  rewrite (app_assoc (list_ascii_of_string "count=")), split_tokens_suffix
    by first [done | apply no_space_app; [no_space_lit|apply std_to_string_no_space]].
  rewrite !parse_field_app. cbn.
  rewrite map_map. f_equal. f_equal. etransitivity; [|apply map_id].
  apply map_ext. intros. apply string_of_list_ascii_of_string.
Qed.

Lemma format_message_roundtrip_witness :
  Forall no_space ["E1"; "E2"]%string /\
  parse_message (format_message 1 2 ["E1"; "E2"]%string) = Some (1%Z, 2%Z, ["E1"; "E2"]%string).
Proof.
  assert (H : Forall no_space ["E1"; "E2"]%string)
    by (repeat constructor; unfold no_space; no_space_lit).
  split; [exact H|]. exact (format_message_roundtrip 1 2 _ H).
Defined.
