(* ===== verification/ScanTick.v ===== *)
(** * ScanTick: the timer callback [OnTimer] (lines 83-114)

    Each tick runs [scan_antenna] for every antenna of [ants_] in order.
    For one antenna the node restricts the read plan to it (skipping the
    antenna when that fails), allocates [max_tags_] zeroed buffers of
    [epc_buf_size_] chars, a pointer array [ptrs] aimed at them and a
    length array, calls [mercuryapi_read_epcs], and publishes
    ["ant=<ant> count=<count> <epc>..."] when the read returned
    [MERCURYAPI_OK] with [count > 0]; every other outcome is silent.

    The buffers are fresh for every antenna: [std::vector(n, v)] with an
    [int] size throws [std::length_error] when the size is negative (it
    converts to a [size_t] beyond [max_size()]).  The driver writes
    through [ptrs.data()]; since [ptrs[i] = storage[i].data()] for every
    [i < max_tags_] ([point_ptrs_lookup]) the model passes [storage]
    itself.  Reading [ptrs[i]] back is [epc_at] of [Message].

    The section [DriverOverrun] assumes only [MercuryApi], not the
    contract: it shows what a driver reporting more tags than [max_tags_]
    does to the node. *)

From S2P Require Import Prelude Driver SimDriver Config Startup Message.
Local Open Scope rfid_scope.

(** [std::vector<T> v(n, x)] with an [int] [n]. *)
Definition vector_new {S A} (n : Z) (x : A) : ST S (list A) :=
  if decide (n < 0)%Z
  then throw (length_error "cannot create std::vector larger than max_size()")
  else mret (replicate (Z.to_nat n) x).

(** Lines 95-97: [for (int i = 0; i < max_tags_; ++i) ptrs[i] = storage[i].data();]
    A pointer is the index of the buffer it designates; [None] is [nullptr]. *)
Definition point_ptrs (ptrs : list (option nat)) (n : nat) : list (option nat) :=
  foldl (fun ps i => <[i := Some i]> ps) ptrs (seq 0 n).

Section ScanTick.
Context `{MercuryApi W}.

(** The body of the loop of lines 85-113 for antenna [ant]. *)
Definition scan_antenna (n : RfidTmreaderNode) (h : reader_handle) (ant : Z)
    : ST (sys W) unit :=
  rc ← call (mercuryapi_set_read_plan_gen2 h [ant] (-1));
  if decide (rc <> MERCURYAPI_OK) then mret tt
  else
  buf ← vector_new (epc_buf_size_ n) NUL;
  storage ← vector_new (max_tags_ n) buf;
  ptrs0 ← vector_new (max_tags_ n) None;
  lens ← vector_new (max_tags_ n) (epc_buf_size_ n);
  let ptrs := point_ptrs ptrs0 (Z.to_nat (max_tags_ n)) in
  '(rc, storage', count) ←
    call (mercuryapi_read_epcs h storage lens (max_tags_ n) (timeout_ms_ n));
  if decide (rc = MERCURYAPI_OK /\ (0 < count)%Z) then
    msg ← st_lift (build_message storage' ptrs ant count);
    publish msg
  else mret tt.

(** Lines 83-114.  The timer only exists once the constructor has set
    [reader_]; a null reader would be passed to the driver. *)
Definition OnTimer (n : RfidTmreaderNode) : ST (sys W) unit :=
  match reader_ n with
  | Some h => for_each (ants_ n) (scan_antenna n h)
  | None => st_undefined "mercuryapi call on a null reader"
  end.

(** The sizes for which a tick cannot fail on its own: a non-negative
    tag capacity and room for at least the terminator in each buffer. *)
Definition tick_params_ok (n : RfidTmreaderNode) : Prop :=
  (0 <= max_tags_ n)%Z /\ (1 <= epc_buf_size_ n)%Z.

(** An EPC the node may publish for antenna [a]: the empty string of an
    untouched buffer, or an EPC in range of [a] truncated to the buffer. *)
Definition epc_from (w : W) (a : Z) (ebs : Z) (e : string) : Prop :=
  e = ""%string \/
  exists t, t ∈ tags_in_range w a /\ e = str_take (Z.to_nat ebs - 1) t.

(** A message a tick may publish: the format of the spec for an antenna
    of [l], with between 1 and [max_tags_] EPCs, each seen by that
    antenna. *)
Definition tick_message (n : RfidTmreaderNode) (w : W) (l : list Z) (m : string) : Prop :=
  exists a k epcs, a ∈ l /\ m = format_message a k epcs /\
    (0 < k <= max_tags_ n)%Z /\ length epcs = Z.to_nat k /\
    Forall (epc_from w a (epc_buf_size_ n)) epcs.

(** What one antenna's step does, as a relation between the system
    before and after (spec section 4.2). *)
Inductive antenna_spec (n : RfidTmreaderNode) (h : reader_handle) (a : Z) (s : sys W)
    : sys W -> Prop :=
  | antenna_plan_failed r w1 :
      mercuryapi_set_read_plan_gen2 h [a] (-1) (sys_world s) = (r, w1) ->
      r <> MERCURYAPI_OK ->
      antenna_spec n h a s (set_world w1 s)
  | antenna_silent w1 r bufs' cnt w2 :
      mercuryapi_set_read_plan_gen2 h [a] (-1) (sys_world s) = (MERCURYAPI_OK, w1) ->
      mercuryapi_read_epcs h (replicate (Z.to_nat (max_tags_ n))
          (replicate (Z.to_nat (epc_buf_size_ n)) NUL))
        (replicate (Z.to_nat (max_tags_ n)) (epc_buf_size_ n))
        (max_tags_ n) (timeout_ms_ n) w1 = (r, bufs', cnt, w2) ->
      ~ (r = MERCURYAPI_OK /\ (0 < cnt)%Z) ->
      antenna_spec n h a s (set_world w2 s)
  | antenna_published w1 bufs' cnt w2 epcs :
      mercuryapi_set_read_plan_gen2 h [a] (-1) (sys_world s) = (MERCURYAPI_OK, w1) ->
      mercuryapi_read_epcs h (replicate (Z.to_nat (max_tags_ n))
          (replicate (Z.to_nat (epc_buf_size_ n)) NUL))
        (replicate (Z.to_nat (max_tags_ n)) (epc_buf_size_ n))
        (max_tags_ n) (timeout_ms_ n) w1 = (MERCURYAPI_OK, bufs', cnt, w2) ->
      (0 < cnt <= max_tags_ n)%Z ->
      length epcs = Z.to_nat cnt ->
      Forall (epc_from (sys_world s) a (epc_buf_size_ n)) epcs ->
      antenna_spec n h a s (mk_sys w2 (sys_published s ++ [format_message a cnt epcs]) (sys_log s) (sys_ctx s)).
End ScanTick.

(** ** Lemmas *)

Lemma vector_new_ok {S A} (n : Z) (x : A) :
  (0 <= n)%Z -> vector_new (S:=S) n x = mret (replicate (Z.to_nat n) x).
Proof. intros Hn. unfold vector_new. by rewrite decide_False by lia. Qed.

Lemma vector_new_neg {S A} (n : Z) (x : A) :
  (n < 0)%Z ->
  vector_new (S:=S) n x = st_throw (length_error "cannot create std::vector larger than max_size()").
Proof. intros Hn. unfold vector_new. by rewrite decide_True. Qed.

Lemma point_ptrs_lookup ptrs k i :
  k <= length ptrs ->
  point_ptrs ptrs k !! i = if decide (i < k) then Some (Some i) else ptrs !! i.
Proof.
  revert i. induction k as [|k IH]; intros i Hk; [by rewrite decide_False by lia|].
  unfold point_ptrs in *. rewrite seq_S, foldl_app. simpl.
  assert (Hlen : length (foldl (fun ps j => <[j:=Some j]> ps) ptrs (seq 0 k)) = length ptrs).
  { clear IH Hk i. induction (seq 0 k) as [|j l IHl] using rev_ind; [done|].
    rewrite foldl_app. simpl. by rewrite length_insert. }
  destruct (decide (i = k)) as [->|Hik].
  - rewrite list_lookup_insert_eq by lia. by rewrite decide_True by lia.
  - rewrite list_lookup_insert_ne by done. rewrite IH by lia.
    repeat case_decide; try done; lia.
Qed.

Lemma point_ptrs_fresh m i :
  i < m -> point_ptrs (replicate m None) m !! i = Some (Some i).
Proof.
  intros Hi. rewrite point_ptrs_lookup by (rewrite length_replicate; lia).
  by rewrite decide_True.
Qed.

Lemma point_ptrs_past m i :
  m <= i -> point_ptrs (replicate m None) m !! i = None.
Proof.
  intros Hi. rewrite point_ptrs_lookup by (rewrite length_replicate; lia).
  rewrite decide_False by lia. apply lookup_replicate_None. lia.
Qed.

(** The message loop indexes [ptrs] up to [count - 1] without checking
    [count] against [ptrs.size()]: a count beyond the [m] pointers reads
    past the pointer array. *)
Lemma build_message_overrun storage m ant count :
  (Z.of_nat m < count)%Z ->
  exists why, build_message storage (point_ptrs (replicate m None) m) ant count = Undefined why.
Proof.
  intros Hc. apply append_epcs_undefined, mapM_None_2, Exists_exists.
  exists m. split; [apply elem_of_seq; lia|]. unfold epc_at. by rewrite point_ptrs_past.
Qed.

(** The pointer loop of lines 95-97 on the fresh [ptrs] vector gives the
    reference array [ptrs[i] = storage[i].data()] for every
    [i < max_tags_], and nothing else. *)
Lemma point_ptrs_reference m : point_ptrs (replicate m None) m = Some <$> seq 0 m.
Proof.
  apply list_eq. intros i. rewrite list_lookup_fmap.
  destruct (decide (i < m)).
  - rewrite point_ptrs_fresh, lookup_seq_lt by done. done.
  - rewrite point_ptrs_past, lookup_seq_ge by lia. done.
Qed.

Section ScanTickProofs.
Context `{MercuryApiLaws W}.

Lemma read_buffer_epc (w : W) a E b' :
  (1 <= E)%Z ->
  read_buffer_ok w [a] (replicate (Z.to_nat E) NUL) b' ->
  exists e, cstr_read b' = Some e /\ epc_from w a E e.
Proof.
  intros HE [->|(a' & t & Ha' & Ht & ->)].
  - exists ""%string. rewrite cstr_read_replicate. destruct (Z.to_nat E) eqn:?; [lia|].
    split; [done|by left].
  - apply list_elem_of_singleton in Ha' as ->.
    rewrite cstr_read_write_cstr; [|rewrite length_replicate; lia|by eapply tags_no_nul].
    eexists; split; [done|]. right. exists t. by rewrite length_replicate.
Qed.

Lemma storage_epcs (w : W) a E m storage' i :
  (1 <= E)%Z -> i < m ->
  Forall2 (read_buffer_ok w [a]) (replicate m (replicate (Z.to_nat E) NUL)) storage' ->
  exists e, epc_at storage' (point_ptrs (replicate m None) m) i = Some e /\ epc_from w a E e.
Proof.
  intros HE Hi Hall. unfold epc_at. rewrite point_ptrs_fresh by done. cbn.
  destruct (Forall2_lookup_l _ _ _ i (replicate (Z.to_nat E) NUL) Hall)
    as (b' & Hb' & Hok); [by apply lookup_replicate_2|].
  rewrite Hb'. cbn. by apply read_buffer_epc.
Qed.
Lemma st_lift_bind {A B} (x : A) (k : A -> ST (sys W) B) s :
  (st_lift (Ret x) ≫= k) s = k x s.
Proof. reflexivity. Qed.

Lemma scan_antenna_refines n h a (s : sys W) o s' :
  tick_params_ok n ->
  scan_antenna n h a s = (o, s') ->
  o = Ret tt /\ antenna_spec n h a s s'.
Proof.
  intros [Hm He]. unfold scan_antenna.
  step_call_as rc w1 E1.
  destruct (set_plan_spec _ _ _ _ _ _ E1) as (_ & _ & _ & Hf1 & Hp1).
  destruct (decide (rc = MERCURYAPI_OK)) as [->|Hrc]; cycle 1.
  { rewrite decide_True by done. intros [= <- <-]. split; [done|]. by econstructor. }
  rewrite decide_False by tauto.
  do 4 (rewrite ?vector_new_ok by lia; rewrite st_bind_ret; cbv beta).
  step_call_as p2 w2 E2. destruct p2 as [[r bufs'] cnt]. cbv beta iota.
  destruct (decide (r = MERCURYAPI_OK /\ (0 < cnt)%Z)) as [[-> Hcnt]|Hno]; cycle 1.
  { intros [= <- <-]. split; [done|].
    replace (set_world w2 (set_world w1 s)) with (set_world w2 s) by done.
    by eapply antenna_silent. }
  pose proof (read_count _ _ _ _ _ _ _ _ _ E2) as Hcnt'.
  destruct (read_buffers _ _ _ _ _ _ _ _ _ _ E2) as [Hlen Hall].
  specialize (Hall _ Hp1).
  destruct (mapM_seq_ok (epc_at bufs' (point_ptrs (replicate (Z.to_nat (max_tags_ n)) None)
      (Z.to_nat (max_tags_ n)))) (epc_from (sys_world s) a (epc_buf_size_ n)) 0 (Z.to_nat cnt))
    as (es & Hes & Hles & HPes).
  { intros i Hi. unfold epc_from. rewrite <- Hf1. eapply storage_epcs; [done|lia|done]. }
  unfold build_message. rewrite (append_epcs_ok _ _ _ _ _ Hes), st_lift_bind.
  cbn [publish set_world sys_world sys_published]. intros [= <- <-]. split; [done|].
  by eapply antenna_published; [done|done|lia|done|done].
Qed.

Lemma epc_from_stable (w w' : W) a ebs :
  tags_in_range w' = tags_in_range w -> epc_from w' a ebs = epc_from w a ebs.
Proof. intros Hf. unfold epc_from. by rewrite Hf. Qed.

(** What every antenna step keeps: the resources, the region and field
    of the world, a plan for the reader, and the messages already
    published, to which it adds at most one message of its antenna. *)
Lemma antenna_spec_frame n h a (s s' : sys W) :
  antenna_spec n h a s s' ->
  resources s' = resources s /\
  reader_region (sys_world s') = reader_region (sys_world s) /\
  tags_in_range (sys_world s') = tags_in_range (sys_world s) /\
  (is_Some (reader_plan (sys_world s) h) -> is_Some (reader_plan (sys_world s') h)) /\
  (sys_published s' = sys_published s \/
   exists k epcs, sys_published s' = sys_published s ++ [format_message a k epcs] /\
     (0 < k <= max_tags_ n)%Z /\ length epcs = Z.to_nat k /\
     Forall (epc_from (sys_world s) a (epc_buf_size_ n)) epcs).
Proof.
  unfold resources.
  intros [r w1 E1 Hr|w1 r bufs' cnt w2 E1 E2 Hno|w1 bufs' cnt w2 epcs E1 E2 Hk Hl Hes];
    destruct (set_plan_spec _ _ _ _ _ _ E1) as (Hl1 & Hc1 & Hg1 & Hf1 & Hp1); cbn.
  - rewrite decide_False in Hp1 by done. rewrite Hl1, Hc1, Hg1, Hf1, Hp1. naive_solver.
  - destruct (read_frame _ _ _ _ _ _ _ _ _ _ E2) as (Hl2 & Hc2 & Hg2 & Hp2 & Hf2).
    rewrite Hl2, Hc2, Hg2, Hf2, Hp2, Hl1, Hc1, Hg1, Hf1, Hp1. naive_solver.
  - destruct (read_frame _ _ _ _ _ _ _ _ _ _ E2) as (Hl2 & Hc2 & Hg2 & Hp2 & Hf2).
    rewrite Hl2, Hc2, Hg2, Hf2, Hp2, Hl1, Hc1, Hg1, Hf1, Hp1.
    split_and!; try done; try (intros; by eexists). right. by exists cnt, epcs.
Qed.

Lemma tick_message_mono n (w w' : W) l l' m :
  tags_in_range w' = tags_in_range w -> l ⊆ l' ->
  tick_message n w' l m -> tick_message n w l' m.
Proof.
  intros Hf Hl (a & k & epcs & Ha & Hm & Hk & Hlen & Hes).
  exists a, k, epcs. rewrite (epc_from_stable _ _ _ _ Hf) in Hes.
  split_and!; try done; try lia. by apply Hl.
Qed.

Lemma for_each_scan_antenna n h l (s : sys W) o s' :
  tick_params_ok n ->
  for_each l (scan_antenna n h) s = (o, s') ->
  o = Ret tt /\ resources s' = resources s /\
  reader_region (sys_world s') = reader_region (sys_world s) /\
  tags_in_range (sys_world s') = tags_in_range (sys_world s) /\
  (is_Some (reader_plan (sys_world s) h) -> is_Some (reader_plan (sys_world s') h)) /\
  s' = foldl (fun s a => snd (scan_antenna n h a s)) s l /\
  exists msgs, sys_published s' = sys_published s ++ msgs /\ length msgs <= length l /\
    Forall (tick_message n (sys_world s) l) msgs.
Proof.
  intros Hok. revert s. induction l as [|a l IH]; intros s E; simpl in E.
  - injection E as <- <-. split_and!; try done. exists []. simpl.
    split_and!; [by rewrite app_nil_r|lia|done].
  - destruct (scan_antenna n h a s) as [o1 s1] eqn:E1.
    destruct (scan_antenna_refines _ _ _ _ _ _ Hok E1) as [-> Hspec].
    rewrite (st_bind_Ret _ _ _ _ _ E1) in E.
    destruct (IH _ E) as (-> & Hres & Hreg & Hf & Hp & Hfold & msgs & Hpub & Hlen & Hmsgs).
    destruct (antenna_spec_frame _ _ _ _ _ Hspec) as (Hres1 & Hreg1 & Hf1 & Hp1 & Hpub1).
    split_and!; try congruence; [auto|simpl; by rewrite E1|].
    assert (Hmsgs' : Forall (tick_message n (sys_world s) (a :: l)) msgs).
    { eapply Forall_impl; [done|]. intros m. apply tick_message_mono; [done|set_solver]. }
    destruct Hpub1 as [Hpub1|(k & epcs & Hpub1 & Hk & Hl & Hes)].
    + exists msgs. rewrite Hpub, Hpub1. split_and!; [done|simpl; lia|done].
    + exists (format_message a k epcs :: msgs). rewrite Hpub, Hpub1, <- app_assoc.
      split_and!; [done|simpl; lia|]. constructor; [|done].
      exists a, k, epcs. split_and!; try done; try lia. set_solver.
Qed.

Lemma scan_antenna_plan_ok n h a (s : sys W) w1 :
  mercuryapi_set_read_plan_gen2 h [a] (-1) (sys_world s) = (MERCURYAPI_OK, w1) ->
  scan_antenna n h a s =
  (vector_new (epc_buf_size_ n) NUL ≫= fun buf =>
   vector_new (max_tags_ n) buf ≫= fun storage =>
   vector_new (max_tags_ n) None ≫= fun ptrs0 =>
   vector_new (max_tags_ n) (epc_buf_size_ n) ≫= fun lens =>
   call (mercuryapi_read_epcs h storage lens (max_tags_ n) (timeout_ms_ n)) ≫= fun '(rc, storage', count) =>
   if decide (rc = MERCURYAPI_OK /\ (0 < count)%Z) then
     st_lift (build_message storage' (point_ptrs ptrs0 (Z.to_nat (max_tags_ n))) a count) ≫= publish
   else mret tt) (set_world w1 s).
Proof. intros E1. unfold scan_antenna. by rewrite_call E1. Qed.

(** ** Driver resources are untouched by a tick, on every outcome *)

Lemma call_plan_keeps_resources R h ants sess :
  st_preserves (fun s : sys W => resources s = R) (call (mercuryapi_set_read_plan_gen2 h ants sess)).
Proof.
  intros s o s' HR. unfold call.
  destruct (mercuryapi_set_read_plan_gen2 h ants sess (sys_world s)) as [r w] eqn:E.
  intros [= _ <-]. destruct (set_plan_spec _ _ _ _ _ _ E) as (Hl & Hc & _).
  rewrite <- HR. unfold resources; cbn. by rewrite Hl, Hc.
Qed.

Lemma call_read_keeps_resources R h bufs lens mx tmo :
  st_preserves (fun s : sys W => resources s = R) (call (mercuryapi_read_epcs h bufs lens mx tmo)).
Proof.
  intros s o s' HR. unfold call.
  destruct (mercuryapi_read_epcs h bufs lens mx tmo (sys_world s)) as [[[r b] c] w] eqn:E.
  intros [= _ <-]. destruct (read_frame _ _ _ _ _ _ _ _ _ _ E) as (Hl & Hc & _).
  rewrite <- HR. unfold resources; cbn. by rewrite Hl, Hc.
Qed.

Lemma vector_new_preserves {A} (P : sys W -> Prop) n (x : A) : st_preserves P (vector_new n x).
Proof. unfold vector_new. case_decide; [apply st_preserves_throw|apply st_preserves_ret]. Qed.

Lemma st_lift_preserves {A} (P : sys W -> Prop) (o : outcome A) : st_preserves P (st_lift o).
Proof. by intros s o' s' HP [= _ <-]. Qed.

Lemma publish_keeps_resources R m :
  st_preserves (fun s : sys W => resources s = R) (publish m).
Proof. by intros s o s' HP [= _ <-]. Qed.

#[local] Hint Resolve call_plan_keeps_resources call_read_keeps_resources
  vector_new_preserves st_lift_preserves publish_keeps_resources : rfid.

Lemma scan_antenna_keeps_resources R n h a :
  st_preserves (fun s : sys W => resources s = R) (scan_antenna n h a).
Proof.
  unfold scan_antenna. apply st_preserves_bind; [auto with rfid|intros rc].
  case_decide; [auto with rfid|].
  do 4 (apply st_preserves_bind; [auto with rfid|intros ?]).
  apply st_preserves_bind; [auto with rfid|intros [[r b] c]].
  case_decide; [apply st_preserves_bind; auto with rfid|auto with rfid].
Qed.

Lemma OnTimer_keeps_resources R n :
  st_preserves (fun s : sys W => resources s = R) (OnTimer n).
Proof.
  unfold OnTimer. destruct (reader_ n).
  - apply for_each_preserves. intros. apply scan_antenna_keeps_resources.
  - by intros s o s' HP [= _ <-].
Qed.

(** C16: when setting the read plan to the antenna fails, the step
    skips the antenna: no read, no message, and the tick goes on. *)
Theorem scan_antenna_plan_failure n h a (s : sys W) r w1 :
  mercuryapi_set_read_plan_gen2 h [a] (-1) (sys_world s) = (r, w1) ->
  r <> MERCURYAPI_OK ->
  scan_antenna n h a s = (Ret tt, set_world w1 s).
Proof.
  intros E1 Hr. unfold scan_antenna. rewrite_call E1.
  by rewrite decide_True.
Qed.

(** C7: a read that fails or returns zero tags publishes nothing for
    that antenna (the silence invariant) and the step returns normally. *)
Theorem scan_antenna_silent n h a (s : sys W) w1 r bufs' cnt w2 :
  tick_params_ok n ->
  mercuryapi_set_read_plan_gen2 h [a] (-1) (sys_world s) = (MERCURYAPI_OK, w1) ->
  mercuryapi_read_epcs h (replicate (Z.to_nat (max_tags_ n))
      (replicate (Z.to_nat (epc_buf_size_ n)) NUL))
    (replicate (Z.to_nat (max_tags_ n)) (epc_buf_size_ n))
    (max_tags_ n) (timeout_ms_ n) w1 = (r, bufs', cnt, w2) ->
  ~ (r = MERCURYAPI_OK /\ (0 < cnt)%Z) ->
  scan_antenna n h a s = (Ret tt, set_world w2 s).
Proof.
  intros Hok E1 E2 Hno. destruct (scan_antenna n h a s) as [o s'] eqn:E.
  destruct (scan_antenna_refines _ _ _ _ _ _ Hok E) as [-> Hspec].
  inversion Hspec as [r' w1' E1' Hr'|w1' r' bufs'' cnt' w2' E1' E2' Hno'|w1' bufs'' cnt' w2' epcs E1' E2' Hk Hl Hes];
    subst; rewrite E1 in E1'; simplify_eq; rewrite E2 in E2'; simplify_eq; naive_solver.
Qed.

(** C8: a read that returns [k > 0] tags publishes exactly one message,
    ["ant=<a> count=<k>"] followed by [k] EPCs, each one read for this
    antenna (or empty when the driver left a buffer untouched), with
    [k <= max_tags_]. *)
Theorem scan_antenna_publishes n h a (s : sys W) w1 bufs' cnt w2 :
  tick_params_ok n ->
  mercuryapi_set_read_plan_gen2 h [a] (-1) (sys_world s) = (MERCURYAPI_OK, w1) ->
  mercuryapi_read_epcs h (replicate (Z.to_nat (max_tags_ n))
      (replicate (Z.to_nat (epc_buf_size_ n)) NUL))
    (replicate (Z.to_nat (max_tags_ n)) (epc_buf_size_ n))
    (max_tags_ n) (timeout_ms_ n) w1 = (MERCURYAPI_OK, bufs', cnt, w2) ->
  (0 < cnt)%Z ->
  exists epcs,
    scan_antenna n h a s = (Ret tt, mk_sys w2 (sys_published s ++ [format_message a cnt epcs]) (sys_log s) (sys_ctx s)) /\
    (cnt <= max_tags_ n)%Z /\ length epcs = Z.to_nat cnt /\
    Forall (epc_from (sys_world s) a (epc_buf_size_ n)) epcs.
Proof.
  intros Hok E1 E2 Hc. destruct (scan_antenna n h a s) as [o s'] eqn:E.
  destruct (scan_antenna_refines _ _ _ _ _ _ Hok E) as [-> Hspec].
  inversion Hspec as [r' w1' E1' Hr'|w1' r' bufs'' cnt' w2' E1' E2' Hno'|w1' bufs'' cnt' w2' epcs E1' E2' Hk Hl Hes];
    subst; rewrite E1 in E1'; simplify_eq; rewrite E2 in E2'; simplify_eq; [naive_solver|].
  exists epcs. split_and!; auto with lia.
Qed.

(** C25: with [epc_buf_size] 0 the buffers are empty vectors, so a
    successful read of at least one tag makes line 108 read past the
    end of a buffer: undefined behaviour. *)
Theorem scan_antenna_zero_buffer_undefined n h a (s : sys W) w1 bufs' cnt w2 :
  (0 <= max_tags_ n)%Z -> epc_buf_size_ n = 0%Z ->
  mercuryapi_set_read_plan_gen2 h [a] (-1) (sys_world s) = (MERCURYAPI_OK, w1) ->
  mercuryapi_read_epcs h (replicate (Z.to_nat (max_tags_ n)) [])
    (replicate (Z.to_nat (max_tags_ n)) 0%Z)
    (max_tags_ n) (timeout_ms_ n) w1 = (MERCURYAPI_OK, bufs', cnt, w2) ->
  (0 < cnt)%Z ->
  exists why, fst (scan_antenna n h a s) = Undefined why.
Proof.
  intros Hm He E1 E2 Hc. rewrite (scan_antenna_plan_ok _ _ _ _ _ E1), He.
  do 4 (rewrite ?vector_new_ok by lia; rewrite st_bind_ret; cbv beta).
  rewrite_call E2. cbv beta iota. rewrite decide_True by done.
  pose proof (read_count _ _ _ _ _ _ _ _ _ E2) as Hcnt.
  destruct (read_buffers _ _ _ _ _ _ _ _ _ _ E2) as [_ Hall].
  destruct (set_plan_spec _ _ _ _ _ _ E1) as (_ & _ & _ & _ & Hp1).
  specialize (Hall [a] Hp1).
  destruct (Forall2_lookup_l _ _ _ 0 [] Hall) as (b' & Hb' & Hok);
    [apply lookup_replicate_2; lia|].
  assert (b' = []) as -> by (destruct Hok as [->|(? & ? & ? & ? & ->)]; done).
  destruct (append_epcs_undefined bufs' (point_ptrs (replicate (Z.to_nat (max_tags_ n)) None)
      (Z.to_nat (max_tags_ n))) (seq 0 (Z.to_nat cnt)) (message_header a cnt)) as [why Hw].
  { destruct (Z.to_nat cnt) as [|c] eqn:Hcn; [lia|]. cbn.
    unfold epc_at. rewrite point_ptrs_fresh by lia. cbn. by rewrite Hb'. }
  exists why. unfold build_message. by rewrite Hw.
Qed.

(** C26: a negative [max_tags] (after narrowing) makes the buffer
    allocation throw [std::length_error] as soon as the read plan of an
    antenna is set. *)
Theorem scan_antenna_negative_max_throws n h a (s : sys W) w1 :
  (max_tags_ n < 0)%Z ->
  mercuryapi_set_read_plan_gen2 h [a] (-1) (sys_world s) = (MERCURYAPI_OK, w1) ->
  scan_antenna n h a s =
    (Throw (length_error "cannot create std::vector larger than max_size()"), set_world w1 s).
Proof.
  intros Hm E1. rewrite (scan_antenna_plan_ok _ _ _ _ _ E1).
  destruct (decide (epc_buf_size_ n < 0)%Z) as [Hn|Hn].
  - rewrite (vector_new_neg (epc_buf_size_ n)) by done. reflexivity.
  - rewrite (vector_new_ok (epc_buf_size_ n)), st_bind_ret by lia. cbv beta.
    rewrite (vector_new_neg (max_tags_ n) (replicate (Z.to_nat (epc_buf_size_ n)) NUL))
      by done.
    reflexivity.
Qed.

(** C1: with sane sizes ([tick_params_ok]: [0 <= max_tags_] and
    [1 <= epc_buf_size_], the spec's configuration invariant), a tick
    returns normally and publishes at most one message per antenna;
    every message is in the spec's format for an antenna of [ants_],
    with between 1 and [max_tags_] EPCs, each an EPC in range of that
    very antenna (no EPC of one antenna is published under another). *)
Theorem OnTimer_publishes_own_antenna_epcs n h (s : sys W) o s' :
  tick_params_ok n -> reader_ n = Some h ->
  OnTimer n s = (o, s') ->
  o = Ret tt /\
  exists msgs, sys_published s' = sys_published s ++ msgs /\
    length msgs <= length (ants_ n) /\
    Forall (tick_message n (sys_world s) (ants_ n)) msgs.
Proof.
  intros Hok Hr. unfold OnTimer. rewrite Hr. intros E.
  destruct (for_each_scan_antenna _ _ _ _ _ _ Hok E) as (-> & _ & _ & _ & _ & _ & Hmsgs).
  by split.
Qed.

(** C9: failure isolation: with sane sizes ([tick_params_ok]: [0 <=
    max_tags_] and [1 <= epc_buf_size_]), a tick returns normally after
    running the step of every antenna of [ants_], in order, whatever the
    earlier antennas' plan or read results were. *)
Theorem OnTimer_runs_every_antenna n h (s : sys W) :
  tick_params_ok n -> reader_ n = Some h ->
  OnTimer n s = (Ret tt, foldl (fun s a => snd (scan_antenna n h a s)) s (ants_ n)).
Proof.
  intros Hok Hr. destruct (OnTimer n s) as [o s'] eqn:E.
  revert E. unfold OnTimer. rewrite Hr. intros E.
  destruct (for_each_scan_antenna _ _ _ _ _ _ Hok E) as (-> & _ & _ & _ & _ & -> & _).
  done.
Qed.

(** C21: a tick keeps the node's reader allocated, connected, in region
    KR2 and with a read plan, and changes no driver resource. *)
Theorem OnTimer_keeps_reader n (s : sys W) o s' :
  tick_params_ok n -> reader_ n <> None -> node_reader_ok n s ->
  OnTimer n s = (o, s') ->
  resources s' = resources s /\ node_reader_ok n s'.
Proof.
  intros Hok Hr Hinv. unfold OnTimer, node_reader_ok in *.
  destruct (reader_ n) as [h|]; [|done]. intros E.
  destruct (for_each_scan_antenna _ _ _ _ _ _ Hok E) as (_ & Hres & Hreg & _ & Hp & _).
  split; [done|]. unfold resources in Hres. injection Hres as Hl Hc.
  destruct Hinv as (H1 & H2 & H3 & H4).
  rewrite Hl, Hc, Hreg. split_and!; [done|done|done|by apply Hp].
Qed.

(** A tick neither reads nor changes the rclcpp context. *)
Lemma OnTimer_ctx_free n : ctx_free (OnTimer n).
Proof. unfold OnTimer, scan_antenna, vector_new. ctx_free_solve. Qed.
End ScanTickProofs.

#[export] Hint Resolve OnTimer_ctx_free : ctx_free.

(** ** A driver outside the contract *)

Section DriverOverrun.
Context `{MercuryApi W}.

(** C27: the node trusts the count written by [mercuryapi_read_epcs]: a
    driver that reports more tags than [max_tags_] on a successful read
    (which the contract forbids but nothing in the node checks) makes the
    message loop read [ptrs[i]] past the end of [ptrs]: undefined
    behaviour. *)
Theorem scan_antenna_trusts_count n h a (s : sys W) w1 bufs' cnt w2 :
  tick_params_ok n ->
  mercuryapi_set_read_plan_gen2 h [a] (-1) (sys_world s) = (MERCURYAPI_OK, w1) ->
  mercuryapi_read_epcs h (replicate (Z.to_nat (max_tags_ n))
      (replicate (Z.to_nat (epc_buf_size_ n)) NUL))
    (replicate (Z.to_nat (max_tags_ n)) (epc_buf_size_ n))
    (max_tags_ n) (timeout_ms_ n) w1 = (MERCURYAPI_OK, bufs', cnt, w2) ->
  (max_tags_ n < cnt)%Z ->
  exists why, scan_antenna n h a s = (Undefined why, set_world w2 s).
Proof.
  intros [Hm He] E1 E2 Hc. rewrite (scan_antenna_plan_ok _ _ _ _ _ E1).
  do 4 (rewrite ?vector_new_ok by lia; rewrite st_bind_ret; cbv beta).
  rewrite_call E2. cbv beta iota. rewrite decide_True by (split; [done|lia]).
  destruct (build_message_overrun bufs' (Z.to_nat (max_tags_ n)) a cnt) as [why Hw]; [lia|].
  exists why. unfold st_lift. st_unfold. by rewrite Hw.
Qed.
End DriverOverrun.


(** ** Witnesses on the simulated reader *)

Lemma scan_antenna_plan_failure_witness :
  exists r w1,
    mercuryapi_set_read_plan_gen2 0 [1%Z] (-1)
      (sys_world (sys_ready field_demo (fail_on [CallPlan [1%Z]]))) = (r, w1) /\
    r <> MERCURYAPI_OK /\
    scan_antenna (small_node 2 8) 0 1 (sys_ready field_demo (fail_on [CallPlan [1%Z]])) =
      (Ret tt, set_world w1 (sys_ready field_demo (fail_on [CallPlan [1%Z]]))).
Proof.
  eexists _, _.
  assert (H1 : mercuryapi_set_read_plan_gen2 0 [1%Z] (-1)
      (sys_world (sys_ready field_demo (fail_on [CallPlan [1%Z]]))) =
      (MERCURYAPI_ERROR 4, snd (mercuryapi_set_read_plan_gen2 0 [1%Z] (-1)
         (sys_world (sys_ready field_demo (fail_on [CallPlan [1%Z]])))))) by reflexivity.
  assert (H2 : MERCURYAPI_ERROR 4 <> MERCURYAPI_OK) by discriminate.
  split_and!; [exact H1|exact H2|exact (scan_antenna_plan_failure _ _ _ _ _ _ H1 H2)].
Defined.

(** Antenna 3 sees no tag: the read reports [MERCURYAPI_NO_TAG]. *)
Lemma scan_antenna_silent_witness :
  exists w1 r bufs' cnt w2,
    tick_params_ok (small_node 2 8) /\
    mercuryapi_set_read_plan_gen2 0 [3%Z] (-1) (sys_world (sys_ready field_demo no_faults)) =
      (MERCURYAPI_OK, w1) /\
    mercuryapi_read_epcs 0 (replicate 2 (replicate 8 NUL)) (replicate 2 8%Z) 2 200 w1 =
      (r, bufs', cnt, w2) /\
    ~ (r = MERCURYAPI_OK /\ (0 < cnt)%Z) /\
    scan_antenna (small_node 2 8) 0 3 (sys_ready field_demo no_faults) =
      (Ret tt, set_world w2 (sys_ready field_demo no_faults)).
Proof.
  do 5 eexists.
  assert (H0 : tick_params_ok (small_node 2 8)) by (split; cbn; lia).
  assert (H1 : mercuryapi_set_read_plan_gen2 0 [3%Z] (-1) (sys_world (sys_ready field_demo no_faults)) =
    (MERCURYAPI_OK, snd (mercuryapi_set_read_plan_gen2 0 [3%Z] (-1)
                           (sys_world (sys_ready field_demo no_faults))))) by reflexivity.
  assert (H2 : mercuryapi_read_epcs 0 (replicate 2 (replicate 8 NUL)) (replicate 2 8%Z) 2 200
      (snd (mercuryapi_set_read_plan_gen2 0 [3%Z] (-1) (sys_world (sys_ready field_demo no_faults)))) =
    (MERCURYAPI_NO_TAG, replicate 2 (replicate 8 NUL), 0%Z,
     snd (mercuryapi_read_epcs 0 (replicate 2 (replicate 8 NUL)) (replicate 2 8%Z) 2 200
      (snd (mercuryapi_set_read_plan_gen2 0 [3%Z] (-1) (sys_world (sys_ready field_demo no_faults)))))))
    by reflexivity.
  assert (H3 : ~ (MERCURYAPI_NO_TAG = MERCURYAPI_OK /\ (0 < 0)%Z)) by (intros [? ?]; lia).
  split_and!; [exact H0|exact H1|exact H2|exact H3|].
  exact (scan_antenna_silent _ _ _ _ _ _ _ _ _ H0 H1 H2 H3).
Defined.

Lemma scan_antenna_publishes_witness :
  exists w1 bufs' cnt w2,
    tick_params_ok (small_node 2 8) /\
    mercuryapi_set_read_plan_gen2 0 [1%Z] (-1) (sys_world (sys_ready field_demo no_faults)) =
      (MERCURYAPI_OK, w1) /\
    mercuryapi_read_epcs 0 (replicate 2 (replicate 8 NUL)) (replicate 2 8%Z) 2 200 w1 =
      (MERCURYAPI_OK, bufs', cnt, w2) /\
    (0 < cnt)%Z /\
    exists epcs,
      scan_antenna (small_node 2 8) 0 1 (sys_ready field_demo no_faults) =
        (Ret tt, mk_sys w2 (sys_published (sys_ready field_demo no_faults) ++
                            [format_message 1 cnt epcs])
                    (sys_log (sys_ready field_demo no_faults))
                    (sys_ctx (sys_ready field_demo no_faults))) /\
      (cnt <= max_tags_ (small_node 2 8))%Z /\ length epcs = Z.to_nat cnt /\
      Forall (epc_from (sys_world (sys_ready field_demo no_faults)) 1
                (epc_buf_size_ (small_node 2 8))) epcs.
Proof.
  do 4 eexists.
  assert (H0 : tick_params_ok (small_node 2 8)) by (split; cbn; lia).
  assert (H1 : mercuryapi_set_read_plan_gen2 0 [1%Z] (-1) (sys_world (sys_ready field_demo no_faults)) =
    (MERCURYAPI_OK, snd (mercuryapi_set_read_plan_gen2 0 [1%Z] (-1)
                           (sys_world (sys_ready field_demo no_faults))))) by reflexivity.
  assert (H2 : mercuryapi_read_epcs 0 (replicate 2 (replicate 8 NUL)) (replicate 2 8%Z) 2 200
      (snd (mercuryapi_set_read_plan_gen2 0 [1%Z] (-1) (sys_world (sys_ready field_demo no_faults)))) =
    (MERCURYAPI_OK,
     snd (fst (fst (mercuryapi_read_epcs 0 (replicate 2 (replicate 8 NUL)) (replicate 2 8%Z) 2 200
      (snd (mercuryapi_set_read_plan_gen2 0 [1%Z] (-1) (sys_world (sys_ready field_demo no_faults))))))),
     2%Z,
     snd (mercuryapi_read_epcs 0 (replicate 2 (replicate 8 NUL)) (replicate 2 8%Z) 2 200
      (snd (mercuryapi_set_read_plan_gen2 0 [1%Z] (-1) (sys_world (sys_ready field_demo no_faults)))))))
    by reflexivity.
  assert (H3 : (0 < 2)%Z) by lia.
  split_and!; [exact H0|exact H1|exact H2|exact H3|].
  exact (scan_antenna_publishes _ _ _ _ _ _ _ _ H0 H1 H2 H3).
Defined.

Lemma scan_antenna_zero_buffer_undefined_witness :
  exists w1 bufs' cnt w2,
    (0 <= max_tags_ (small_node 2 0))%Z /\ epc_buf_size_ (small_node 2 0) = 0%Z /\
    mercuryapi_set_read_plan_gen2 0 [1%Z] (-1) (sys_world (sys_ready field_demo no_faults)) =
      (MERCURYAPI_OK, w1) /\
    mercuryapi_read_epcs 0 (replicate 2 []) (replicate 2 0%Z) 2 200 w1 =
      (MERCURYAPI_OK, bufs', cnt, w2) /\
    (0 < cnt)%Z /\
    exists why, fst (scan_antenna (small_node 2 0) 0 1 (sys_ready field_demo no_faults)) = Undefined why.
Proof.
  do 4 eexists.
  assert (Hm : (0 <= max_tags_ (small_node 2 0))%Z) by (cbn; lia).
  assert (He : epc_buf_size_ (small_node 2 0) = 0%Z) by reflexivity.
  assert (H1 : mercuryapi_set_read_plan_gen2 0 [1%Z] (-1) (sys_world (sys_ready field_demo no_faults)) =
    (MERCURYAPI_OK, snd (mercuryapi_set_read_plan_gen2 0 [1%Z] (-1)
                           (sys_world (sys_ready field_demo no_faults))))) by reflexivity.
  assert (H2 : mercuryapi_read_epcs 0 (replicate 2 []) (replicate 2 0%Z) 2 200
      (snd (mercuryapi_set_read_plan_gen2 0 [1%Z] (-1) (sys_world (sys_ready field_demo no_faults)))) =
    (MERCURYAPI_OK, replicate 2 [], 2%Z,
     snd (mercuryapi_read_epcs 0 (replicate 2 []) (replicate 2 0%Z) 2 200
      (snd (mercuryapi_set_read_plan_gen2 0 [1%Z] (-1) (sys_world (sys_ready field_demo no_faults)))))))
    by reflexivity.
  assert (H3 : (0 < 2)%Z) by lia.
  split_and!; [exact Hm|exact He|exact H1|exact H2|exact H3|].
  exact (scan_antenna_zero_buffer_undefined _ _ _ _ _ _ _ _ Hm He H1 H2 H3).
Defined.

Lemma scan_antenna_negative_max_throws_witness :
  exists w1,
    (max_tags_ (small_node (-1) 8) < 0)%Z /\
    mercuryapi_set_read_plan_gen2 0 [1%Z] (-1) (sys_world (sys_ready field_demo no_faults)) =
      (MERCURYAPI_OK, w1) /\
    scan_antenna (small_node (-1) 8) 0 1 (sys_ready field_demo no_faults) =
      (Throw (length_error "cannot create std::vector larger than max_size()"),
       set_world w1 (sys_ready field_demo no_faults)).
Proof.
  eexists.
  assert (Hm : (max_tags_ (small_node (-1) 8) < 0)%Z) by (cbn; lia).
  assert (H1 : mercuryapi_set_read_plan_gen2 0 [1%Z] (-1) (sys_world (sys_ready field_demo no_faults)) =
    (MERCURYAPI_OK, snd (mercuryapi_set_read_plan_gen2 0 [1%Z] (-1)
                           (sys_world (sys_ready field_demo no_faults))))) by reflexivity.
  split_and!; [exact Hm|exact H1|]. exact (scan_antenna_negative_max_throws _ _ _ _ _ Hm H1).
Defined.

Lemma OnTimer_publishes_own_antenna_epcs_witness :
  tick_params_ok (small_node 2 8) /\ reader_ (small_node 2 8) = Some 0 /\
  OnTimer (small_node 2 8) (sys_ready field_demo no_faults) =
    (Ret tt, snd (OnTimer (small_node 2 8) (sys_ready field_demo no_faults))) /\
  exists msgs,
    sys_published (snd (OnTimer (small_node 2 8) (sys_ready field_demo no_faults))) =
      sys_published (sys_ready field_demo no_faults) ++ msgs /\
    length msgs <= length (ants_ (small_node 2 8)) /\
    Forall (tick_message (small_node 2 8) (sys_world (sys_ready field_demo no_faults))
              (ants_ (small_node 2 8))) msgs.
Proof.
  assert (H0 : tick_params_ok (small_node 2 8)) by (split; cbn; lia).
  assert (H1 : reader_ (small_node 2 8) = Some 0) by reflexivity.
  assert (H2 : OnTimer (small_node 2 8) (sys_ready field_demo no_faults) =
    (Ret tt, snd (OnTimer (small_node 2 8) (sys_ready field_demo no_faults)))) by reflexivity.
  split_and!; [exact H0|exact H1|exact H2|].
  exact (proj2 (OnTimer_publishes_own_antenna_epcs _ _ _ _ _ H0 H1 H2)).
Defined.

Lemma OnTimer_runs_every_antenna_witness :
  tick_params_ok (small_node 2 8) /\ reader_ (small_node 2 8) = Some 0 /\
  OnTimer (small_node 2 8) (sys_ready field_demo (fail_on [CallRead [1%Z]])) =
    (Ret tt, foldl (fun s a => snd (scan_antenna (small_node 2 8) 0 a s))
               (sys_ready field_demo (fail_on [CallRead [1%Z]])) (ants_ (small_node 2 8))).
Proof.
  assert (H0 : tick_params_ok (small_node 2 8)) by (split; cbn; lia).
  assert (H1 : reader_ (small_node 2 8) = Some 0) by reflexivity.
  split_and!; [exact H0|exact H1|]. exact (OnTimer_runs_every_antenna _ _ _ H0 H1).
Defined.

Lemma OnTimer_keeps_reader_witness :
  tick_params_ok (small_node 2 8) /\ reader_ (small_node 2 8) <> None /\
  node_reader_ok (small_node 2 8) (sys_ready field_demo no_faults) /\
  OnTimer (small_node 2 8) (sys_ready field_demo no_faults) =
    (Ret tt, snd (OnTimer (small_node 2 8) (sys_ready field_demo no_faults))) /\
  resources (snd (OnTimer (small_node 2 8) (sys_ready field_demo no_faults))) =
    resources (sys_ready field_demo no_faults).
Proof.
  assert (H0 : tick_params_ok (small_node 2 8)) by (split; cbn; lia).
  assert (H1 : reader_ (small_node 2 8) <> None) by discriminate.
  assert (H2 : node_reader_ok (small_node 2 8) (sys_ready field_demo no_faults))
    by (split_and!; cbn; [set_solver|set_solver|reflexivity|by eexists]).
  assert (H3 : OnTimer (small_node 2 8) (sys_ready field_demo no_faults) =
    (Ret tt, snd (OnTimer (small_node 2 8) (sys_ready field_demo no_faults)))) by reflexivity.
  split_and!; [exact H0|exact H1|exact H2|exact H3|].
  exact (proj1 (OnTimer_keeps_reader _ _ _ _ H0 H1 H2 H3)).
Defined.

(** A driver that reports three tags for two buffers. *)
Lemma scan_antenna_trusts_count_witness :
  tick_params_ok (small_node 2 8) /\
  @mercuryapi_set_read_plan_gen2 _ sim_overreport_api 0 [1%Z] (-1)
    (sys_world (sys_ready field_saturated no_faults)) =
    (MERCURYAPI_OK, snd (sim_set_read_plan 0 [1%Z] (-1) (sys_world (sys_ready field_saturated no_faults)))) /\
  (max_tags_ (small_node 2 8) < 3)%Z /\
  exists why, @scan_antenna _ sim_overreport_api (small_node 2 8) 0 1
      (sys_ready field_saturated no_faults) =
    (Undefined why, set_world (sim_record (EvRead 0 2 200) (snd (sim_set_read_plan 0 [1%Z] (-1)
       (sys_world (sys_ready field_saturated no_faults))))) (sys_ready field_saturated no_faults)).
Proof.
  assert (H0 : tick_params_ok (small_node 2 8)) by (split; cbn; lia).
  assert (H1 : @mercuryapi_set_read_plan_gen2 _ sim_overreport_api 0 [1%Z] (-1)
    (sys_world (sys_ready field_saturated no_faults)) =
    (MERCURYAPI_OK, snd (sim_set_read_plan 0 [1%Z] (-1) (sys_world (sys_ready field_saturated no_faults)))))
    by reflexivity.
  assert (H2 : @mercuryapi_read_epcs _ sim_overreport_api 0
    (replicate (Z.to_nat (max_tags_ (small_node 2 8)))
       (replicate (Z.to_nat (epc_buf_size_ (small_node 2 8))) NUL))
    (replicate (Z.to_nat (max_tags_ (small_node 2 8))) (epc_buf_size_ (small_node 2 8)))
    (max_tags_ (small_node 2 8)) (timeout_ms_ (small_node 2 8))
    (snd (sim_set_read_plan 0 [1%Z] (-1) (sys_world (sys_ready field_saturated no_faults)))) =
    (MERCURYAPI_OK,
     fill_buffers ["E1"; "E2"]%string (replicate 2 (replicate 8 NUL)), 3%Z,
     sim_record (EvRead 0 2 200)
       (snd (sim_set_read_plan 0 [1%Z] (-1) (sys_world (sys_ready field_saturated no_faults))))))
    by reflexivity.
  assert (H3 : (max_tags_ (small_node 2 8) < 3)%Z) by (cbn; lia).
  split_and!; [exact H0|exact H1|exact H3|].
  exact (scan_antenna_trusts_count (H:=sim_overreport_api) _ _ _ _ _ _ _ _ H0 H1 H2 H3).
Defined.
