(* ===== verification/Main.v ===== *)
(** * Main: [main] and the lifetime of the node (lines 129-138)

    [main] initialises rclcpp ([rclcpp_init]: the context becomes
    valid), makes the node with [std::make_shared], spins it and catches
    any [std::exception], printing ["Fatal: <what>"] on stderr; it then
    shuts rclcpp down ([rclcpp_shutdown]) and returns 0.  [rclcpp::spin]
    runs until the context is shut down from outside (the SIGINT handler
    of rclcpp); [spin ticks] is its run up to the [ticks]-th timer
    firing followed by that shutdown ([spin_exit]), which is all any
    finite observation of the process sees.  The node's code never
    reads the context ([ctx_free], [ctx_oblivious]), so [main] is
    related to runs of the node from any context ([main_run]).  The [shared_ptr] is a temporary of
    the full expression at line 133, so the destructor runs when [spin]
    returns and also when an exception leaves [spin] ([st_finally]); a
    constructor that throws leaves no object to destroy.

    The theorems: with sane sizes a run of any number of ticks ends
    without a ["Fatal"] line and publishes only well-formed messages; a
    construction failure ends [main] with one ["Fatal"] line and exit
    status 0; a run of the node releases the reader it acquired.  The
    three end-to-end scenarios of the spec are evaluated on the
    simulated driver, as tests. *)

From S2P Require Import Prelude Driver SimDriver Config Startup Message ScanTick.

Definition exception_what (e : cpp_exception) : string :=
  match e with
  | runtime_error w | length_error w | invalid_argument w => w
  end.

(** Line 135: [fprintf(stderr, "Fatal: %s\n", e.what())]. *)
Definition fatal_line (e : cpp_exception) : string :=
  "Fatal: " +:+ exception_what e +:+ "\n".

Section Main.
Context `{MercuryApi W}.

(** [rclcpp::spin] returns once the context is no longer valid: the
    SIGINT handler that [rclcpp::init] installs shuts it down from
    outside the node. *)
Definition spin_exit : ST (sys W) unit := fun s => (Ret tt, set_ctx RclShutdown s).

(** [rclcpp::spin(node)]: the first [ticks] expiries of the wall timer,
    then the shutdown from outside that makes [spin] return. *)
Fixpoint spin (ticks : nat) (n : RfidTmreaderNode) : ST (sys W) unit :=
  match ticks with
  | O => spin_exit
  | S k => OnTimer n ;; spin k n
  end.

(** [rclcpp::spin(std::make_shared<RfidTmreaderNode>())]. *)
Definition run_node (ovr : overrides) (ticks : nat) : ST (sys W) unit :=
  n ← RfidTmreaderNode_ctor ovr;
  st_finally (spin ticks n) (RfidTmreaderNode_dtor n ;; mret tt).

(** Line 131: [rclcpp::init(argc, argv)] makes the context valid. *)
Definition rclcpp_init : ST (sys W) unit := fun s => (Ret tt, set_ctx RclValid s).

(** Line 137: [rclcpp::shutdown()] invalidates the context. *)
Definition rclcpp_shutdown : ST (sys W) unit := fun s => (Ret tt, set_ctx RclShutdown s).

(** Lines 129-138: the lines written to stderr and the exit status.  The
    parameter overrides [ovr] are those [argv] carries after
    [--ros-args]. *)
Definition main (ovr : overrides) (ticks : nat) : ST (sys W) (list string * Z) :=
  rclcpp_init ;;
  err ← st_catch (run_node ovr ticks ;; mret [])
                 (fun e => mret [fatal_line e]);
  rclcpp_shutdown ;;
  mret (err, 0%Z).
End Main.

Section MainProofs.
Context `{MercuryApiLaws W}.

Lemma spin_keeps_resources R k n :
  st_preserves (fun s : sys W => resources s = R) (spin k n).
Proof.
  induction k as [|k IH]; simpl; [by intros ? ? ? <- [= <- <-]|].
  apply st_preserves_bind; [apply OnTimer_keeps_resources|intros; apply IH].
Qed.

(** The node's run does not read the context: it only sets it when
    [spin] returns. *)
Lemma spin_oblivious k n : ctx_oblivious (spin k n).
Proof.
  induction k; cbn; [apply oblivious_set_ctx|].
  apply oblivious_bind; [apply ctx_free_oblivious, OnTimer_ctx_free|done].
Qed.

#[local] Hint Resolve spin_oblivious : oblivious.

Lemma run_node_oblivious ovr k : ctx_oblivious (run_node ovr k).
Proof. unfold run_node. oblivious_solve. Qed.

(** [main] runs the node in the valid context, catches what it throws,
    and leaves the context shut down, whichever way the node ended. *)
Lemma main_run ovr k (s : sys W) o s1 :
  run_node ovr k s = (o, s1) ->
  main ovr k s =
  match o with
  | Ret _ => (Ret ([], 0%Z), set_ctx RclShutdown s1)
  | Throw e => (Ret ([fatal_line e], 0%Z), set_ctx RclShutdown s1)
  | Undefined w => (Undefined w, snd (run_node ovr k (set_ctx RclValid s)))
  end.
Proof.
  intros E. destruct (run_node_oblivious ovr k _ _ (set_ctx_equiv RclValid s)) as [Ho Hs].
  unfold main, st_catch, rclcpp_init, rclcpp_shutdown. st_unfold.
  destruct (run_node ovr k (set_ctx RclValid s)) as [o' s1']. rewrite E in Ho, Hs.
  cbn -[set_ctx] in *. subst o'.
  destruct o; cbn -[set_ctx]; by rewrite ?(set_ctx_proper _ _ _ Hs).
Qed.

Lemma run_node_releases ovr k (s : sys W) o s' :
  world_wf s -> (0 <= int32_wrap (resolved_int ovr "loop_sleep_ms" 100))%Z ->
  run_node ovr k s = (o, s') -> (forall w, o <> Undefined w) ->
  resources s' = resources s.
Proof.
  intros Hwf Hslp. unfold run_node.
  destruct (RfidTmreaderNode_ctor ovr s) as [o0 s0] eqn:E0.
  pose proof (ctor_refines_spec _ _ _ _ Hwf E0) as Hspec.
  inversion Hspec as [name|what ? _ Hres _|h ? Hneg|n h ? Hr Hh _ _ _ _ _ Hres];
    subst; st_unfold; rewrite E0; try (intros [= <- <-]; done); [lia|].
  unfold st_finally. destruct (spin k n s0) as [o2 s2] eqn:E2.
  pose proof (spin_keeps_resources _ k n s0 o2 s2 eq_refl E2) as Hres2.
  rewrite dtor_run, Hr. cbn.
  destruct (reader_teardown_spec h (sys_world s2)) as [Hl Hc].
  assert (Hhc : h ∉ reader_connected (sys_world s)) by (unfold world_wf in Hwf; set_solver).
  cbv beta in Hres2. unfold resources in *. injection Hres2 as Hl2 Hc2.
  injection Hres as Hl0 Hc0.
  destruct o2; intros [= <- <-] Hnu; try (by destruct (Hnu why));
    cbn [set_world sys_world]; rewrite Hl, Hc, Hl2, Hc2, Hl0, Hc0;
    f_equal; set_solver.
Qed.

(** Every tick of a running node returns normally, keeps the driver's
    resources and the tags in range, and publishes at most one message
    per antenna, each a message of [tick_message]. *)
Lemma spin_run k n h (s : sys W) o s' :
  tick_params_ok n -> reader_ n = Some h ->
  spin k n s = (o, s') ->
  o = Ret tt /\ resources s' = resources s /\
  tags_in_range (sys_world s') = tags_in_range (sys_world s) /\
  exists msgs, sys_published s' = sys_published s ++ msgs /\
    length msgs <= k * length (ants_ n) /\
    Forall (tick_message n (sys_world s) (ants_ n)) msgs.
Proof.
  intros Hok Hr. revert s o s'. induction k as [|k IH]; intros s o s' E; simpl in E.
  - injection E as <- <-. split_and!; try done. exists [].
    rewrite app_nil_r. split_and!; [done|cbn; lia|done].
  - destruct (OnTimer n s) as [o1 s1] eqn:E1. pose proof E1 as E1'.
    unfold OnTimer in E1'. rewrite Hr in E1'.
    destruct (for_each_scan_antenna _ _ _ _ _ _ Hok E1')
      as (-> & Hres1 & _ & Hf1 & _ & _ & m1 & Hp1 & Hl1 & Hm1).
    rewrite (st_bind_Ret _ _ _ _ _ E1) in E.
    destruct (IH _ _ _ E) as (-> & Hres2 & Hf2 & m2 & Hp2 & Hl2 & Hm2).
    split_and!; try congruence. exists (m1 ++ m2).
    rewrite Hp2, Hp1, app_assoc, length_app. split_and!; [done|lia|].
    apply Forall_app; split; [done|]. eapply Forall_impl; [exact Hm2|].
    intros m. by apply tick_message_mono.
Qed.

Lemma run_node_ok ovr k (s : sys W) n s1 h o2 s2 :
  RfidTmreaderNode_ctor ovr s = (Ret n, s1) -> reader_ n = Some h ->
  spin k n s1 = (o2, s2) -> o2 = Ret tt ->
  run_node ovr k s =
    (Ret tt, set_world (mercuryapi_reader_destroy h (mercuryapi_reader_disconnect h (sys_world s2))) s2).
Proof.
  intros E0 Hr E2 ->. unfold run_node. rewrite (st_bind_Ret _ _ _ _ _ E0).
  unfold st_finally. rewrite E2. st_unfold. by rewrite dtor_run, Hr.
Qed.

(** C2: tick-level errors are absorbed when the sizes are sane: if
    construction succeeds with [0 <= max_tags_] and [1 <= epc_buf_size_],
    then after any number [k] of timer firings [main] ends with no
    [Fatal] line and exit status 0, the reader is released, and the run
    has published at most two messages per tick, each in the spec's
    format for antenna 1 or 2 with EPCs in range of that antenna. *)
Theorem main_ticks_absorbed ovr k (s : sys W) n s1 :
  world_wf s -> RfidTmreaderNode_ctor ovr s = (Ret n, s1) -> tick_params_ok n ->
  exists s', main ovr k s = (Ret ([], 0%Z), s') /\ resources s' = resources s /\
    exists msgs, sys_published s' = sys_published s ++ msgs /\ length msgs <= 2 * k /\
      Forall (tick_message n (sys_world s1) [1; 2]%Z) msgs.
Proof.
  intros Hwf E0 Hok. pose proof (ctor_refines_spec _ _ _ _ Hwf E0) as Hspec.
  inversion Hspec as [| | |? h ? Hr _ _ _ Ha _ Hslp _ Hpub _ Hsl _ _]; subst.
  destruct (spin k n s1) as [o2 s2] eqn:E2.
  destruct (spin_run _ _ _ _ _ _ Hok Hr E2) as (-> & _ & _ & msgs & Hp2 & Hl2 & Hm2).
  pose proof (run_node_ok _ _ _ _ _ _ _ _ E0 Hr E2 eq_refl) as Erun.
  eexists; split; [exact (main_run _ _ _ _ _ Erun)|]. split.
  - rewrite resources_set_ctx. eapply run_node_releases; [done|by rewrite <- Hsl|exact Erun|done].
  - exists msgs. rewrite Ha in Hl2, Hm2. cbn in Hl2 |- *.
    rewrite Hp2, Hpub. split_and!; [done|lia|done].
Qed.

(** C23: when the constructor throws, [main] catches the exception,
    writes one ["Fatal: <what>"] line to stderr, shuts rclcpp down and
    returns exit status 0, although the spec asks for a non-zero
    status. *)
Theorem main_ctor_failure_exit_zero ovr k (s : sys W) e s1 :
  RfidTmreaderNode_ctor ovr s = (Throw e, s1) ->
  main ovr k s = (Ret (["Fatal: " +:+ exception_what e +:+ "\n"]%string, 0%Z),
                  set_ctx RclShutdown s1).
Proof.
  intros E. assert (Er : run_node ovr k s = (Throw e, s1)) by (unfold run_node; st_unfold; by rewrite E).
  exact (main_run _ _ _ _ _ Er).
Qed.

(** C20: a whole run of the node that ends without undefined behaviour
    (normally, or with a [Fatal] line from a failing constructor or
    tick) leaves the driver's resources as they were before: the
    reader acquired by the constructor is released by its destructor,
    provided the timer period is not negative. *)
Theorem main_releases_resources ovr k (s : sys W) r s' :
  world_wf s -> (0 <= int32_wrap (resolved_int ovr "loop_sleep_ms" 100))%Z ->
  main ovr k s = (Ret r, s') ->
  resources s' = resources s.
Proof.
  intros Hwf Hslp. destruct (run_node ovr k s) as [o s1] eqn:E.
  rewrite (main_run _ _ _ _ _ E).
  destruct o; intros [= _ <-]; rewrite resources_set_ctx; by eapply run_node_releases.
Qed.
End MainProofs.

(** ** End-to-end scenarios of the spec (section 8), one tick *)

(** Spec scenario 1 (a test): antennas [1; 2], antenna 1 reads E1 and E2,
    antenna 2 reads nothing: exactly one message, ["ant=1 count=2 E1 E2"]. *)
Example scenario_one_antenna_reads :
  fst (main ∅ 1 (sys_of (sim_init field_scenario1 no_faults))) = Ret ([], 0%Z) /\
  sys_published (snd (main ∅ 1 (sys_of (sim_init field_scenario1 no_faults)))) =
    ["ant=1 count=2 E1 E2"]%string.
Proof. split; vm_compute; reflexivity. Qed.

(** Spec scenario 2 (a test): the read of antenna 1 fails, antenna 2 reads E3:
    exactly one message, ["ant=2 count=1 E3"], and no crash. *)
Example scenario_read_failure_isolated :
  fst (main ∅ 1 (sys_of (sim_init field_demo (fail_on [CallRead [1%Z]])))) = Ret ([], 0%Z) /\
  sys_published (snd (main ∅ 1 (sys_of (sim_init field_demo (fail_on [CallRead [1%Z]]))))) =
    ["ant=2 count=1 E3"]%string.
Proof. split; vm_compute; reflexivity. Qed.

(** Spec scenario 3 (a test): [max_tags] 2 while three tags are in range: the
    message reports [count=2] and nothing signals the saturation. *)
Example scenario_saturation_unreported :
  fst (main (<["max_tags" := PInt 2]> ∅) 1 (sys_of (sim_init field_saturated no_faults)))
    = Ret ([], 0%Z) /\
  sys_published (snd (main (<["max_tags" := PInt 2]> ∅) 1
                       (sys_of (sim_init field_saturated no_faults)))) =
    ["ant=1 count=2 E1 E2"]%string.
Proof. split; vm_compute; reflexivity. Qed.

(** ** Witnesses *)

Lemma main_ticks_absorbed_witness :
  world_wf (sys_of (sim_init field_demo no_faults)) /\
  RfidTmreaderNode_ctor ∅ (sys_of (sim_init field_demo no_faults)) =
    (Ret demo_node, snd (RfidTmreaderNode_ctor ∅ (sys_of (sim_init field_demo no_faults)))) /\
  tick_params_ok demo_node /\
  exists s', main ∅ 3 (sys_of (sim_init field_demo no_faults)) = (Ret ([], 0%Z), s') /\
    resources s' = resources (sys_of (sim_init field_demo no_faults)) /\
    exists msgs, sys_published s' = sys_published (sys_of (sim_init field_demo no_faults)) ++ msgs /\
      length msgs <= 2 * 3 /\
      Forall (tick_message demo_node
        (sys_world (snd (RfidTmreaderNode_ctor ∅ (sys_of (sim_init field_demo no_faults)))))
        [1; 2]%Z) msgs.
Proof.
  assert (H1 : world_wf (sys_of (sim_init field_demo no_faults))) by done.
  assert (H2 : RfidTmreaderNode_ctor ∅ (sys_of (sim_init field_demo no_faults)) =
    (Ret demo_node, snd (RfidTmreaderNode_ctor ∅ (sys_of (sim_init field_demo no_faults)))))
    by (vm_compute; reflexivity).
  assert (H3 : tick_params_ok demo_node) by (split; cbn; lia).
  split_and!; [exact H1|exact H2|exact H3|]. exact (main_ticks_absorbed _ 3 _ _ _ H1 H2 H3).
Defined.

Lemma main_ctor_failure_exit_zero_witness :
  RfidTmreaderNode_ctor ∅ (sys_fail [CallConnect]) =
    (Throw (runtime_error "mercuryapi_reader_connect failed"),
     snd (RfidTmreaderNode_ctor ∅ (sys_fail [CallConnect]))) /\
  main ∅ 3 (sys_fail [CallConnect]) =
    (Ret (["Fatal: " +:+ exception_what (runtime_error "mercuryapi_reader_connect failed")
           +:+ "\n"]%string, 0%Z),
     set_ctx RclShutdown (snd (RfidTmreaderNode_ctor ∅ (sys_fail [CallConnect])))).
Proof.
  assert (H1 : RfidTmreaderNode_ctor ∅ (sys_fail [CallConnect]) =
    (Throw (runtime_error "mercuryapi_reader_connect failed"),
     snd (RfidTmreaderNode_ctor ∅ (sys_fail [CallConnect])))) by (vm_compute; reflexivity).
  split; [exact H1|]. exact (main_ctor_failure_exit_zero _ 3 _ _ _ H1).
Defined.

(** A run in which the second tick throws [std::length_error]
    ([max_tags] is negative): the destructor still releases the reader. *)
Lemma main_releases_resources_witness :
  world_wf (sys_fail []) /\
  (0 <= int32_wrap (resolved_int (<["max_tags" := PInt (-3)]> ∅) "loop_sleep_ms" 100))%Z /\
  main (<["max_tags" := PInt (-3)]> ∅) 2 (sys_fail []) =
    (Ret (["Fatal: cannot create std::vector larger than max_size()\n"]%string, 0%Z),
     snd (main (<["max_tags" := PInt (-3)]> ∅) 2 (sys_fail []))) /\
  resources (snd (main (<["max_tags" := PInt (-3)]> ∅) 2 (sys_fail []))) =
    resources (sys_fail []).
Proof.
  assert (H1 : world_wf (sys_fail [])) by done.
  assert (H2 : (0 <= int32_wrap (resolved_int (<["max_tags" := PInt (-3)]> ∅) "loop_sleep_ms" 100))%Z)
    by (vm_compute; discriminate).
  assert (H3 : main (<["max_tags" := PInt (-3)]> ∅) 2 (sys_fail []) =
    (Ret (["Fatal: cannot create std::vector larger than max_size()\n"]%string, 0%Z),
     snd (main (<["max_tags" := PInt (-3)]> ∅) 2 (sys_fail [])))) by (vm_compute; reflexivity).
  split_and!; [exact H1|exact H2|exact H3|]. exact (main_releases_resources _ _ _ _ _ H1 H2 H3).
Defined.
