(* ===== verification/SimTick.v ===== *)
(** * SimTick: a tick of the node on the simulated reader

    On the simulated driver of [SimDriver] without faults, every step of
    [OnTimer] can be computed: for antenna [a] the read returns the first
    [max_tags_] tags in range of [a] ([sim_reported]), each truncated to
    [epc_buf_size_ - 1] characters by the driver, and the node publishes
    them in one message, or nothing when there is none ([sim_expected]).
    [sim_OnTimer_run] states the exact output of a tick.

    The theorems: every tag in range of an antenna of [ants_] is reported
    by the next tick when the antenna sees at most [max_tags_] tags and
    the tag fits its buffer (liveness of the scan loop); and when more
    tags are in range than [max_tags_], the message reports exactly the
    first [max_tags_] with [count = max_tags_] and nothing tells the
    reader that tags were dropped; and, with any injected faults, a tick
    makes exactly the driver calls [antenna_calls] of each antenna of
    [ants_] in order. *)

From S2P Require Import Prelude Driver SimDriver Config Message ScanTick.

(** The tags a read of antenna [a] returns on the simulated driver. *)
Definition sim_reported (n : RfidTmreaderNode) (w : sim_world) (a : Z) : list string :=
  take (Z.to_nat (max_tags_ n)) (sim_tags w a).

(** The messages one antenna step publishes on the simulated driver. *)
Definition sim_expected (n : RfidTmreaderNode) (w : sim_world) (a : Z) : list string :=
  match sim_reported n w a with
  | [] => []
  | ts => [format_message a (Z.of_nat (length ts))
            (str_take (Z.to_nat (epc_buf_size_ n) - 1) <$> ts)]
  end.

(** The driver calls one antenna step makes, as the simulated driver
    records them: the read plan restricted to the antenna, then, unless
    that failed, one read with [max_tags_] buffers and [timeout_ms_]. *)
Definition antenna_calls (n : RfidTmreaderNode) (h : nat) (fail : sim_call -> bool) (a : Z)
    : list sim_event :=
  EvPlan h [a] (-1) ::
    (if fail (CallPlan [a]) then [] else [EvRead h (max_tags_ n) (timeout_ms_ n)]).

(** ** Lemmas *)

Lemma fill_buffers_lookup ts bufs i t b :
  ts !! i = Some t -> bufs !! i = Some b -> fill_buffers ts bufs !! i = Some (write_cstr b t).
Proof.
  revert bufs i. induction ts as [|t' ts IH]; intros [|b' bs] [|i]; cbn; intros; simplify_eq; auto.
Qed.

Lemma take_min_length {A} (l : list A) m : take (Nat.min (length l) m) l = take m l.
Proof.
  destruct (Nat.le_total m (length l)).
  - by rewrite Nat.min_r.
  - rewrite Nat.min_l by done. rewrite !take_ge by done. done.
Qed.

Lemma sim_read_fresh h a w bufs lens mx tmo :
  sim_plan w !! h = Some [a] -> sim_fail w (CallRead [a]) = false ->
  length bufs = Z.to_nat mx ->
  sim_read_epcs h bufs lens mx tmo w =
    (if decide (take (Z.to_nat mx) (sim_tags w a) = [])
     then (MERCURYAPI_NO_TAG, bufs, 0%Z, sim_record (EvRead h mx tmo) w)
     else (MERCURYAPI_OK, fill_buffers (take (Z.to_nat mx) (sim_tags w a)) bufs,
           Z.of_nat (length (take (Z.to_nat mx) (sim_tags w a))), sim_record (EvRead h mx tmo) w)).
Proof.
  intros Hp Hf Hl. unfold sim_read_epcs.
  change (sim_plan (sim_record (EvRead h mx tmo) w)) with (sim_plan w).
  change (sim_fail (sim_record (EvRead h mx tmo) w)) with (sim_fail w).
  change (sim_tags (sim_record (EvRead h mx tmo) w)) with (sim_tags w).
  rewrite Hp, Hf. cbn [mbind list_bind].
  rewrite app_nil_r, Hl, Nat.min_id, take_min_length, length_take, Nat.min_comm.
  destruct (decide (take (Z.to_nat mx) (sim_tags w a) = [])) as [Ht|Ht].
  - rewrite Ht. by rewrite decide_True by (apply (f_equal length) in Ht; rewrite length_take in Ht; done).
  - rewrite decide_False; [done|]. intros Hk. apply Ht, nil_length_inv.
    by rewrite length_take.
Qed.

Lemma sim_epcs_reported n w a storage :
  (1 <= epc_buf_size_ n)%Z ->
  let ts := take (Z.to_nat (max_tags_ n)) (sim_tags w a) in
  storage = fill_buffers ts (replicate (Z.to_nat (max_tags_ n))
              (replicate (Z.to_nat (epc_buf_size_ n)) NUL)) ->
  mapM (epc_at storage (point_ptrs (replicate (Z.to_nat (max_tags_ n)) None)
                          (Z.to_nat (max_tags_ n))))
       (seq 0 (length ts)) =
  Some (str_take (Z.to_nat (epc_buf_size_ n) - 1) <$> ts).
Proof.
  intros He ts ->. rewrite <- (length_fmap (str_take (Z.to_nat (epc_buf_size_ n) - 1)) ts).
  apply mapM_seq_lookup. intros i x Hx.
  apply list_lookup_fmap_Some in Hx as (t & -> & Ht).
  assert (Hi : i < Z.to_nat (max_tags_ n))
    by (apply lookup_lt_Some in Ht; unfold ts in Ht; rewrite length_take in Ht; lia).
  unfold epc_at. rewrite point_ptrs_fresh by done. cbn.
  rewrite (fill_buffers_lookup _ _ _ _ (replicate (Z.to_nat (epc_buf_size_ n)) NUL) Ht)
    by (apply lookup_replicate_2; lia).
  cbn. rewrite cstr_read_write_cstr, length_replicate; [done|rewrite length_replicate; lia|].
  apply (tags_no_nul w a). eapply list_elem_of_lookup_2, elem_of_take in Ht as (j & Hj & _).
  by eapply list_elem_of_lookup_2.
Qed.

(** The expected output depends on the field only. *)
Lemma sim_expected_field n w w' a :
  sim_field w' = sim_field w -> sim_expected n w' a = sim_expected n w a.
Proof. intros Hf. unfold sim_expected, sim_reported, sim_tags. by rewrite Hf. Qed.

(** One antenna step on a simulated reader without faults. *)
Lemma sim_scan_antenna n h a (s : sys sim_world) :
  tick_params_ok n -> (forall c, sim_fail (sys_world s) c = false) ->
  exists w', scan_antenna n h a s =
    (Ret tt, mk_sys w' (sys_published s ++ sim_expected n (sys_world s) a) (sys_log s) (sys_ctx s)) /\
    sim_field w' = sim_field (sys_world s) /\ sim_fail w' = sim_fail (sys_world s).
Proof.
  intros [Hm He] Hf. destruct s as [w p lg c]. cbn in Hf |- *. unfold scan_antenna.
  set (w1 := sim_set_plan (<[h:=[a]]> (sim_plan (sim_record (EvPlan h [a] (-1)) w)))
               (sim_record (EvPlan h [a] (-1)) w)).
  assert (E1 : mercuryapi_set_read_plan_gen2 h [a] (-1) (sys_world (mk_sys w p lg c)) =
    (MERCURYAPI_OK, w1)).
  { cbn. unfold sim_set_read_plan.
    change (sim_fail (sim_record (EvPlan h [a] (-1)) w)) with (sim_fail w). by rewrite Hf. }
  rewrite_call E1. rewrite decide_False by congruence.
  do 4 (rewrite ?vector_new_ok by lia; rewrite st_bind_ret; cbv beta).
  assert (E2 := sim_read_fresh h a w1
    (replicate (Z.to_nat (max_tags_ n)) (replicate (Z.to_nat (epc_buf_size_ n)) NUL))
    (replicate (Z.to_nat (max_tags_ n)) (epc_buf_size_ n)) (max_tags_ n) (timeout_ms_ n)
    ltac:(apply lookup_insert_eq) (Hf _) ltac:(by rewrite length_replicate)).
  exists (sim_record (EvRead h (max_tags_ n) (timeout_ms_ n)) w1).
  split; [|done]. unfold sim_expected, sim_reported.
  change (sim_tags w1 a) with (sim_tags w a) in E2.
  destruct (decide (take (Z.to_nat (max_tags_ n)) (sim_tags w a) = [])) as [Ht|Ht].
  - rewrite_call E2. cbv beta iota. rewrite decide_False by lia.
    rewrite Ht, app_nil_r. done.
  - rewrite_call E2. cbv beta iota.
    rewrite decide_True by (split; [done|]; destruct (take _ _); [done|cbn; lia]).
    unfold build_message. rewrite Nat2Z.id.
    rewrite (append_epcs_ok _ _ _ _ _ (sim_epcs_reported n w a _ ltac:(lia) eq_refl)).
    destruct (take _ _) as [|t ts] eqn:Et; [done|]. reflexivity.
Qed.

Lemma sim_for_each_scan n h l (s : sys sim_world) :
  tick_params_ok n -> (forall c, sim_fail (sys_world s) c = false) ->
  exists w', for_each l (scan_antenna n h) s =
    (Ret tt, mk_sys w' (sys_published s ++ (l ≫= sim_expected n (sys_world s))) (sys_log s) (sys_ctx s)).
Proof.
  intros Hok. revert s. induction l as [|a l IH]; intros s Hf; cbn [for_each].
  - exists (sys_world s). rewrite app_nil_r. by destruct s.
  - destruct (sim_scan_antenna n h a s Hok Hf) as (w1 & E1 & Hfield & Hfail).
    rewrite (st_bind_Ret _ _ _ _ _ E1).
    destruct (IH (mk_sys w1 (sys_published s ++ sim_expected n (sys_world s) a) (sys_log s) (sys_ctx s)))
      as [w' E]; [cbn; by rewrite Hfail|].
    exists w'. cbv beta. rewrite E. cbn. rewrite <- app_assoc. do 3 f_equal.
    f_equal. apply list_bind_ext; [|done]. intros b. by apply sim_expected_field.
Qed.

(** The exact output of a tick on a simulated reader without faults. *)
Lemma sim_OnTimer_run n h (s : sys sim_world) :
  tick_params_ok n -> reader_ n = Some h -> (forall c, sim_fail (sys_world s) c = false) ->
  exists w', OnTimer n s =
    (Ret tt, mk_sys w' (sys_published s ++ (ants_ n ≫= sim_expected n (sys_world s))) (sys_log s) (sys_ctx s)).
Proof. intros Hok Hr Hf. unfold OnTimer. rewrite Hr. by apply sim_for_each_scan. Qed.

Lemma sim_plan_trace h ants sess w r w' :
  sim_set_read_plan h ants sess w = (r, w') ->
  sim_trace w' = sim_trace w ++ [EvPlan h ants sess] /\ sim_fail w' = sim_fail w /\
  (r = MERCURYAPI_OK <-> sim_fail w (CallPlan ants) = false).
Proof.
  unfold sim_set_read_plan. cbn.
  destruct (sim_fail w (CallPlan ants)); intros [= <- <-]; cbn; naive_solver.
Qed.

Lemma sim_read_trace h bufs lens mx tmo w r b c w' :
  sim_read_epcs h bufs lens mx tmo w = (r, b, c, w') ->
  sim_trace w' = sim_trace w ++ [EvRead h mx tmo] /\ sim_fail w' = sim_fail w.
Proof. unfold sim_read_epcs. cbn. repeat case_match; intros; simplify_eq/=; done. Qed.

(** The calls of one antenna step, whatever fails. *)
Lemma sim_scan_antenna_calls n h a (s : sys sim_world) o s' :
  tick_params_ok n -> scan_antenna n h a s = (o, s') ->
  o = Ret tt /\
  sim_trace (sys_world s') = sim_trace (sys_world s) ++ antenna_calls n h (sim_fail (sys_world s)) a /\
  sim_fail (sys_world s') = sim_fail (sys_world s).
Proof.
  intros Hok E. destruct (scan_antenna_refines _ _ _ _ _ _ Hok E) as [-> Hspec]. split; [done|].
  unfold antenna_calls.
  inversion Hspec as [r w1 E1 Hr|w1 r bufs' cnt w2 E1 E2 _|w1 bufs' cnt w2 epcs E1 E2 _ _ _];
    subst; cbn in *; destruct (sim_plan_trace _ _ _ _ _ _ E1) as (Ht1 & Hf1 & Hiff).
  - destruct (sim_fail (sys_world s) (CallPlan [a])); [|naive_solver]. by rewrite Ht1.
  - rewrite (proj1 Hiff eq_refl). destruct (sim_read_trace _ _ _ _ _ _ _ _ _ _ E2) as [Ht2 Hf2].
    split; [|congruence]. rewrite Ht2, Ht1. by rewrite <- ?app_assoc.
  - rewrite (proj1 Hiff eq_refl). destruct (sim_read_trace _ _ _ _ _ _ _ _ _ _ E2) as [Ht2 Hf2].
    split; [|congruence]. rewrite Ht2, Ht1. by rewrite <- ?app_assoc.
Qed.

Lemma sim_for_each_calls n h l (s : sys sim_world) o s' :
  tick_params_ok n -> for_each l (scan_antenna n h) s = (o, s') ->
  o = Ret tt /\
  sim_trace (sys_world s') = sim_trace (sys_world s) ++ (l ≫= antenna_calls n h (sim_fail (sys_world s))) /\
  sim_fail (sys_world s') = sim_fail (sys_world s).
Proof.
  intros Hok. revert s. induction l as [|a l IH]; intros s E; cbn [for_each] in E.
  - injection E as <- <-. by rewrite app_nil_r.
  - destruct (scan_antenna n h a s) as [o1 s1] eqn:E1.
    destruct (sim_scan_antenna_calls _ _ _ _ _ _ Hok E1) as (-> & Ht1 & Hf1).
    rewrite (st_bind_Ret _ _ _ _ _ E1) in E. destruct (IH _ E) as (-> & Ht & Hf).
    split_and!; [done| |congruence]. rewrite Ht, Ht1, Hf1, <- app_assoc. done.
Qed.

(** C10: the order of the driver calls of a tick (spec sections 4.2 and
    5): on the simulated reader, whatever calls fail, a tick returns
    normally after calling, for each antenna of [ants_] in order, the
    read plan restricted to that antenna and then, unless that failed,
    exactly one read with [max_tags_] buffers and timeout [timeout_ms_]:
    at most one read per antenna, so at most [length ants_] reads
    blocking at most [timeout_ms_] each. *)
Theorem sim_tick_driver_calls n h (s : sys sim_world) o s' :
  tick_params_ok n -> reader_ n = Some h -> OnTimer n s = (o, s') ->
  o = Ret tt /\
  sim_trace (sys_world s') = sim_trace (sys_world s) ++ (ants_ n ≫= antenna_calls n h (sim_fail (sys_world s))).
Proof.
  intros Hok Hr E. unfold OnTimer in E. rewrite Hr in E.
  by destruct (sim_for_each_calls _ _ _ _ _ _ Hok E) as (-> & Ht & _).
Qed.

(** C15: liveness of the scan loop: on a simulated reader without
    faults, a tag in range of an antenna of [ants_] is reported by the
    very next tick, in the message of that antenna with the count of its
    tags, as long as the antenna sees at most [max_tags_] tags and the
    tag fits its buffer with the terminator. *)
Theorem sim_tick_reports_every_tag n h (s : sys sim_world) a t :
  tick_params_ok n -> reader_ n = Some h -> (forall c, sim_fail (sys_world s) c = false) ->
  a ∈ ants_ n -> t ∈ sim_tags (sys_world s) a ->
  length (sim_tags (sys_world s) a) <= Z.to_nat (max_tags_ n) ->
  length (list_ascii_of_string t) < Z.to_nat (epc_buf_size_ n) ->
  exists s' msgs es, OnTimer n s = (Ret tt, s') /\ sys_published s' = sys_published s ++ msgs /\
    format_message a (Z.of_nat (length (sim_tags (sys_world s) a))) es ∈ msgs /\ t ∈ es.
Proof.
  intros Hok Hr Hf Ha Ht Hlen Hfit. destruct (sim_OnTimer_run n h s Hok Hr Hf) as [w' E].
  eexists _, _, (str_take (Z.to_nat (epc_buf_size_ n) - 1) <$> sim_tags (sys_world s) a).
  split_and!; [exact E|done| |].
  - apply list_elem_of_bind. exists a. split; [|done].
    unfold sim_expected, sim_reported. rewrite take_ge by done.
    destruct (sim_tags (sys_world s) a); [set_solver|]. by left.
  - apply list_elem_of_fmap. exists t. split; [|done]. symmetry. apply str_take_small. lia.
Qed.

(** C28: saturation is silent: on a simulated reader without faults,
    when an antenna of [ants_] sees more tags than [max_tags_], the tick
    publishes for it the message with [count = max_tags_] and the first
    [max_tags_] tags only; the format has no field that tells the
    reader that tags were dropped. *)
Theorem sim_tick_saturation_silent n h (s : sys sim_world) a :
  tick_params_ok n -> reader_ n = Some h -> (forall c, sim_fail (sys_world s) c = false) ->
  a ∈ ants_ n -> (0 < max_tags_ n)%Z ->
  (max_tags_ n < Z.of_nat (length (sim_tags (sys_world s) a)))%Z ->
  exists s' msgs, OnTimer n s = (Ret tt, s') /\ sys_published s' = sys_published s ++ msgs /\
    format_message a (max_tags_ n)
      (str_take (Z.to_nat (epc_buf_size_ n) - 1) <$>
         take (Z.to_nat (max_tags_ n)) (sim_tags (sys_world s) a)) ∈ msgs.
Proof.
  intros Hok Hr Hf Ha Hm Hlen. destruct (sim_OnTimer_run n h s Hok Hr Hf) as [w' E].
  eexists _, _. split_and!; [exact E|done|].
  apply list_elem_of_bind. exists a. split; [|done]. unfold sim_expected, sim_reported.
  assert (Hl : length (take (Z.to_nat (max_tags_ n)) (sim_tags (sys_world s) a)) =
    Z.to_nat (max_tags_ n)) by (rewrite length_take; lia).
  destruct (take _ _) as [|t ts] eqn:Et; [cbn in Hl; lia|].
  rewrite Hl, Z2Nat.id by lia. by left.
Qed.

(** ** Witnesses *)

(** Antenna 1 sees E1 and E2, room for two tags of seven characters. *)
Lemma sim_tick_reports_every_tag_witness :
  tick_params_ok (small_node 2 8) /\ reader_ (small_node 2 8) = Some 0 /\
  (forall c, sim_fail (sys_world (sys_ready field_demo no_faults)) c = false) /\
  1%Z ∈ ants_ (small_node 2 8) /\
  "E1"%string ∈ sim_tags (sys_world (sys_ready field_demo no_faults)) 1 /\
  length (sim_tags (sys_world (sys_ready field_demo no_faults)) 1)
    <= Z.to_nat (max_tags_ (small_node 2 8)) /\
  length (list_ascii_of_string "E1") < Z.to_nat (epc_buf_size_ (small_node 2 8)) /\
  exists s' msgs es, OnTimer (small_node 2 8) (sys_ready field_demo no_faults) = (Ret tt, s') /\
    sys_published s' = sys_published (sys_ready field_demo no_faults) ++ msgs /\
    format_message 1 (Z.of_nat (length (sim_tags (sys_world (sys_ready field_demo no_faults)) 1))) es
      ∈ msgs /\ "E1"%string ∈ es.
Proof.
  assert (H0 : tick_params_ok (small_node 2 8)) by (split; cbn; lia).
  assert (H1 : reader_ (small_node 2 8) = Some 0) by reflexivity.
  assert (H2 : forall c, sim_fail (sys_world (sys_ready field_demo no_faults)) c = false)
    by reflexivity.
  assert (H3 : 1%Z ∈ ants_ (small_node 2 8)) by by_bool_decide.
  assert (H4 : "E1"%string ∈ sim_tags (sys_world (sys_ready field_demo no_faults)) 1)
    by by_bool_decide.
  assert (H5 : length (sim_tags (sys_world (sys_ready field_demo no_faults)) 1)
    <= Z.to_nat (max_tags_ (small_node 2 8))) by (vm_compute; lia).
  assert (H6 : length (list_ascii_of_string "E1") < Z.to_nat (epc_buf_size_ (small_node 2 8)))
    by (vm_compute; lia).
  split_and!; [exact H0|exact H1|exact H2|exact H3|exact H4|exact H5|exact H6|].
  exact (sim_tick_reports_every_tag _ _ _ _ _ H0 H1 H2 H3 H4 H5 H6).
Defined.

(** Antenna 1 sees E1, E2 and E4 with room for two tags. *)
Lemma sim_tick_saturation_silent_witness :
  tick_params_ok (small_node 2 8) /\ reader_ (small_node 2 8) = Some 0 /\
  (forall c, sim_fail (sys_world (sys_ready field_saturated no_faults)) c = false) /\
  1%Z ∈ ants_ (small_node 2 8) /\ (0 < max_tags_ (small_node 2 8))%Z /\
  (max_tags_ (small_node 2 8) <
     Z.of_nat (length (sim_tags (sys_world (sys_ready field_saturated no_faults)) 1)))%Z /\
  exists s' msgs, OnTimer (small_node 2 8) (sys_ready field_saturated no_faults) = (Ret tt, s') /\
    sys_published s' = sys_published (sys_ready field_saturated no_faults) ++ msgs /\
    format_message 1 (max_tags_ (small_node 2 8))
      (str_take (Z.to_nat (epc_buf_size_ (small_node 2 8)) - 1) <$>
         take (Z.to_nat (max_tags_ (small_node 2 8)))
           (sim_tags (sys_world (sys_ready field_saturated no_faults)) 1)) ∈ msgs.
Proof.
  assert (H0 : tick_params_ok (small_node 2 8)) by (split; cbn; lia).
  assert (H1 : reader_ (small_node 2 8) = Some 0) by reflexivity.
  assert (H2 : forall c, sim_fail (sys_world (sys_ready field_saturated no_faults)) c = false)
    by reflexivity.
  assert (H3 : 1%Z ∈ ants_ (small_node 2 8)) by by_bool_decide.
  assert (H4 : (0 < max_tags_ (small_node 2 8))%Z) by (cbn; lia).
  assert (H5 : (max_tags_ (small_node 2 8) <
     Z.of_nat (length (sim_tags (sys_world (sys_ready field_saturated no_faults)) 1)))%Z)
    by (vm_compute; reflexivity).
  split_and!; [exact H0|exact H1|exact H2|exact H3|exact H4|exact H5|].
  exact (sim_tick_saturation_silent _ _ _ _ H0 H1 H2 H3 H4 H5).
Defined.

(** Setting the read plan of antenna 1 fails: no read for it. *)
Lemma sim_tick_driver_calls_witness :
  tick_params_ok (small_node 2 8) /\ reader_ (small_node 2 8) = Some 0 /\
  OnTimer (small_node 2 8) (sys_ready field_demo (fail_on [CallPlan [1%Z]])) =
    (Ret tt, snd (OnTimer (small_node 2 8) (sys_ready field_demo (fail_on [CallPlan [1%Z]])))) /\
  sim_trace (sys_world (snd (OnTimer (small_node 2 8) (sys_ready field_demo (fail_on [CallPlan [1%Z]])))))
    = sim_trace (sys_world (sys_ready field_demo (fail_on [CallPlan [1%Z]]))) ++
      (ants_ (small_node 2 8) ≫= antenna_calls (small_node 2 8) 0
         (sim_fail (sys_world (sys_ready field_demo (fail_on [CallPlan [1%Z]]))))).
Proof.
  assert (H0 : tick_params_ok (small_node 2 8)) by (split; cbn; lia).
  assert (H1 : reader_ (small_node 2 8) = Some 0) by reflexivity.
  assert (H2 : OnTimer (small_node 2 8) (sys_ready field_demo (fail_on [CallPlan [1%Z]])) =
    (Ret tt, snd (OnTimer (small_node 2 8) (sys_ready field_demo (fail_on [CallPlan [1%Z]])))))
    by (vm_compute; reflexivity).
  split_and!; [exact H0|exact H1|exact H2|].
  exact (proj2 (sim_tick_driver_calls _ _ _ _ _ H0 H1 H2)).
Defined.

