(* ===== verification/SimRun.v ===== *)
(** * SimRun: the driver calls of a whole run, on the simulated reader

    The simulated driver of [SimDriver] records every call it receives,
    with its arguments ([sim_trace]).  This file states, for any set of
    injected faults, which calls the constructor (lines 20-71), a whole
    run of [main] (lines 129-138) and a run stopped by a failing tick
    make, and in which order: the startup protocol of the spec (section
    4.1, create, connect, region, read plan, each failure unwinding only
    what the earlier steps acquired), [k] scan ticks (section 4.2), and
    the release of the reader (disconnect, then destroy) at the end.

    [ctor_calls] is that startup sequence as a function of the faults.
    The theorems: the constructor makes exactly the calls [ctor_calls]
    (none when a parameter override is ill-typed); a run of [k] ticks
    makes the startup calls, the calls of every tick in order, and the
    teardown; and with a negative [max_tags] the node stops at its first
    tick, after one read-plan call and before any read, and still
    releases its reader. *)

From S2P Require Import Prelude Driver SimDriver Config Startup Message ScanTick Main SimTick.

(** The startup protocol as the simulated driver records it, for the
    handle [h] that [create] returns and the URI [uri]: each step is
    called only when the earlier ones succeeded; a failed connect
    destroys the handle, a failed region or read plan disconnects then
    destroys it. *)
Definition ctor_calls (fail : sim_call -> bool) (h : nat) (uri : string) : list sim_event :=
  EvCreate ::
  if fail CallCreate then [] else
  EvConnect h uri ::
  if fail CallConnect then [EvDestroy h] else
  EvRegion h MERCURYAPI_REGION_KR2 ::
  if fail CallRegion then [EvDisconnect h; EvDestroy h] else
  EvPlan h [1; 2]%Z (-1) ::
  if fail (CallPlan [1; 2]%Z) then [EvDisconnect h; EvDestroy h] else [].

(** ** Lemmas *)

(** The constructor on the simulated reader, once the parameters are
    loaded, computed on every path. *)
Lemma sim_ctor_run ovr (s : sys sim_world) o s' p :
  load_parameters ovr s = (Ret p, s) ->
  RfidTmreaderNode_ctor ovr s = (o, s') ->
  let h := fresh (sim_live (sys_world s)) in
  sim_trace (sys_world s') =
    sim_trace (sys_world s) ++ ctor_calls (sim_fail (sys_world s)) h (param_uri p) /\
  sim_fail (sys_world s') = sim_fail (sys_world s) /\
  sys_published s' = sys_published s /\
  (forall n, o = Ret n -> reader_ n = Some h /\ ants_ n = [1; 2]%Z /\
     ctor_calls (sim_fail (sys_world s)) h (param_uri p) =
       [EvCreate; EvConnect h (param_uri p); EvRegion h MERCURYAPI_REGION_KR2;
        EvPlan h [1; 2]%Z (-1)]).
Proof.
  intros Ep. unfold RfidTmreaderNode_ctor. rewrite (st_bind_Ret _ _ _ _ _ Ep).
  unfold call, call_, reader_teardown, create_wall_timer, ctor_calls. st_unfold.
  cbn. unfold sim_create, sim_connect, sim_set_region_enum, sim_set_read_plan, sim_disconnect,
    sim_destroy, sim_record, set_world, sim_set_live, sim_set_conn, sim_set_region, sim_set_plan.
  simpl.
  repeat (match goal with |- context [sim_fail (sys_world s) ?c] =>
            destruct (sim_fail (sys_world s) c) eqn:? end; simpl);
    try case_decide; intros [= <- <-]; simpl; rewrite <- ?app_assoc; split_and!; try done;
    intros ? ?; simplify_eq/=; done.
Qed.

(** [spin] on a running node: every tick makes the calls
    [antenna_calls] of each antenna in order. *)
Lemma sim_spin_calls n h k (s : sys sim_world) o s' :
  tick_params_ok n -> reader_ n = Some h -> spin k n s = (o, s') ->
  o = Ret tt /\
  sim_trace (sys_world s') = sim_trace (sys_world s) ++
    concat (replicate k (ants_ n ≫= antenna_calls n h (sim_fail (sys_world s)))) /\
  sim_fail (sys_world s') = sim_fail (sys_world s).
Proof.
  intros Hok Hr. revert s. induction k as [|k IH]; intros s E; simpl in E.
  - unfold spin_exit in E. injection E as <- <-. cbn. by rewrite app_nil_r.
  - destruct (OnTimer n s) as [o1 s1] eqn:E1. pose proof E1 as E1'.
    unfold OnTimer in E1'. rewrite Hr in E1'.
    destruct (sim_for_each_calls _ _ _ _ _ _ Hok E1') as (-> & Ht1 & Hf1).
    rewrite (st_bind_Ret _ _ _ _ _ E1) in E. destruct (IH _ E) as (-> & Ht & Hf).
    split_and!; [done| |congruence]. rewrite Ht, Ht1, Hf1. cbn. by rewrite app_assoc.
Qed.

(** The parameters of a constructor that returned were loaded. *)
Lemma ctor_ok_params ovr (s : sys sim_world) n s1 :
  RfidTmreaderNode_ctor ovr s = (Ret n, s1) ->
  exists p, load_parameters ovr s = (Ret p, s) /\
    param_uri p = resolved_string ovr "uri" "tmr:///dev/ttyUSB0".
Proof.
  intros E0. destruct (load_parameters_run ovr s) as [(p & Ep & Huri & _)|[name Ep]]; [by eauto|].
  unfold RfidTmreaderNode_ctor in E0. by rewrite (st_bind_Throw _ _ _ _ _ Ep) in E0.
Qed.

(** With a negative [max_tags_], an antenna whose read plan is set
    throws [std::length_error] at the buffer allocation, before any
    read. *)
Lemma sim_scan_negative n h a (s : sys sim_world) :
  (max_tags_ n < 0)%Z -> sim_fail (sys_world s) (CallPlan [a]) = false ->
  scan_antenna n h a s =
    (Throw (length_error "cannot create std::vector larger than max_size()"),
     set_world (snd (sim_set_read_plan h [a] (-1) (sys_world s))) s).
Proof.
  intros Hm Hf. unfold scan_antenna, call, vector_new. st_unfold. cbn.
  unfold sim_set_read_plan, sim_record. simpl. rewrite Hf. simpl.
  by destruct (decide (epc_buf_size_ n < 0)%Z); [|rewrite decide_True by done].
Qed.

(** C5: the startup protocol of the constructor (lines 36-64; spec
    section 4.1), on the simulated reader with any faults: when a
    parameter override has the wrong type no driver call is made;
    otherwise the constructor calls create, connect with the resolved
    [uri], region KR2 and the read plan [1; 2] with session -1, each only
    when the earlier ones succeeded, and on a failure releases exactly
    what was acquired: a failed connect destroys the handle, a failed
    region or plan disconnects then destroys it.  A failing wall timer
    adds no call: the reader is not released. *)
Theorem ctor_driver_calls ovr (s : sys sim_world) o s' :
  RfidTmreaderNode_ctor ovr s = (o, s') ->
  sim_trace (sys_world s') = sim_trace (sys_world s) ++
    match find (parameter_ill_typed ovr) declared_parameters with
    | Some _ => []
    | None => ctor_calls (sim_fail (sys_world s)) (fresh (sim_live (sys_world s)))
                (resolved_string ovr "uri" "tmr:///dev/ttyUSB0")
    end.
Proof.
  intros E. pose proof (load_parameters_type_check ovr s) as Hl.
  destruct (load_parameters_run ovr s) as [(p & Ep & Huri & _)|[name Ep]];
    destruct (find (parameter_ill_typed ovr) declared_parameters) as [name'|].
  - congruence.
  - rewrite <- Huri. exact (proj1 (sim_ctor_run _ _ _ _ _ Ep E)).
  - unfold RfidTmreaderNode_ctor in E. rewrite (st_bind_Throw _ _ _ _ _ Ep) in E.
    injection E as _ <-. by rewrite app_nil_r.
  - destruct Hl as [p Hp]. congruence.
Qed.

(** C6: the driver calls of a whole run of [main] over [k] timer
    firings (spec sections 4.1, 4.2 and 5), on the simulated reader with
    any faults that let construction succeed, with sane sizes: the
    startup calls, then for each tick and each antenna 1 and 2 in order
    the read plan on that antenna and, unless it failed, one read, and
    finally disconnect then destroy of the same reader; [main] prints
    nothing and returns 0. *)
Theorem main_driver_calls ovr k (s : sys sim_world) n s1 :
  RfidTmreaderNode_ctor ovr s = (Ret n, s1) -> tick_params_ok n ->
  let h := fresh (sim_live (sys_world s)) in
  let uri := resolved_string ovr "uri" "tmr:///dev/ttyUSB0" in
  exists s', main ovr k s = (Ret ([], 0%Z), s') /\
    sim_trace (sys_world s') = sim_trace (sys_world s) ++
      [EvCreate; EvConnect h uri; EvRegion h MERCURYAPI_REGION_KR2; EvPlan h [1; 2]%Z (-1)] ++
      concat (replicate k ([1; 2]%Z ≫= antenna_calls n h (sim_fail (sys_world s)))) ++
      [EvDisconnect h; EvDestroy h].
Proof.
  intros E0 Hok h uri. destruct (ctor_ok_params _ _ _ _ E0) as (p & Ep & Huri).
  destruct (sim_ctor_run _ _ _ _ _ Ep E0) as (Ht0 & Hf0 & _ & Hn).
  destruct (Hn n eq_refl) as (Hr & Ha & Hc). rewrite Hc, Huri in Ht0.
  destruct (spin k n s1) as [o2 s2] eqn:E2.
  destruct (sim_spin_calls _ _ _ _ _ _ Hok Hr E2) as (-> & Ht2 & _).
  eexists; split; [exact (main_run _ _ _ _ _ (run_node_ok _ _ _ _ _ _ _ _ E0 Hr E2 eq_refl))|].
  cbn. rewrite Ht2, Ht0, Hf0, Ha, <- !app_assoc. done.
Qed.

(** C24: a negative [max_tags] (accepted by the constructor) stops the
    node at its first tick, on the simulated reader: once the read plan
    of antenna 1 is set, the allocation of the tag buffers throws
    [std::length_error] out of the timer callback and out of
    [rclcpp::spin]; no read is made, nothing is published, the reader is
    disconnected and destroyed, and [main] prints one [Fatal] line and
    returns 0.  The spec asks tick-level errors to be absorbed inside the
    scan loop. *)
Theorem main_negative_max_tags_stops ovr k (s : sys sim_world) n s1 :
  RfidTmreaderNode_ctor ovr s = (Ret n, s1) -> (max_tags_ n < 0)%Z -> (0 < k)%nat ->
  sim_fail (sys_world s) (CallPlan [1%Z]) = false ->
  let h := fresh (sim_live (sys_world s)) in
  let uri := resolved_string ovr "uri" "tmr:///dev/ttyUSB0" in
  exists s',
    main ovr k s =
      (Ret ([fatal_line (length_error "cannot create std::vector larger than max_size()")], 0%Z), s') /\
    sys_published s' = sys_published s /\
    sim_trace (sys_world s') = sim_trace (sys_world s) ++
      [EvCreate; EvConnect h uri; EvRegion h MERCURYAPI_REGION_KR2; EvPlan h [1; 2]%Z (-1);
       EvPlan h [1%Z] (-1); EvDisconnect h; EvDestroy h].
Proof.
  intros E0 Hm Hk Hf h uri. destruct k as [|k]; [lia|].
  destruct (ctor_ok_params _ _ _ _ E0) as (p & Ep & Huri).
  destruct (sim_ctor_run _ _ _ _ _ Ep E0) as (Ht0 & Hf0 & Hp0 & Hn).
  destruct (Hn n eq_refl) as (Hr & Ha & Hc). rewrite Hc, Huri in Ht0.
  rewrite <- Hf0 in Hf.
  assert (Etick : OnTimer n s1 = (Throw (length_error "cannot create std::vector larger than max_size()"),
                    set_world (snd (sim_set_read_plan h [1%Z] (-1) (sys_world s1))) s1)).
  { unfold OnTimer. rewrite Hr, Ha. cbn [for_each].
    by rewrite (st_bind_Throw _ _ _ _ _ (sim_scan_negative _ _ _ _ Hm Hf)). }
  assert (Erun : run_node ovr (S k) s =
    (Throw (length_error "cannot create std::vector larger than max_size()"),
     set_world (mercuryapi_reader_destroy h (mercuryapi_reader_disconnect h
       (snd (sim_set_read_plan h [1%Z] (-1) (sys_world s1)))))
       (set_world (snd (sim_set_read_plan h [1%Z] (-1) (sys_world s1))) s1))).
  { unfold run_node. rewrite (st_bind_Ret _ _ _ _ _ E0). unfold st_finally. cbn [spin].
    rewrite (st_bind_Throw _ _ _ _ _ Etick). st_unfold. by rewrite dtor_run, Hr. }
  eexists; split; [exact (main_run _ _ _ _ _ Erun)|]. split; [done|].
  destruct (sim_set_read_plan h [1%Z] (-1) (sys_world s1)) as [r w2] eqn:Ep1.
  destruct (sim_plan_trace _ _ _ _ _ _ Ep1) as (Ht1 & _).
  cbn. rewrite Ht1, Ht0, <- !app_assoc. done.
Qed.

(** ** Witnesses *)

(** Setting the region fails: the reader is disconnected then
    destroyed. *)
Lemma ctor_driver_calls_witness :
  RfidTmreaderNode_ctor ∅ (sys_fail [CallRegion]) =
    (fst (RfidTmreaderNode_ctor ∅ (sys_fail [CallRegion])),
     snd (RfidTmreaderNode_ctor ∅ (sys_fail [CallRegion]))) /\
  sim_trace (sys_world (snd (RfidTmreaderNode_ctor ∅ (sys_fail [CallRegion])))) =
    sim_trace (sys_world (sys_fail [CallRegion])) ++
    match find (parameter_ill_typed ∅) declared_parameters with
    | Some _ => []
    | None => ctor_calls (sim_fail (sys_world (sys_fail [CallRegion])))
                (fresh (sim_live (sys_world (sys_fail [CallRegion]))))
                (resolved_string ∅ "uri" "tmr:///dev/ttyUSB0")
    end.
Proof.
  assert (H1 : RfidTmreaderNode_ctor ∅ (sys_fail [CallRegion]) =
    (fst (RfidTmreaderNode_ctor ∅ (sys_fail [CallRegion])),
     snd (RfidTmreaderNode_ctor ∅ (sys_fail [CallRegion])))) by (vm_compute; reflexivity).
  split; [exact H1|]. exact (ctor_driver_calls _ _ _ _ H1).
Defined.

(** Two ticks while the read plan of antenna 1 always fails. *)
Lemma main_driver_calls_witness :
  RfidTmreaderNode_ctor ∅ (sys_fail [CallPlan [1%Z]]) =
    (Ret demo_node, snd (RfidTmreaderNode_ctor ∅ (sys_fail [CallPlan [1%Z]]))) /\
  tick_params_ok demo_node /\
  let h := fresh (sim_live (sys_world (sys_fail [CallPlan [1%Z]]))) in
  let uri := resolved_string ∅ "uri" "tmr:///dev/ttyUSB0" in
  exists s', main ∅ 2 (sys_fail [CallPlan [1%Z]]) = (Ret ([], 0%Z), s') /\
    sim_trace (sys_world s') = sim_trace (sys_world (sys_fail [CallPlan [1%Z]])) ++
      [EvCreate; EvConnect h uri; EvRegion h MERCURYAPI_REGION_KR2; EvPlan h [1; 2]%Z (-1)] ++
      concat (replicate 2 ([1; 2]%Z ≫= antenna_calls demo_node h
                             (sim_fail (sys_world (sys_fail [CallPlan [1%Z]]))))) ++
      [EvDisconnect h; EvDestroy h].
Proof.
  assert (H1 : RfidTmreaderNode_ctor ∅ (sys_fail [CallPlan [1%Z]]) =
    (Ret demo_node, snd (RfidTmreaderNode_ctor ∅ (sys_fail [CallPlan [1%Z]]))))
    by (vm_compute; reflexivity).
  assert (H2 : tick_params_ok demo_node) by (split; cbn; lia).
  split_and!; [exact H1|exact H2|]. exact (main_driver_calls _ 2 _ _ _ H1 H2).
Defined.

(** [max_tags] = -1, one tick. *)
Lemma main_negative_max_tags_stops_witness :
  RfidTmreaderNode_ctor (<["max_tags" := PInt (-1)]> ∅) (sys_fail []) =
    (Ret (small_node (-1) 256),
     snd (RfidTmreaderNode_ctor (<["max_tags" := PInt (-1)]> ∅) (sys_fail []))) /\
  (max_tags_ (small_node (-1) 256) < 0)%Z /\ (0 < 1)%nat /\
  sim_fail (sys_world (sys_fail [])) (CallPlan [1%Z]) = false /\
  let h := fresh (sim_live (sys_world (sys_fail []))) in
  let uri := resolved_string (<["max_tags" := PInt (-1)]> ∅) "uri" "tmr:///dev/ttyUSB0" in
  exists s',
    main (<["max_tags" := PInt (-1)]> ∅) 1 (sys_fail []) =
      (Ret ([fatal_line (length_error "cannot create std::vector larger than max_size()")], 0%Z), s') /\
    sys_published s' = sys_published (sys_fail []) /\
    sim_trace (sys_world s') = sim_trace (sys_world (sys_fail [])) ++
      [EvCreate; EvConnect h uri; EvRegion h MERCURYAPI_REGION_KR2; EvPlan h [1; 2]%Z (-1);
       EvPlan h [1%Z] (-1); EvDisconnect h; EvDestroy h].
Proof.
  assert (H1 : RfidTmreaderNode_ctor (<["max_tags" := PInt (-1)]> ∅) (sys_fail []) =
    (Ret (small_node (-1) 256),
     snd (RfidTmreaderNode_ctor (<["max_tags" := PInt (-1)]> ∅) (sys_fail []))))
    by (vm_compute; reflexivity).
  assert (H2 : (max_tags_ (small_node (-1) 256) < 0)%Z) by (cbn; lia).
  assert (H3 : (0 < 1)%nat) by lia.
  assert (H4 : sim_fail (sys_world (sys_fail [])) (CallPlan [1%Z]) = false) by reflexivity.
  split_and!; [exact H1|exact H2|exact H3|exact H4|].
  exact (main_negative_max_tags_stops _ 1 _ _ _ H1 H2 H3 H4).
Defined.
