(* ===== verification/Lifecycle.v ===== *)
(** * Lifecycle: the process as a state machine

    [main] (lines 129-138) drives the process through a few phases:
    before [rclcpp::init] ([PBoot]), before construction ([PInit]),
    running (the timer fires again and again inside [rclcpp::spin]),
    after the [try]/[catch] with the lines written to stderr
    ([PCaught]), and exited after [rclcpp::shutdown] ([PExited]).
    [proc_step] is that control flow as a step relation: [rclcpp::init];
    construction succeeds or throws; a tick returns, or throws out of
    [spin], after which the [shared_ptr] temporary of line 133 is
    destroyed; or [spin] returns because the context was shut down from
    outside and the node is destroyed; then [rclcpp::shutdown].

    The theorems: every configuration reachable from a well-formed start
    satisfies [proc_inv] (rule induction, [rtc_invariant]): a running
    node owns exactly one fresh reader beyond the initial resources, and
    once the node is gone the process holds the initial resources,
    except after the one failure that leaks (the wall timer); and every
    run of [main] that returns is a path of [proc_step] ending in the
    exited state with the same stderr lines and the same system. *)

From S2P Require Import Prelude Driver SimDriver Config Startup Message ScanTick Main.

(** The phases of the process. *)
Inductive proc_state :=
  | PBoot                          (** before [rclcpp::init] *)
  | PInit                          (** context valid, node not yet built *)
  | PRunning (n : RfidTmreaderNode)
  | PCaught (stderr : list string)  (** the [try] is over, before [rclcpp::shutdown] *)
  | PExited (stderr : list string).

Section Lifecycle.
Context `{MercuryApi W}.
Variable ovr : overrides.

(** One step of [main] between two observable phases. *)
Inductive proc_step : proc_state * sys W -> proc_state * sys W -> Prop :=
  | step_rcl_init s s' :
      rclcpp_init s = (Ret tt, s') ->
      proc_step (PBoot, s) (PInit, s')
  | step_construct s n s' :
      RfidTmreaderNode_ctor ovr s = (Ret n, s') ->
      proc_step (PInit, s) (PRunning n, s')
  | step_construct_failed s e s' :
      RfidTmreaderNode_ctor ovr s = (Throw e, s') ->
      proc_step (PInit, s) (PCaught [fatal_line e], s')
  | step_tick n s s' :
      OnTimer n s = (Ret tt, s') ->
      proc_step (PRunning n, s) (PRunning n, s')
  | step_tick_failed n s e s1 n' s2 :
      OnTimer n s = (Throw e, s1) -> RfidTmreaderNode_dtor n s1 = (Ret n', s2) ->
      proc_step (PRunning n, s) (PCaught [fatal_line e], s2)
  | step_destroy n s s1 n' s' :
      spin_exit s = (Ret tt, s1) -> RfidTmreaderNode_dtor n s1 = (Ret n', s') ->
      proc_step (PRunning n, s) (PCaught [], s')
  | step_rcl_shutdown err s s' :
      rclcpp_shutdown s = (Ret tt, s') ->
      proc_step (PCaught err, s) (PExited err, s').

(** The resources once the node is gone: the initial ones, or one
    leaked reader after the wall-timer failure. *)
Definition exit_inv (base : gset reader_handle * gset reader_handle) (err : list string)
    (s : sys W) : Prop :=
  resources s = base \/
  (err = [fatal_line (invalid_argument "timer period cannot be negative")] /\
   exists h, h ∉ base.1 /\ resources s = ({[h]} ∪ base.1, {[h]} ∪ base.2)).

(** The invariant of the reachable configurations, relative to the
    resources [base] held before the process started. *)
Definition proc_inv (base : gset reader_handle * gset reader_handle)
    (c : proc_state * sys W) : Prop :=
  world_wf c.2 /\
  match c.1 with
  | PBoot | PInit => resources c.2 = base
  | PRunning n => exists h, reader_ n = Some h /\ h ∉ base.1 /\
      resources c.2 = ({[h]} ∪ base.1, {[h]} ∪ base.2)
  | PCaught err | PExited err => exit_inv base err c.2
  end.
End Lifecycle.

Section LifecycleProofs.
Context `{MercuryApiLaws W}.

Lemma world_wf_resources (s s' : sys W) :
  resources s' = resources s -> world_wf s -> world_wf s'.
Proof. unfold world_wf, resources. intros [= -> ->]. done. Qed.

Lemma world_wf_base (s : sys W) B1 B2 :
  resources s = (B1, B2) -> B2 ⊆ B1 -> world_wf s.
Proof. unfold world_wf, resources. intros [= -> ->]. done. Qed.

(** The destructor of a node whose reader is the one fresh handle gives
    the base resources back. *)
Lemma dtor_restores_base n h (s : sys W) n' s' B1 B2 :
  reader_ n = Some h -> h ∉ B1 -> B2 ⊆ B1 ->
  resources s = ({[h]} ∪ B1, {[h]} ∪ B2) ->
  RfidTmreaderNode_dtor n s = (Ret n', s') -> resources s' = (B1, B2).
Proof.
  intros Hr Hh HB Hres. rewrite dtor_run, Hr. intros [= _ <-].
  destruct (reader_teardown_spec h (sys_world s)) as [Hl Hc].
  unfold resources in *. injection Hres as Hl0 Hc0. cbn.
  rewrite Hl, Hc, Hl0, Hc0, !union_diff_fresh by set_solver. done.
Qed.

(** [rclcpp::init] and [rclcpp::shutdown] change the context only. *)
Lemma rcl_step_resources (m : ST (sys W) unit) c (s s' : sys W) :
  (forall s, m s = (Ret tt, set_ctx c s)) -> m s = (Ret tt, s') ->
  resources s' = resources s /\ sys_ctx s' = c.
Proof. intros Hm E. rewrite Hm in E. by injection E as <-. Qed.

Lemma proc_step_inv ovr base c c' :
  base.2 ⊆ base.1 -> proc_inv base c -> proc_step ovr c c' -> proc_inv base c'.
Proof.
  destruct base as [B1 B2]. unfold proc_inv, exit_inv. cbn. intros HB [Hwf Hc] Hstep.
  destruct Hstep as [s s' E|s n s' E|s e s' E|n s s' E|n s e s1 n' s2 E1 E2|n s sx n' s' Ex E|err s s' E];
    cbn in *.
  - destruct (rcl_step_resources _ _ _ _ (fun _ => eq_refl) E) as [Hres _].
    split; [by eapply world_wf_resources|congruence].
  - pose proof (ctor_refines_spec _ _ _ _ Hwf E) as Hspec.
    inversion Hspec as [| | |? h ? Hr Hh _ _ _ _ _ Hres]; subst.
    unfold resources in Hc. injection Hc as HL HC. rewrite HL, HC in Hres. rewrite HL in Hh.
    split; [eapply world_wf_base; [exact Hres|set_solver]|by exists h].
  - pose proof (ctor_refines_spec _ _ _ _ Hwf E) as Hspec.
    inversion Hspec as [name|what ? _ Hres _|h ? _ Hh Hres _|]; subst.
    + split; [done|by left].
    + split; [by eapply world_wf_resources|left; congruence].
    + unfold resources in Hc. injection Hc as HL HC. rewrite HL, HC in Hres. rewrite HL in Hh.
      split; [eapply world_wf_base; [exact Hres|set_solver]|].
      right. split; [done|by exists h].
  - pose proof (OnTimer_keeps_resources _ n s _ s' eq_refl E) as Hres. cbv beta in Hres.
    split; [by eapply world_wf_resources|]. destruct Hc as (h & Hr & Hh & Hc).
    exists h. by rewrite Hres.
  - pose proof (OnTimer_keeps_resources _ n s _ s1 eq_refl E1) as Hres. cbv beta in Hres.
    destruct Hc as (h & Hr & Hh & Hc). rewrite <- Hres in Hc.
    pose proof (dtor_restores_base _ _ _ _ _ _ _ Hr Hh HB Hc E2) as Hres2.
    split; [by eapply world_wf_base|by left].
  - destruct Hc as (h & Hr & Hh & Hc).
    destruct (rcl_step_resources _ _ _ _ (fun _ => eq_refl) Ex) as [Hx _]. rewrite <- Hx in Hc.
    pose proof (dtor_restores_base _ _ _ _ _ _ _ Hr Hh HB Hc E) as Hres2.
    split; [by eapply world_wf_base|by left].
  - destruct (rcl_step_resources _ _ _ _ (fun _ => eq_refl) E) as [Hres _].
    split; [by eapply world_wf_resources|]. by rewrite Hres.
Qed.

Lemma dtor_ret n (s : sys W) : exists n' s', RfidTmreaderNode_dtor n s = (Ret n', s').
Proof. rewrite dtor_run. destruct (reader_ n); eauto. Qed.

(** [spin] is a path of ticks, ended by the shutdown from outside or by
    a tick that throws. *)
Lemma spin_path ovr k n (s : sys W) o s1 :
  spin k n s = (o, s1) ->
  (o = Ret tt /\ exists sm, rtc (proc_step ovr) (PRunning n, s) (PRunning n, sm) /\
     spin_exit sm = (Ret tt, s1)) \/
  (exists e sm, o = Throw e /\ rtc (proc_step ovr) (PRunning n, s) (PRunning n, sm) /\
     OnTimer n sm = (Throw e, s1)) \/
  (exists w, o = Undefined w).
Proof.
  revert s. induction k as [|k IH]; intros s E; simpl in E.
  - left. pose proof E as E'. unfold spin_exit in E'. injection E' as <- _.
    split; [done|]. exists s. split; [apply rtc_refl|exact E].
  - destruct (OnTimer n s) as [[[]|e|w] s2] eqn:E1.
    + rewrite (st_bind_Ret _ _ _ _ _ E1) in E.
      destruct (IH _ E) as [[-> (sm & Hp & Hx)]|[(e & sm & -> & Hp & Ee)|Hu]];
        [left|right; left|by right; right].
      * split; [done|]. exists sm. split; [|done]. eapply rtc_l; [by apply step_tick|done].
      * exists e, sm. split_and!; [done| |done]. eapply rtc_l; [by apply step_tick|done].
    + rewrite (st_bind_Throw _ _ _ _ _ E1) in E. injection E as <- <-.
      right; left. exists e, s. split_and!; [done|apply rtc_refl|done].
    + rewrite (st_bind_Undefined _ _ _ _ _ E1) in E. injection E as <- <-.
      right; right. by eexists.
Qed.

(** The node's life inside the [try] of line 132: a path from [PInit]
    to [PCaught] with the stderr lines of the [catch]. *)
Lemma run_node_path ovr k (s : sys W) o s1 :
  run_node ovr k s = (o, s1) ->
  (o = Ret tt /\ rtc (proc_step ovr) (PInit, s) (PCaught [], s1)) \/
  (exists e, o = Throw e /\ rtc (proc_step ovr) (PInit, s) (PCaught [fatal_line e], s1)) \/
  (exists w, o = Undefined w).
Proof.
  unfold run_node.
  destruct (RfidTmreaderNode_ctor ovr s) as [[n|e|w] s0] eqn:E0.
  - rewrite (st_bind_Ret _ _ _ _ _ E0). unfold st_finally.
    destruct (spin k n s0) as [o2 s2] eqn:E2.
    destruct (dtor_ret n s2) as (n' & s3 & E3).
    assert (Ef : (RfidTmreaderNode_dtor n ;; mret tt) s2 = (Ret tt, s3))
      by by rewrite (st_bind_Ret _ _ _ _ _ E3).
    destruct (spin_path ovr _ _ _ _ _ E2) as [[-> (sm & Hp & Hx)]|[(e & sm & -> & Hp & Ee)|(w & ->)]];
      rewrite ?Ef; intros [= <- <-]; [left|right; left|by right; right; eexists];
      [split; [done|]|exists e; split; [done|]]; eapply rtc_l; try by apply step_construct.
    + eapply rtc_r; [exact Hp|]. by eapply step_destroy.
    + eapply rtc_r; [exact Hp|]. by eapply step_tick_failed.
  - rewrite (st_bind_Throw _ _ _ _ _ E0). intros [= <- <-]. right; left.
    exists e. split; [done|]. apply rtc_once. by apply step_construct_failed.
  - rewrite (st_bind_Undefined _ _ _ _ _ E0). intros [= <- <-]. right; right. by eexists.
Qed.

(** C4: every configuration reachable from a well-formed start is in
    the invariant: before construction the resources are the initial
    ones; a running node holds exactly one fresh, connected reader more;
    once the node is gone the process holds the initial resources again,
    except after the wall-timer failure, which leaks that one reader. *)
Theorem lifecycle_invariant ovr (s0 : sys W) c :
  world_wf s0 -> rtc (proc_step ovr) (PBoot, s0) c -> proc_inv (resources s0) c.
Proof.
  intros Hwf Hr. assert (HB : (resources s0).2 ⊆ (resources s0).1) by exact Hwf.
  eapply (rtc_invariant _ (proc_inv (resources s0))); [|exact Hr|by split].
  intros a b. by apply proc_step_inv.
Qed.

(** C3: [main] refines the lifecycle: every run of [main] that returns
    its stderr lines [err] (and exit status 0) is a path of [proc_step]
    from the start of the process to the exited phase with those lines
    and the same final system. *)
Theorem main_refines_lifecycle ovr k (s : sys W) err s' :
  main ovr k s = (Ret (err, 0%Z), s') -> rtc (proc_step ovr) (PBoot, s) (PExited err, s').
Proof.
  intros E. destruct (run_node ovr k s) as [o s1] eqn:Er. rewrite (main_run _ _ _ _ _ Er) in E.
  destruct (run_node_oblivious ovr k _ _ (set_ctx_equiv RclValid s)) as [Ho Hs].
  destruct (run_node ovr k (set_ctx RclValid s)) as [o' s1'] eqn:Er'.
  rewrite Er in Ho, Hs. cbn -[set_ctx] in Ho, Hs. subst o'.
  destruct (run_node_path _ _ _ _ _ Er') as [[-> Hp]|[(e & -> & Hp)|(w & ->)]];
    [simplify_eq/=..|done]; rewrite <- (set_ctx_proper _ _ _ Hs);
    (eapply rtc_l; [by apply step_rcl_init|]; eapply rtc_r; [exact Hp|by apply step_rcl_shutdown]).
Qed.
End LifecycleProofs.

(** ** Witnesses on the simulated reader *)

(** The leaking path: [loop_sleep_ms] narrows to -1, so construction
    fails at the wall timer; the process still shuts rclcpp down. *)
Lemma timer_failure_path :
  rtc (proc_step (<["loop_sleep_ms" := PInt 4294967295]> ∅)) (PBoot, sys_fail [])
    (PExited [fatal_line (invalid_argument "timer period cannot be negative")],
     set_ctx RclShutdown (snd (RfidTmreaderNode_ctor (<["loop_sleep_ms" := PInt 4294967295]> ∅)
                                (set_ctx RclValid (sys_fail []))))).
Proof.
  eapply rtc_l; [by apply step_rcl_init|].
  eapply rtc_l; [apply step_construct_failed; vm_compute; reflexivity|].
  apply rtc_once. by apply step_rcl_shutdown.
Qed.

Lemma lifecycle_invariant_witness :
  world_wf (sys_fail []) /\
  rtc (proc_step (<["loop_sleep_ms" := PInt 4294967295]> ∅)) (PBoot, sys_fail [])
    (PExited [fatal_line (invalid_argument "timer period cannot be negative")],
     set_ctx RclShutdown (snd (RfidTmreaderNode_ctor (<["loop_sleep_ms" := PInt 4294967295]> ∅)
                                (set_ctx RclValid (sys_fail []))))) /\
  proc_inv (resources (sys_fail []))
    (PExited [fatal_line (invalid_argument "timer period cannot be negative")],
     set_ctx RclShutdown (snd (RfidTmreaderNode_ctor (<["loop_sleep_ms" := PInt 4294967295]> ∅)
                                (set_ctx RclValid (sys_fail []))))).
Proof.
  assert (H1 : world_wf (sys_fail [])) by done.
  split_and!; [exact H1|exact timer_failure_path|].
  exact (lifecycle_invariant _ _ _ H1 timer_failure_path).
Defined.

Lemma main_refines_lifecycle_witness :
  main ∅ 2 (sys_of (sim_init field_demo no_faults)) =
    (Ret ([], 0%Z), snd (main ∅ 2 (sys_of (sim_init field_demo no_faults)))) /\
  rtc (proc_step ∅) (PBoot, sys_of (sim_init field_demo no_faults))
    (PExited [], snd (main ∅ 2 (sys_of (sim_init field_demo no_faults)))).
Proof.
  assert (H1 : main ∅ 2 (sys_of (sim_init field_demo no_faults)) =
    (Ret ([], 0%Z), snd (main ∅ 2 (sys_of (sim_init field_demo no_faults))))) by (vm_compute; reflexivity).
  split; [exact H1|]. exact (main_refines_lifecycle _ _ _ _ _ H1).
Defined.
